(** * The capsule isolator of bit: a shallow embedding

    Source files embedded here:
    - [scopes/component/isolator/isolator.main.runtime.ts] (the [IsolatorMain]
      aspect: graph resolution, capsule creation, manifest reconciliation,
      install and link orchestration, listing);
    - [src/environment/environment.ts] (the installed-marker of an isolated
      environment).

    Asynchronous code is embedded in a state-and-error monad over the file
    system: a rejected promise or a thrown exception is [Err], and the tasks
    of a [Promise.all] batch run in list order. *)

From Stdlib Require Import String List ZArith Bool Lia.
From stdpp Require Import base option list gmap strings pretty.

Local Open Scope string_scope.
Set Warnings "-register-all".

(** ** JavaScript values and errors *)

(** What a [throw] or a rejected promise carries.  [SystemError] is a file
    system error of Node, which has a [code]. *)
Inductive JsError :=
  | SystemError (code : string)
  | SyntaxError
  | TypeError
  | GenericError (message : string).

Definition error_code (e : JsError) : option string :=
  match e with
  | SystemError c => Some c
  | _ => None
  end.

Inductive Result (A : Type) :=
  | Ok (a : A)
  | Err (e : JsError).
Arguments Ok {A} a.
Arguments Err {A} e.

(** A computation that may throw: [let* x := m in k] runs [k] on the value
    of [m], or fails as [m] does. *)
Definition bind {A B} (m : Result A) (k : A → Result B) : Result B :=
  match m with
  | Ok a => k a
  | Err e => Err e
  end.

Notation "'let*' x ':=' m 'in' k" := (bind m (fun x => k))
  (at level 10, x name, m at level 100, k at level 200, only parsing).
Notation "'let*' ' p ':=' m 'in' k" := (bind m (fun x => let 'p := x in k))
  (at level 10, p pattern, m at level 100, k at level 200, only parsing).

(** [try { body } catch (e) { handler(e) }] *)
Definition try_catch {A} (body : Result A) (handler : JsError → Result A) : Result A :=
  match body with
  | Ok a => Ok a
  | Err e => handler e
  end.

(** [Promise.all(xs.map(f))] and [xs.forEach(f)] with a body that may throw. *)
Fixpoint Promise_all {A B} (f : A → Result B) (xs : list A) : Result (list B) :=
  match xs with
  | [] => Ok []
  | x :: rest =>
      let* y := f x in
      let* ys := Promise_all f rest in
      Ok (y :: ys)
  end.

(** [xs.filter(p)] and [xs.some(p)] with a predicate that may throw. *)
Fixpoint filter_result {A} (p : A → Result bool) (xs : list A) : Result (list A) :=
  match xs with
  | [] => Ok []
  | x :: rest =>
      let* b := p x in
      let* ys := filter_result p rest in
      Ok (if b then x :: ys else ys)
  end.

Fixpoint some_result {A} (p : A → Result bool) (xs : list A) : Result bool :=
  match xs with
  | [] => Ok false
  | x :: rest =>
      let* b := p x in
      if b then Ok true else some_result p rest
  end.

(** The values [JSON.parse] produces.  An object is the list of its
    properties in insertion order; numbers are restricted to integers (the
    dependency sections of a manifest hold strings). *)
Inductive Json :=
  | JNull
  | JBool (b : bool)
  | JNum (n : Z)
  | JStr (s : string)
  | JArr (items : list Json)
  | JObj (props : list (string * Json)).

(** A JavaScript value that may be [undefined]. *)
Definition JsVal := option Json.

Fixpoint assoc {V} (k : string) (kvs : list (string * V)) : option V :=
  match kvs with
  | [] => None
  | (k', v) :: rest => if String.eqb k k' then Some v else assoc k rest
  end.

(** [obj[key] = v] on the property list: an existing property keeps its
    place, a new one goes last. *)
Fixpoint obj_set {V} (kvs : list (string * V)) (k : string) (v : V) : list (string * V) :=
  match kvs with
  | [] => [(k, v)]
  | (k', v') :: rest =>
      if String.eqb k k' then (k, v) :: rest else (k', v') :: obj_set rest k v
  end.

(** [Object.assign({}, a, b)] and [{...a, ...b}]. *)
Definition obj_assign {V} (a b : list (string * V)) : list (string * V) :=
  fold_left (fun acc kv => obj_set acc (fst kv) (snd kv)) b a.

(** [!v] is [negb (truthy v)]. *)
Definition truthy (v : Json) : bool :=
  match v with
  | JNull => false
  | JBool b => b
  | JNum n => negb (n =? 0)%Z
  | JStr s => negb (String.eqb s EmptyString)
  | JArr _ | JObj _ => true
  end.

(** [v[field]] for a constant field name that is neither an index nor a
    built-in property: [undefined] unless [v] is an object with that
    property; reading a property of [null] or [undefined] throws. *)
Definition get_field (v : JsVal) (field : string) : Result JsVal :=
  match v with
  | None | Some JNull => Err TypeError
  | Some (JObj props) => Ok (assoc field props)
  | Some _ => Ok None
  end.

(** ramda's [equals] on JSON values: deep, and insensitive to the order of
    an object's properties. *)
Fixpoint equals_json (a b : Json) {struct a} : bool :=
  match a, b with
  | JNull, JNull => true
  | JBool x, JBool y => Bool.eqb x y
  | JNum x, JNum y => (x =? y)%Z
  | JStr x, JStr y => String.eqb x y
  | JArr xs, JArr ys =>
      (fix items (xs ys : list Json) {struct xs} : bool :=
         match xs, ys with
         | [], [] => true
         | x :: xs', y :: ys' => equals_json x y && items xs' ys'
         | _, _ => false
         end) xs ys
  | JObj ps, JObj qs =>
      Nat.eqb (length ps) (length qs) &&
      (fix props (ps : list (string * Json)) {struct ps} : bool :=
         match ps with
         | [] => true
         | (k, v) :: ps' =>
             match assoc k qs with
             | Some w => equals_json v w
             | None => false
             end && props ps'
         end) ps
  | _, _ => false
  end.

Definition equals (a b : JsVal) : bool :=
  match a, b with
  | None, None => true
  | Some x, Some y => equals_json x y
  | _, _ => false
  end.

(** No object of the value has two properties of the same name, as in every
    value [JSON.parse] returns. *)
Fixpoint unique_keys (j : Json) : bool :=
  match j with
  | JArr xs => forallb unique_keys xs
  | JObj ps =>
      bool_decide (NoDup (map fst ps)) && forallb (fun kv => unique_keys (snd kv)) ps
  | _ => true
  end.

(** Two JSON values are the same value: the same scalar, arrays with the
    same items in the same order, objects with the same properties, in
    whatever order they are listed. *)
Inductive same_json : Json → Json → Prop :=
  | same_null : same_json JNull JNull
  | same_bool (b : bool) : same_json (JBool b) (JBool b)
  | same_num (n : Z) : same_json (JNum n) (JNum n)
  | same_str (s : string) : same_json (JStr s) (JStr s)
  | same_arr (xs ys : list Json) :
      Forall2 same_json xs ys → same_json (JArr xs) (JArr ys)
  | same_obj (ps qs : list (string * Json)) :
      (∀ k, option_Forall2 same_json (assoc k ps) (assoc k qs)) →
      same_json (JObj ps) (JObj qs).

(** The same for values that may be [undefined]. *)
Definition same_value (a b : JsVal) : Prop := option_Forall2 same_json a b.

(** [path.join(a, b)] on normalised segments. *)
Definition path_join (a b : string) : string := a ++ "/" ++ b.

(** ** Components, capsules and options *)

(** Modelled from the spec: [bit-id] and [ComponentID] are not in the source
    tree; a component has an "identity (id + version)", the version being
    there once the component is tagged. *)
Record BitId := {
  id_name : string;
  id_version : option string;
}.

#[global] Instance BitId_eq_dec : EqDecision BitId.
Proof. solve_decision. Defined.

(** Modelled from the spec: [bit-id] is missing; an identity has a version
    once it is "resolved", and lacks one before. *)
Definition hasVersion (i : BitId) : bool :=
  match id_version i with
  | Some _ => true
  | None => false
  end.

(** [i.version], asked for when [hasVersion] holds. *)
Definition version_of (i : BitId) : string := default EmptyString (id_version i).

(** Modelled from the spec: [bit-id] is missing; two identities are equal
    when "id + version" are. *)
Definition isEqual (a b : BitId) : bool := bool_decide (a = b).

(** Modelled from the spec: [bit-id] is missing; the text of an identity
    must "include version to avoid collisions between versions of the same
    component". *)
Definition toString (i : BitId) : string :=
  match id_version i with
  | Some v => id_name i ++ "@" ++ v
  | None => id_name i
  end.

(** Modelled from the spec: the component types are not in the source tree;
    a component has an "identity (id + version)" and its "dependency sets
    (runtime, dev, extension ...)".  The isolator reads them from the legacy
    counterpart of the component ([component.state._consumer]). *)
Record Component := {
  component_id : BitId;
  dependencies : list BitId;
  devDependencies : list BitId;
  extensionsBitIds : list BitId;
}.

(** Modelled from the spec: [capsule.ts] is missing; a capsule has a
    "deterministic directory path, a confined filesystem handle, a reference
    to its Component".  The handle is the disk below, at that path. *)
Record Capsule := {
  component : Component;
  path : string;
}.

(** [CapsuleList] is an array of capsules. *)
Definition CapsuleList := list Capsule.

(** The linking options, an object of flags. *)
Definition LinkingOptions := list (string * bool).

(** An optional property of an options object: [None] when the object does
    not have the property, [Some v] when it has it, [v] being [None] when the
    property is there with the value [undefined]. *)
Definition OwnProperty (A : Type) : Type := option (option A).

(** [o.p]: the value of the property, [undefined] also when [o] has no such
    property. *)
Definition property {A} (p : OwnProperty A) : option A :=
  match p with
  | Some v => v
  | None => None
  end.

Record IsolateComponentsInstallOptions := {
  installPackages : OwnProperty bool;
  dedupe : OwnProperty bool;
  copyPeerToRuntimeOnComponents : OwnProperty bool;
  copyPeerToRuntimeOnRoot : OwnProperty bool;
  installTeambitBit : OwnProperty bool;
}.

(** The flags that the code only tests for truthiness are booleans here, an
    absent flag being [false]. *)
Record IsolateComponentsOptions := {
  name : option string;
  baseDir : option string;
  alwaysNew : bool;
  installOptions : option IsolateComponentsInstallOptions;
  linkingOptions : option LinkingOptions;
  emptyRootDir : bool;
  skipIfExists : bool;
  getExistingAsIs : bool;
  cachePackagesOnCapsulesRoot : option bool;
  seedersOnly : bool;
}.

Definition DEFAULT_ISOLATE_INSTALL_OPTIONS : IsolateComponentsInstallOptions := {|
  installPackages := Some (Some true);
  dedupe := Some (Some true);
  copyPeerToRuntimeOnComponents := Some (Some false);
  copyPeerToRuntimeOnRoot := Some (Some true);
  installTeambitBit := None;
|}.

(** What [Object.assign] does to one property: a property that the source
    has is copied, whatever its value, [undefined] included; without it the
    property of the target stays. *)
Definition assign_property {A} (target source : OwnProperty A) : OwnProperty A :=
  match source with
  | Some v => Some v
  | None => target
  end.

(** [Object.assign({}, defaults, given)] on install options. *)
Definition assign_install_options (defaults given : IsolateComponentsInstallOptions)
  : IsolateComponentsInstallOptions := {|
  installPackages := assign_property (installPackages defaults) (installPackages given);
  dedupe := assign_property (dedupe defaults) (dedupe given);
  copyPeerToRuntimeOnComponents :=
    assign_property (copyPeerToRuntimeOnComponents defaults)
      (copyPeerToRuntimeOnComponents given);
  copyPeerToRuntimeOnRoot :=
    assign_property (copyPeerToRuntimeOnRoot defaults) (copyPeerToRuntimeOnRoot given);
  installTeambitBit :=
    assign_property (installTeambitBit defaults) (installTeambitBit given);
|}.

(** The empty object [{}]. *)
Definition no_install_options : IsolateComponentsInstallOptions := {|
  installPackages := None;
  dedupe := None;
  copyPeerToRuntimeOnComponents := None;
  copyPeerToRuntimeOnRoot := None;
  installTeambitBit := None;
|}.

(** Truthiness of an optional flag. *)
Definition flag (b : option bool) : bool := default false b.

Record CapsulePackageJsonData := {
  capsule : Capsule;
  currentPackageJson : JsVal;
  previousPackageJson : Json;
}.

Record Network := {
  network_capsules : CapsuleList;
  network_seeders : list BitId;
  network_capsulesRootDir : string;
}.

Record ListResults := {
  workspace : string;
  capsules : list string;
}.

(** The dependency policy of the workspace. *)
Inductive LifecycleType := runtime_dep | dev_dep | peer_dep.

#[global] Instance LifecycleType_eq_dec : EqDecision LifecycleType.
Proof. solve_decision. Defined.

Record PolicyEntry := {
  dependencyId : string;
  policy_version : string;
  lifecycleType : LifecycleType;
}.

Definition WorkspacePolicy := list PolicyEntry.

Definition byLifecycleType (t : LifecycleType) (p : WorkspacePolicy) : WorkspacePolicy :=
  List.filter (fun e => bool_decide (lifecycleType e = t)) p.

Record InstallOptions := {
  opt_installTeambitBit : bool;
}.

Record PackageManagerInstallOptions := {
  pm_dedupe : option bool;
  pm_copyPeerToRuntimeOnComponents : option bool;
  pm_copyPeerToRuntimeOnRoot : option bool;
}.

Definition ComponentMap := list (Component * string).

Record ComponentWriterProps := {
  props_component : Component;
  writeToPath : string;
  origin : string;
  props_scope : option string;
  override : bool;
  writePackageJson : bool;
  writeConfig : bool;
  ignoreBitDependencies : list BitId;
  excludeRegistryPrefix : bool;
  isolated : bool;
}.

(** ** The file system and the collaborators *)

(** A file is addressed by a directory and its path inside that directory:
    [(dir, rel)] is the file [path.join(dir, rel)].  A capsule's confined
    handle [capsule.fs] addresses [(capsule.path, rel)].  Symbolic links are
    kept apart from the files. *)
Record Disk := {
  files : gmap (string * string) string;
  dirs : gset string;
  links : gmap string string;
}.

(** A symbolic link to make: what it points to, and the full path it sits
    at.  On the disk, [links] has the target of every link by its path. *)
Record Symlink := {
  link_target : string;
  link_path : string;
}.

(** The calls that leave the isolator for the installer, the linker and the
    symlink helpers, with their arguments. *)
Inductive Call :=
  | Install (rootDir : string) (cacheRootDirectory : option string)
      (policy : WorkspacePolicy) (componentMap : ComponentMap)
      (installOptions : InstallOptions) (pmOptions : PackageManagerInstallOptions)
  | Link (rootDir : string) (getLinkerOptions : LinkingOptions)
      (policy : WorkspacePolicy) (componentMap : ComponentMap)
      (linkOptions : LinkingOptions)
  | SymlinkOnCapsuleRoot (capsuleList : CapsuleList) (capsulesDir : string)
  | SymlinkDependenciesToCapsules (capsules : list Capsule) (capsuleList : CapsuleList)
  | SymlinkBitBinToCapsules (capsules : list Capsule).

(** A run of the isolator: the disk, the calls made so far, and how many
    random suffixes the process has drawn so far. *)
Record World := {
  disk : Disk;
  calls : list Call;
  drawn : nat;
}.

(** Constants of [bit-bin/dist/constants] and the libraries the isolator
    calls ([object-hash], [JSON], [fs-extra]). *)
Class Platform := {
  CACHE_ROOT : string;
  PACKAGE_JSON : string;
  DEPENDENCIES_FIELDS : list string;
  hash : option string → string;
  JSON_parse : string → Result Json;
  JSON_stringify : Json → string;
  fs_readdir : string → Result (list string);
}.

(** The aspects injected into [IsolatorMain] and the helpers it imports:
    the component host, the graph builder, the dependency resolver with its
    installer and linker, the component writer and the symlink helpers.
    [successorsSubgraph] gives the components of the nodes of the subgraph;
    [run_call] is what a call to the installer or to the linker does to the
    disk; [populateComponentsFilesToWrite] gives the files the component
    writer wants written, by their path in the capsule; [capsuleDirName] is
    the stable name of the directory of a component's capsule, and
    [randomSuffix n] the [n]-th random suffix that the process draws for a
    capsule directory; [rootLinks], [dependencyLinks] and [bitBinLinks] are
    the links that the three symlink helpers are to make, on the capsule
    root, in a capsule for its dependencies, and in a capsule for the bit
    binary. *)
Class Collaborators := {
  host_path : string;
  host_getMany : list BitId → Result (list Component);
  host_hasId : BitId → Result bool;
  Graph : Type;
  getGraph : list BitId → Result Graph;
  successorsSubgraph : Graph → list string → list Component;
  getWorkspacePolicy : WorkspacePolicy;
  run_call : Call → Disk → Result Disk;
  populateComponentsFilesToWrite : ComponentWriterProps → Result (list (string * string));
  componentIdToPackageName : Component → BitId → string;
  capsuleDirName : Component → IsolateComponentsOptions → string;
  randomSuffix : nat → string;
  rootLinks : CapsuleList → string → list Symlink;
  dependencyLinks : Capsule → CapsuleList → list Symlink;
  bitBinLinks : Capsule → list Symlink;
}.

(** A step of a run: it reads and changes the world, or throws. *)
Definition M (A : Type) : Type := World → Result (A * World).

Definition retM {A} (a : A) : M A := fun w => Ok (a, w).

Definition bindM {A B} (m : M A) (k : A → M B) : M B :=
  fun w =>
    match m w with
    | Ok (a, w') => k a w'
    | Err e => Err e
    end.

Notation "'let!' x ':=' m 'in' k" := (bindM m (fun x => k))
  (at level 10, x name, m at level 100, k at level 200, only parsing).

(** A computation that only reads the disk. *)
Definition read {A} (f : Disk → Result A) : M A :=
  fun w =>
    match f (disk w) with
    | Ok a => Ok (a, w)
    | Err e => Err e
    end.

(** A change of the disk made by the isolator itself. *)
Definition modify (f : Disk → Result Disk) : M unit :=
  fun w =>
    match f (disk w) with
    | Ok d => Ok (tt, {| disk := d; calls := calls w; drawn := drawn w |})
    | Err e => Err e
    end.

(** [xs.forEach(f)] and [Promise.all(xs.map(f))] for steps. *)
Fixpoint forEach {A} (f : A → M unit) (xs : list A) : M unit :=
  match xs with
  | [] => retM tt
  | x :: rest => let! _ := f x in forEach f rest
  end.

Fixpoint Promise_all_M {A B} (f : A → M B) (xs : list A) : M (list B) :=
  match xs with
  | [] => retM []
  | x :: rest =>
      let! y := f x in
      let! ys := Promise_all_M f rest in
      retM (y :: ys)
  end.

(** Whether a directory sits at the path of [file]. *)
Definition isDirectory (d : Disk) (file : string * string) : bool :=
  bool_decide (path_join (fst file) (snd file) ∈ dirs d).

Definition readFile (d : Disk) (file : string * string) : Result string :=
  if isDirectory d file then Err (SystemError "EISDIR")
  else
    match files d !! file with
    | Some content => Ok content
    | None => Err (SystemError "ENOENT")
    end.

Definition existsSync (d : Disk) (file : string * string) : bool :=
  isDirectory d file || bool_decide (is_Some (files d !! file)).

(** The directory of the file is taken to exist: the capsule directories
    are created before anything is written into them. *)
Definition writeFileSync (file : string * string) (content : string) (d : Disk) : Result Disk :=
  if isDirectory d file then Err (SystemError "EISDIR")
  else Ok {| files := <[file := content]> (files d); dirs := dirs d; links := links d |}.

Definition ensureDir (dir : string) (d : Disk) : Disk :=
  {| files := files d; dirs := {[dir]} ∪ dirs d; links := links d |}.

(** [dir] lies strictly below [root]; [dir] is [root] or lies below it. *)
Definition below (root dir : string) : bool := String.prefix (root ++ "/") dir.
Definition within (root dir : string) : bool := String.eqb root dir || below root dir.

(** [fs.emptyDir(root)]: everything in [root] goes, [root] itself stays or is
    created. *)
Definition emptyDir (root : string) (d : Disk) : Disk :=
  {| files := filter (fun kv => within root (fst (fst kv)) = false) (files d);
     dirs := {[root]} ∪ filter (fun p => below root p = false) (dirs d);
     links := filter (fun kv => below root (fst kv) = false) (links d) |}.

(** Something sits at the full path [p]: a directory, a file or a link. *)
Definition occupied (p : string) (d : Disk) : bool :=
  bool_decide (p ∈ dirs d) ||
  bool_decide
    (p ∈ (set_map (fun file : string * string => path_join (fst file) (snd file))
            (dom (files d)) : gset string)) ||
  bool_decide (is_Some (links d !! p)).

(** [fs.symlink(target, p)]: refused when something sits at [p]. *)
Definition fs_symlink (target p : string) (d : Disk) : Result Disk :=
  if occupied p d then Err (SystemError "EEXIST")
  else Ok {| files := files d; dirs := dirs d; links := <[p := target]> (links d) |}.

(** [fs.unlink(p)] on a link. *)
Definition fs_unlink (p : string) (d : Disk) : Disk :=
  {| files := files d; dirs := dirs d; links := delete p (links d) |}.

(** ** The helpers that are not in the source tree *)

(** Modelled from the spec: [capsule-list.ts] is missing; a CapsuleList is
    an "ordered ... collection of capsules with id/path lookup", built from
    an array in the order given. *)
Definition fromArray (capsules : list Capsule) : CapsuleList := capsules.

(** Modelled from the spec: [capsule-list.ts] is missing; the id lookup of a
    CapsuleList gives the first capsule of that component, if any. *)
Definition getCapsule (capsuleList : CapsuleList) (i : BitId) : option Capsule :=
  List.find (fun c => isEqual (component_id (component c)) i) capsuleList.

(** Modelled from the spec: [persistAllToCapsule] of the legacy component is
    missing; the writer persists the component's files "into its capsule,
    overwriting only files the component owns and preserving everything else
    already present". *)
Fixpoint persistAllToCapsule (c : Capsule) (toWrite : list (string * string)) (d : Disk)
    : Result Disk :=
  match toWrite with
  | [] => Ok d
  | file :: rest =>
      let* d' := writeFileSync (path c, fst file) (snd file) d in
      persistAllToCapsule c rest d'
  end.

(** The properties a manifest object has; any other JSON value has none. *)
Definition props_of (v : JsVal) : list (string * Json) :=
  match v with
  | Some (JObj props) => props
  | _ => []
  end.

(** Modelled from the spec: [package-json-file.ts] is missing; a manifest
    gains entries, and "the core never removes manifest entries it does not
    own". *)
Definition addDependencies (deps : list (string * Json)) (packageJsonObject : Json) : Json :=
  let props := props_of (Some packageJsonObject) in
  JObj (obj_set props "dependencies"
          (JObj (obj_assign (props_of (assoc "dependencies" props)) deps))).

(** Modelled from the spec: [package-json-file.ts] is missing; as
    [addDependencies], on the development dependencies. *)
Definition addDevDependencies (deps : list (string * Json)) (packageJsonObject : Json) : Json :=
  let props := props_of (Some packageJsonObject) in
  JObj (obj_set props "devDependencies"
          (JObj (obj_assign (props_of (assoc "devDependencies" props)) deps))).

(** Modelled from the spec: [package-json-file.ts] is missing; the manifest
    gets the property, in place of the one it had under that name. *)
Definition addOrUpdateProperty (propertyName : string) (propertyValue : Json)
    (packageJsonObject : Json) : Json :=
  JObj (obj_set (props_of (Some packageJsonObject)) propertyName propertyValue).

(** Modelled from the spec: [symlink-dependencies-to-capsules.ts] and
    [symlink-bit-bin-to-capsules.ts] are missing; the helpers "establish"
    links, and "relinking an already-correct link must be a no-op, never an
    error": a link that is there with its target is left as it is; a link
    to something else is taken away first; then the link is made. *)
Definition establishLink (l : Symlink) (d : Disk) : Result Disk :=
  match links d !! link_path l with
  | Some target =>
      if String.eqb target (link_target l) then Ok d
      else fs_symlink (link_target l) (link_path l) (fs_unlink (link_path l) d)
  | None => fs_symlink (link_target l) (link_path l) d
  end.

(** The links of a helper, one after the other; the first failure is the
    failure of the helper. *)
Fixpoint establishLinks (ls : list Symlink) (d : Disk) : Result Disk :=
  match ls with
  | [] => Ok d
  | l :: rest =>
      let* d' := establishLink l d in
      establishLinks rest d'
  end.

Section Isolator.
Context `{Platform} `{Collaborators}.

(** The next random suffix of the process. *)
Definition drawSuffix : M string :=
  fun w =>
    Ok (randomSuffix (drawn w),
        {| disk := disk w; calls := calls w; drawn := S (drawn w) |}).

(** Modelled from the spec: [capsule.ts] is missing; the capsule's path is
    the "deterministic join of isolationRoot and a stable per-component
    identifier"; "if alwaysNew: append a random suffix, forcing a fresh
    directory even if one already exists"; and creation ensures "the
    directory exists (create recursively if missing)". *)
Definition createFromComponent (c : Component) (baseDir : string)
    (opts : IsolateComponentsOptions) : M Capsule :=
  let! dirName :=
    if alwaysNew opts
    then let! suffix := drawSuffix in retM (capsuleDirName c opts ++ suffix)
    else retM (capsuleDirName c opts) in
  let wrkDir := path_join baseDir dirName in
  let! _ := modify (fun d => Ok (ensureDir wrkDir d)) in
  retM {| component := c; path := wrkDir |}.

(** Modelled from the spec: [symlink-dependencies-to-capsules.ts] and
    [symlink-bit-bin-to-capsules.ts] are missing; each helper establishes
    its links: those of the capsule root, and, for each capsule it is given,
    those to the capsules of its dependencies, or the one to the bit
    binary. *)
Definition symlinkOnCapsuleRoot (capsuleList : CapsuleList) (capsulesDir : string) (d : Disk)
    : Result Disk :=
  establishLinks (rootLinks capsuleList capsulesDir) d.

Definition symlinkDependenciesToCapsules (capsules : list Capsule) (capsuleList : CapsuleList)
    (d : Disk) : Result Disk :=
  establishLinks (flat_map (fun capsule => dependencyLinks capsule capsuleList) capsules) d.

Definition symlinkBitBinToCapsules (capsules : list Capsule) (d : Disk) : Result Disk :=
  establishLinks (flat_map bitBinLinks capsules) d.

(** What a call does to the disk: the installer and the linker are outside
    the isolator, the symlink helpers are its own. *)
Definition effect (c : Call) (d : Disk) : Result Disk :=
  match c with
  | SymlinkOnCapsuleRoot capsuleList capsulesDir =>
      symlinkOnCapsuleRoot capsuleList capsulesDir d
  | SymlinkDependenciesToCapsules capsules capsuleList =>
      symlinkDependenciesToCapsules capsules capsuleList d
  | SymlinkBitBinToCapsules capsules => symlinkBitBinToCapsules capsules d
  | _ => run_call c d
  end.

(** Modelled from the spec: [package-json-file.ts] is missing; the
    manifest of a capsule is loaded from its manifest file, and a capsule
    without a readable manifest is an error. *)
Definition loadFromCapsuleSync (d : Disk) (capsuleRootDir : string) : Result Json :=
  match readFile d (capsuleRootDir, PACKAGE_JSON) with
  | Ok raw => JSON_parse raw
  | Err _ => Err (GenericError "capsule is missing package.json")
  end.

(** A call to a collaborator or to a helper: recorded, and run on the
    disk. *)
Definition call (c : Call) : M unit :=
  fun w =>
    match effect c (disk w) with
    | Ok d => Ok (tt, {| disk := d; calls := calls w ++ [c]; drawn := drawn w |})
    | Err e => Err e
    end.

Definition CAPSULES_BASE_DIR : string := path_join CACHE_ROOT "capsules".

(** The base directory is optional because [createCapsules] passes
    [opts.baseDir as string]. *)
Definition getCapsulesRootDir (baseDir : option string) : string :=
  path_join CAPSULES_BASE_DIR (hash baseDir).

(** [successorsSubgraph] gives the components ([node.attr]) of the nodes of
    the subgraph; [compact] keeps the components and drops the [undefined]
    of the others. *)
Definition createGraph (seeders : list BitId) : Result (list Component) :=
  let* graph := getGraph seeders in
  let successorsSubgraph := successorsSubgraph graph (map toString seeders) in
  let compsAndDeps := successorsSubgraph in
  let* existingComps :=
    Promise_all
      (fun c =>
         let* existing := host_hasId (component_id c) in
         if existing then Ok (Some c) else Ok None)
      compsAndDeps in
  Ok (omap (fun c => c) existingComps).

Definition createCapsulesFromComponents (components : list Component) (baseDir : string)
    (opts : IsolateComponentsOptions) : M (list Capsule) :=
  Promise_all_M (fun c => createFromComponent c baseDir opts) components.

Definition wereDependenciesInPackageJsonChanged (capsuleWithPackageData : CapsulePackageJsonData)
    : Result bool :=
  let previousPackageJson := previousPackageJson capsuleWithPackageData in
  let currentPackageJson := currentPackageJson capsuleWithPackageData in
  if negb (truthy previousPackageJson) then Ok true
  else
    some_result
      (fun field =>
         let* p := get_field (Some previousPackageJson) field in
         let* c := get_field currentPackageJson field in
         Ok (negb (equals p c)))
      DEPENDENCIES_FIELDS.

Definition getCapsulesPreviousPackageJson (d : Disk) (capsules : list Capsule)
    : Result (list CapsulePackageJsonData) :=
  Promise_all
    (fun capsule =>
       let packageJsonPath := (path capsule, "package.json") in
       let* previousPackageJson :=
         try_catch
           (let* previousPackageJsonRaw := readFile d packageJsonPath in
            JSON_parse previousPackageJsonRaw)
           (fun e => Ok JNull) in
       Ok {| capsule := capsule;
             currentPackageJson := None;
             previousPackageJson := previousPackageJson |})
    capsules.

Definition getCurrentPackageJson (d : Disk) (capsule : Capsule) : Result Json :=
  let component := component capsule in
  let newVersion := "0.0.1-new" in
  let getBitDependencies (dependencies : list BitId) :=
    fold_left
      (fun acc depId =>
         let packageDependency :=
           if hasVersion depId then version_of depId else newVersion in
         let packageName := componentIdToPackageName component depId in
         obj_set acc packageName (JStr packageDependency))
      dependencies [] in
  let bitDependencies := getBitDependencies (dependencies component) in
  let bitDevDependencies := getBitDependencies (devDependencies component) in
  let bitExtensionDependencies := getBitDependencies (extensionsBitIds component) in
  let* packageJson := loadFromCapsuleSync d (path capsule) in
  let packageJson := addDependencies bitDependencies packageJson in
  let packageJson :=
    addDevDependencies (obj_assign bitDevDependencies bitExtensionDependencies) packageJson in
  Ok (addOrUpdateProperty "version"
        (JStr (if hasVersion (component_id component)
               then version_of (component_id component) else newVersion))
        packageJson).

(** [found.currentPackageJson = packageJsonObject] on the first entry of
    that component; no entry is the thrown error. *)
Fixpoint set_currentPackageJson (i : BitId) (packageJsonObject : Json)
    (data : list CapsulePackageJsonData) : Result (list CapsulePackageJsonData) :=
  match data with
  | [] => Err (GenericError ("updateWithCurrentPackageJsonData unable to find " ++ toString i))
  | c :: rest =>
      if isEqual (component_id (component (capsule c))) i
      then Ok ({| capsule := capsule c;
                  currentPackageJson := Some packageJsonObject;
                  previousPackageJson := previousPackageJson c |} :: rest)
      else
        let* rest' := set_currentPackageJson i packageJsonObject rest in
        Ok (c :: rest')
  end.

Fixpoint updateWithCurrentPackageJsonData (d : Disk)
    (capsulesWithPackagesData : list CapsulePackageJsonData) (capsules : list Capsule)
    : Result (list CapsulePackageJsonData) :=
  match capsules with
  | [] => Ok capsulesWithPackagesData
  | capsule :: rest =>
      let* packageJson := getCurrentPackageJson d capsule in
      let* updated :=
        set_currentPackageJson (component_id (component capsule)) packageJson
          capsulesWithPackagesData in
      updateWithCurrentPackageJsonData d updated rest
  end.

Definition getPeersOnlyPolicy : WorkspacePolicy :=
  let workspacePolicy := getWorkspacePolicy in
  byLifecycleType peer_dep workspacePolicy.

Definition toComponentMap (capsuleList : CapsuleList) : ComponentMap :=
  map (fun capsule => (component capsule, path capsule)) capsuleList.

Definition installInCapsules (capsulesDir : string) (capsuleList : CapsuleList)
    (isolateInstallOptions : IsolateComponentsInstallOptions)
    (cachePackagesOnCapsulesRoot : bool) : M unit :=
  let cacheRootDirectory := if cachePackagesOnCapsulesRoot then Some capsulesDir else None in
  let peerOnlyPolicy := getPeersOnlyPolicy in
  let installOptions :=
    {| opt_installTeambitBit := flag (property (installTeambitBit isolateInstallOptions)) |} in
  let packageManagerInstallOptions :=
    {| pm_dedupe := property (dedupe isolateInstallOptions);
       pm_copyPeerToRuntimeOnComponents :=
         property (copyPeerToRuntimeOnComponents isolateInstallOptions);
       pm_copyPeerToRuntimeOnRoot := property (copyPeerToRuntimeOnRoot isolateInstallOptions) |} in
  call (Install capsulesDir cacheRootDirectory peerOnlyPolicy (toComponentMap capsuleList)
          installOptions packageManagerInstallOptions).

Definition getCapsulesWithModifiedPackageJson
    (capsulesWithPackagesData : list CapsulePackageJsonData) : Result (list Capsule) :=
  let* modified :=
    filter_result
      (fun capsuleWithPackageData =>
         let* packageJsonHasChanged :=
           wereDependenciesInPackageJsonChanged capsuleWithPackageData in
         Ok packageJsonHasChanged)
      capsulesWithPackagesData in
  Ok (map capsule modified).

Definition linkInCapsules (capsulesDir : string) (capsuleList : CapsuleList)
    (capsulesWithPackagesData : list CapsulePackageJsonData)
    (linkingOptions : LinkingOptions) : M unit :=
  let peerOnlyPolicy := getPeersOnlyPolicy in
  let! capsulesWithModifiedPackageJson :=
    read (fun _ => getCapsulesWithModifiedPackageJson capsulesWithPackagesData) in
  let! _ := call (Link capsulesDir linkingOptions peerOnlyPolicy (toComponentMap capsuleList)
                    (obj_set linkingOptions "legacyLink" false)) in
  let! _ := call (SymlinkOnCapsuleRoot capsuleList capsulesDir) in
  let! _ := call (SymlinkDependenciesToCapsules capsulesWithModifiedPackageJson capsuleList) in
  call (SymlinkBitBinToCapsules capsulesWithModifiedPackageJson).

Definition getComponentWriteParams (c : Component) (ids : list BitId)
    (legacyScope : option string) : ComponentWriterProps :=
  {| props_component := c;
     writeToPath := ".";
     origin := "IMPORTED";
     props_scope := legacyScope;
     override := false;
     writePackageJson := true;
     writeConfig := false;
     ignoreBitDependencies := ids;
     excludeRegistryPrefix := false;
     isolated := true |}.

(** The task [writeComponentsInCapsules] starts for one component. *)
Definition writeComponentInCapsule (allIds : list BitId) (capsuleList : CapsuleList)
    (legacyScope : option string) (c : Component) : M unit :=
  match getCapsule capsuleList (component_id c) with
  | None => retM tt
  | Some capsule =>
      let params := getComponentWriteParams c allIds legacyScope in
      let! toWrite := read (fun _ => populateComponentsFilesToWrite params) in
      modify (persistAllToCapsule capsule toWrite)
  end.

(** [clone] copies the legacy component, which is the component here. *)
Definition writeComponentsInCapsules (components : list Component)
    (capsuleList : CapsuleList) (legacyScope : option string) : M unit :=
  let legacyComponents := components in
  let allIds := map component_id legacyComponents in
  forEach (writeComponentInCapsule allIds capsuleList legacyScope) components.

(** The body of the last [forEach] of [createCapsules].  With no current
    manifest [JSON.stringify] gives [undefined], which [writeFileSync]
    refuses. *)
Definition rewritePackageJson (capsuleWithPackageData : CapsulePackageJsonData) : M unit :=
  match currentPackageJson capsuleWithPackageData with
  | Some packageJson =>
      modify (writeFileSync (path (capsule capsuleWithPackageData), PACKAGE_JSON)
                (JSON_stringify packageJson))
  | None => fun _ => Err TypeError
  end.

(** The capsules are created with [opts]; the test for existing manifests
    only reads, and is made here whether or not [skipIfExists] is set. *)
Definition createCapsules (components : list Component) (opts : IsolateComponentsOptions)
    (legacyScope : option string) : M CapsuleList :=
  let capsulesDir := getCapsulesRootDir (baseDir opts) in
  let! _ := if emptyRootDir opts
            then modify (fun d => Ok (emptyDir capsulesDir d))
            else retM tt in
  let! capsules := createCapsulesFromComponents components capsulesDir opts in
  let capsuleList := fromArray capsules in
  if getExistingAsIs opts then retM capsuleList
  else
    let! existingCapsules :=
      read (fun d =>
              Ok (fromArray
                    (List.filter (fun capsule => existsSync d (path capsule, "package.json"))
                       capsuleList))) in
    if skipIfExists opts && (length existingCapsules =? length capsuleList)%nat
    then retM existingCapsules
    else
      let! capsulesWithPackagesData :=
        read (fun d => getCapsulesPreviousPackageJson d capsules) in
      let! _ := writeComponentsInCapsules components capsuleList legacyScope in
      let! capsulesWithPackagesData :=
        read (fun d => updateWithCurrentPackageJsonData d capsulesWithPackagesData capsules) in
      let installOptions :=
        assign_install_options DEFAULT_ISOLATE_INSTALL_OPTIONS
          (default no_install_options (installOptions opts)) in
      let! _ :=
        if flag (property (installPackages installOptions))
        then
          let! _ := installInCapsules capsulesDir capsuleList installOptions
                      (default false (cachePackagesOnCapsulesRoot opts)) in
          linkInCapsules capsulesDir capsuleList capsulesWithPackagesData
            (default [] (linkingOptions opts))
        else retM tt in
      let! _ := forEach rewritePackageJson capsulesWithPackagesData in
      retM capsuleList.

(** [opts.baseDir || host.path] *)
Definition baseDir_or_host (opts : IsolateComponentsOptions) : string :=
  match baseDir opts with
  | Some b => if String.eqb b EmptyString then host_path else b
  | None => host_path
  end.

Definition with_baseDir (opts : IsolateComponentsOptions) (b : string)
    : IsolateComponentsOptions :=
  {| name := name opts;
     baseDir := Some b;
     alwaysNew := alwaysNew opts;
     installOptions := installOptions opts;
     linkingOptions := linkingOptions opts;
     emptyRootDir := emptyRootDir opts;
     skipIfExists := skipIfExists opts;
     getExistingAsIs := getExistingAsIs opts;
     cachePackagesOnCapsulesRoot := cachePackagesOnCapsulesRoot opts;
     seedersOnly := seedersOnly opts |}.

(** The logging of [isolateComponents] is left out. *)
Definition isolateComponents (seeders : list BitId) (opts : IsolateComponentsOptions)
    (legacyScope : option string) : M Network :=
  let! componentsToIsolate :=
    read (fun _ => if seedersOnly opts then host_getMany seeders else createGraph seeders) in
  let opts := with_baseDir opts (baseDir_or_host opts) in
  let! capsuleList := createCapsules componentsToIsolate opts legacyScope in
  retM {| network_capsules := capsuleList;
          network_seeders := seeders;
          network_capsulesRootDir := getCapsulesRootDir (baseDir opts) |}.

(** [IsolatorMain.list] *)
Definition IsolatorMain_list (workspacePath : string) : Result ListResults :=
  try_catch
    (let workspaceCapsuleFolder := getCapsulesRootDir (Some workspacePath) in
     let* capsules := fs_readdir workspaceCapsuleFolder in
     let capsuleFullPaths := map (fun c => path_join workspaceCapsuleFolder c) capsules in
     Ok {| workspace := workspacePath; capsules := capsuleFullPaths |})
    (fun e =>
       if bool_decide (error_code e = Some "ENOENT")
       then Ok {| workspace := workspacePath; capsules := [] |}
       else Err e).

End Isolator.

(** ** The installed-marker of an isolated environment ([environment.ts]) *)

Definition ENV_IS_INSTALLED_FILENAME : string := ".bit_env_has_installed".

(** Modelled from the spec: [outputFile] of [../utils] is missing; the
    marker is a "sentinel-file", so the helper leaves a file with the given
    content at [filePath], creating the directory when it is missing. *)
Definition outputFile (filePath : string * string) (content : string) (d : Disk) : Result Disk :=
  writeFileSync filePath content (ensureDir (fst filePath) d).

Definition markEnvironmentAsInstalled (dir : string) (d : Disk) : Result Disk :=
  let filePath := (dir, ENV_IS_INSTALLED_FILENAME) in
  outputFile filePath EmptyString d.

Definition isEnvironmentInstalled (dir : string) (d : Disk) : bool :=
  let filePath := (dir, ENV_IS_INSTALLED_FILENAME) in
  existsSync d filePath.

(** ** A concrete platform, for running the embedding on examples *)

Definition dquote : string :=
  String (Ascii.Ascii false true false false false true false false) EmptyString.

(** [JSON.stringify] without indentation, on the values the examples use. *)
Fixpoint stringify (j : Json) : string :=
  match j with
  | JNull => "null"
  | JBool true => "true"
  | JBool false => "false"
  | JNum n => pretty n
  | JStr s => dquote ++ s ++ dquote
  | JArr xs =>
      "[" ++
      (fix items (xs : list Json) : string :=
         match xs with
         | [] => EmptyString
         | x :: rest =>
             stringify x ++ match rest with [] => EmptyString | _ => "," ++ items rest end
         end) xs ++ "]"
  | JObj ps =>
      "{" ++
      (fix props (ps : list (string * Json)) : string :=
         match ps with
         | [] => EmptyString
         | (k, v) :: rest =>
             dquote ++ k ++ dquote ++ ":" ++ stringify v ++
             match rest with [] => EmptyString | _ => "," ++ props rest end
         end) ps ++ "}"
  end.

(** [JSON.parse] on the documents of an example: a text parses when it is
    the serialisation of one of [docs]. *)
Definition parse_known (docs : list Json) (text : string) : Result Json :=
  match List.find (fun j => String.eqb (stringify j) text) docs with
  | Some j => Ok j
  | None => Err SyntaxError
  end.

(** The listing of the host file system in the examples: one isolation root
    with two capsules, one directory that may not be read, nothing else. *)
Definition example_readdir (dir : string) : Result (list string) :=
  if String.eqb dir "/cache/capsules/hash-of-/ws" then Ok ["a@1.0.0"; "b@1.0.0"]
  else if String.eqb dir "/cache/capsules/hash-of-/locked" then Err (SystemError "EACCES")
  else Err (SystemError "ENOENT").

Definition example_platform (docs : list Json) : Platform := {|
  CACHE_ROOT := "/cache";
  PACKAGE_JSON := "package.json";
  DEPENDENCIES_FIELDS := ["dependencies"; "devDependencies"; "peerDependencies"];
  hash := fun baseDir => "hash-of-" ++ default "undefined" baseDir;
  JSON_parse := parse_known docs;
  JSON_stringify := stringify;
  fs_readdir := example_readdir;
|}.

Definition id_a : BitId := {| id_name := "a"; id_version := Some "1.0.0" |}.
Definition id_b : BitId := {| id_name := "b"; id_version := Some "1.0.0" |}.

(** Component [a] depends on component [b]. *)
Definition comp_a : Component := {|
  component_id := id_a;
  dependencies := [id_b];
  devDependencies := [];
  extensionsBitIds := [];
|}.

Definition comp_b : Component := {|
  component_id := id_b;
  dependencies := [];
  devDependencies := [];
  extensionsBitIds := [];
|}.

(** The manifest the component writer produces for a component: its bit
    dependencies are left out ([ignoreBitDependencies]). *)
Definition written_manifest (c : Component) : Json :=
  JObj [("name", JStr ("@bit/" ++ id_name (component_id c)));
        ("version", JStr (default "latest" (id_version (component_id c))))].

(** Collaborators for the examples: the host knows the components of
    [known]; the graph of some seeders is [graph]; the installer, the linker
    and the symlink helpers leave the modelled files alone. *)
Definition example_collaborators (known graph : list Component) : Collaborators := {|
  host_path := "/ws";
  host_getMany := fun ids =>
    Promise_all
      (fun i =>
         match List.find (fun c => isEqual (component_id c) i) known with
         | Some c => Ok c
         | None => Err (GenericError "NotFound")
         end) ids;
  host_hasId := fun i => Ok (existsb (fun c => isEqual (component_id c) i) known);
  Graph := list Component;
  getGraph := fun _ => Ok graph;
  successorsSubgraph := fun g _ => g;
  getWorkspacePolicy :=
    [{| dependencyId := "react"; policy_version := "^16.0.0"; lifecycleType := peer_dep |};
     {| dependencyId := "lodash"; policy_version := "^4.0.0"; lifecycleType := runtime_dep |}];
  run_call := fun _ d => Ok d;
  populateComponentsFilesToWrite := fun props =>
    Ok [("index.js", "module.exports = {}");
        ("package.json", stringify (written_manifest (props_component props)))];
  componentIdToPackageName := fun _ depId => "@bit/" ++ id_name depId;
  capsuleDirName := fun c _ => toString (component_id c);
  randomSuffix := fun n => "_" ++ pretty n;
  rootLinks := fun capsuleList capsulesDir =>
    map (fun capsule =>
           {| link_target := path capsule;
              link_path := capsulesDir ++ "/node_modules/@bit/"
                           ++ id_name (component_id (component capsule)) |})
      capsuleList;
  dependencyLinks := fun capsule capsuleList =>
    omap (fun depId =>
            match List.find (fun c => isEqual (component_id (component c)) depId)
                    capsuleList with
            | Some dep =>
                Some {| link_target := path dep;
                        link_path := path capsule ++ "/node_modules/@bit/" ++ id_name depId |}
            | None => None
            end)
      (dependencies (component capsule));
  bitBinLinks := fun capsule =>
    [{| link_target := "/usr/lib/bit-bin";
        link_path := path capsule ++ "/node_modules/bit-bin" |}];
|}.

Definition example_options : IsolateComponentsOptions := {|
  name := None;
  baseDir := None;
  alwaysNew := false;
  installOptions := None;
  linkingOptions := None;
  emptyRootDir := false;
  skipIfExists := false;
  getExistingAsIs := false;
  cachePackagesOnCapsulesRoot := None;
  seedersOnly := false;
|}.

Definition empty_disk : Disk := {| files := ∅; dirs := ∅; links := ∅ |}.
Definition empty_world : World := {| disk := empty_disk; calls := []; drawn := 0 |}.


(** The isolation root of the workspace [/ws] and its two capsules. *)
Definition root_ws : string := "/cache/capsules/hash-of-/ws".

Definition capsule_a : Capsule := {| component := comp_a; path := root_ws ++ "/a@1.0.0" |}.
Definition capsule_b : Capsule := {| component := comp_b; path := root_ws ++ "/b@1.0.0" |}.

(** The manifest of [a] at the end of a run: the written one with the bit
    dependencies added. *)
Definition final_manifest_a : Json :=
  JObj [("name", JStr "@bit/a");
        ("version", JStr "1.0.0");
        ("dependencies", JObj [("@bit/b", JStr "1.0.0")]);
        ("devDependencies", JObj [])].

Definition example_docs : list Json :=
  [written_manifest comp_a; written_manifest comp_b; final_manifest_a].

Definition platform_ws : Platform := example_platform example_docs.

(** The host knows [a] and [b], and [a]'s graph is [a; b]. *)
Definition collaborators_ab : Collaborators :=
  example_collaborators [comp_a; comp_b] [comp_a; comp_b].

(** The host knows [a] only, and [a]'s graph is [a; b]. *)
Definition collaborators_a : Collaborators :=
  example_collaborators [comp_a] [comp_a; comp_b].

Definition options_ws : IsolateComponentsOptions := {|
  name := None;
  baseDir := Some "/ws";
  alwaysNew := false;
  installOptions := None;
  linkingOptions := None;
  emptyRootDir := false;
  skipIfExists := false;
  getExistingAsIs := false;
  cachePackagesOnCapsulesRoot := None;
  seedersOnly := false;
|}.

Definition options_asis : IsolateComponentsOptions := {|
  name := None;
  baseDir := Some "/ws";
  alwaysNew := false;
  installOptions := None;
  linkingOptions := None;
  emptyRootDir := false;
  skipIfExists := false;
  getExistingAsIs := true;
  cachePackagesOnCapsulesRoot := None;
  seedersOnly := false;
|}.

Definition options_asis_emptyRootDir : IsolateComponentsOptions := {|
  name := None;
  baseDir := Some "/ws";
  alwaysNew := false;
  installOptions := None;
  linkingOptions := None;
  emptyRootDir := true;
  skipIfExists := false;
  getExistingAsIs := true;
  cachePackagesOnCapsulesRoot := None;
  seedersOnly := false;
|}.

(** The options of the workspace [/ws] with [skipIfExists], with
    [emptyRootDir], with [installPackages] given as [undefined], and for the
    seeders only. *)
Definition options_skipIfExists : IsolateComponentsOptions := {|
  name := None;
  baseDir := Some "/ws";
  alwaysNew := false;
  installOptions := None;
  linkingOptions := None;
  emptyRootDir := false;
  skipIfExists := true;
  getExistingAsIs := false;
  cachePackagesOnCapsulesRoot := None;
  seedersOnly := false;
|}.

Definition options_emptyRootDir : IsolateComponentsOptions := {|
  name := None;
  baseDir := Some "/ws";
  alwaysNew := false;
  installOptions := None;
  linkingOptions := None;
  emptyRootDir := true;
  skipIfExists := false;
  getExistingAsIs := false;
  cachePackagesOnCapsulesRoot := None;
  seedersOnly := false;
|}.

Definition options_no_install : IsolateComponentsOptions := {|
  name := None;
  baseDir := Some "/ws";
  alwaysNew := false;
  installOptions :=
    Some {| installPackages := Some None;
            dedupe := None;
            copyPeerToRuntimeOnComponents := None;
            copyPeerToRuntimeOnRoot := None;
            installTeambitBit := None |};
  linkingOptions := None;
  emptyRootDir := false;
  skipIfExists := false;
  getExistingAsIs := false;
  cachePackagesOnCapsulesRoot := None;
  seedersOnly := false;
|}.

Definition options_seedersOnly : IsolateComponentsOptions := {|
  name := None;
  baseDir := Some "/ws";
  alwaysNew := false;
  installOptions := None;
  linkingOptions := None;
  emptyRootDir := false;
  skipIfExists := false;
  getExistingAsIs := false;
  cachePackagesOnCapsulesRoot := None;
  seedersOnly := true;
|}.

(** The disk a previous run for [a] has left: the capsule of [a] with its
    final manifest. *)
Definition disk_after_a_run : Disk := {|
  files := {[ (path capsule_a, "package.json") := stringify final_manifest_a ]};
  dirs := {[ path capsule_a ]};
  links := ∅;
|}.

Definition world_after_a_run : World :=
  {| disk := disk_after_a_run; calls := []; drawn := 0 |}.

(** The snapshot entry of [a] and its entry once the current manifest is
    known, in a second run for [a]. *)
Definition snapshot_entry_a : CapsulePackageJsonData := {|
  capsule := capsule_a;
  currentPackageJson := None;
  previousPackageJson := final_manifest_a;
|}.

Definition entry_a : CapsulePackageJsonData := {|
  capsule := capsule_a;
  currentPackageJson := Some final_manifest_a;
  previousPackageJson := final_manifest_a;
|}.

(** The manifest of [a] after [b] has been tagged with a new version, and
    the entry of [a] then: the dependency on [b] has changed. *)
Definition bumped_manifest_a : Json :=
  JObj [("name", JStr "@bit/a");
        ("version", JStr "1.0.0");
        ("dependencies", JObj [("@bit/b", JStr "2.0.0")]);
        ("devDependencies", JObj [])].

Definition entry_a_bumped : CapsulePackageJsonData := {|
  capsule := capsule_a;
  currentPackageJson := Some bumped_manifest_a;
  previousPackageJson := final_manifest_a;
|}.

(** A new capsule of [b]: no previous manifest. *)
Definition entry_b : CapsulePackageJsonData := {|
  capsule := capsule_b;
  currentPackageJson := Some (written_manifest comp_b);
  previousPackageJson := JNull;
|}.

Definition marked_disk : Disk := {|
  files := {[ ("/env", ".bit_env_has_installed") := EmptyString ]};
  dirs := {[ "/env" ]};
  links := ∅;
|}.

(** The value of a dependency section of a manifest, [undefined] when the
    manifest has no such section. *)
Definition manifest_field (manifest : Json) (field : string) : JsVal :=
  assoc field (props_of (Some manifest)).

(** What a step returns and the state it leaves, when it is run on an
    example: nothing, and the state [s0], when it throws. *)
Definition returned {A S} (r : Result (A * S)) : option A :=
  match r with
  | Ok (a, _) => Some a
  | Err _ => None
  end.

Definition state_after {A S} (s0 : S) (r : Result (A * S)) : S :=
  match r with
  | Ok (_, s) => s
  | Err _ => s0
  end.


Definition succeeds {A} (r : Result A) : bool :=
  match r with
  | Ok _ => true
  | Err _ => false
  end.

(** ** Notions used to state the properties *)

Section Notions.
Context `{Platform} `{Collaborators}.

(** What the snapshot keeps of one capsule's manifest file. *)
Definition snapshot_of (d : Disk) (c : Capsule) : Json :=
  match readFile d (path c, "package.json") with
  | Ok raw =>
      match JSON_parse raw with
      | Ok manifest => manifest
      | Err _ => JNull
      end
  | Err _ => JNull
  end.

(** The name of the directory of a capsule: the stable name, with the
    [n]-th random suffix when [alwaysNew] asks for one. *)
Definition capsuleDir (c : Component) (opts : IsolateComponentsOptions) (n : nat) : string :=
  if alwaysNew opts then capsuleDirName c opts ++ randomSuffix n else capsuleDirName c opts.

(** The capsules of some components in an isolation root, when [n] random
    suffixes have been drawn before. *)
Fixpoint capsules_of (components : list Component) (root : string)
    (opts : IsolateComponentsOptions) (n : nat) : list Capsule :=
  match components with
  | [] => []
  | c :: rest =>
      {| component := c; path := path_join root (capsuleDir c opts n) |}
      :: capsules_of rest root opts (if alwaysNew opts then S n else n)
  end.

(** The number of random suffixes drawn once the capsules are there. *)
Definition drawn_after (opts : IsolateComponentsOptions) (components : list Component)
    (n : nat) : nat :=
  if alwaysNew opts then length components + n else n.

Definition ensureDirs (capsules : list Capsule) (d : Disk) : Disk :=
  fold_left (fun acc c => ensureDir (path c) acc) capsules d.

(** The world in which the capsules are created: the isolation root has
    been emptied when [emptyRootDir] asks for it. *)
Definition after_emptyRootDir (opts : IsolateComponentsOptions) (w : World) : World :=
  if emptyRootDir opts
  then {| disk := emptyDir (getCapsulesRootDir (baseDir opts)) (disk w);
          calls := calls w;
          drawn := drawn w |}
  else w.

(** The world after the capsules of a run have been created. *)
Definition world_with_capsules (components : list Component)
    (opts : IsolateComponentsOptions) (w : World) : World :=
  {| disk := ensureDirs
               (capsules_of components (getCapsulesRootDir (baseDir opts)) opts (drawn w))
               (disk (after_emptyRootDir opts w));
     calls := calls w;
     drawn := drawn_after opts components (drawn w) |}.

(** The phases of [createCapsules] after the capsules exist, when nothing
    cuts the run short. *)
Definition full_run (components : list Component) (opts : IsolateComponentsOptions)
    (legacyScope : option string) (capsuleList : CapsuleList) (w1 w' : World) : Prop :=
  let capsulesDir := getCapsulesRootDir (baseDir opts) in
  let installOptions :=
    assign_install_options DEFAULT_ISOLATE_INSTALL_OPTIONS
      (default no_install_options (installOptions opts)) in
  ∃ data0 w2 data w3,
    getCapsulesPreviousPackageJson (disk w1) capsuleList = Ok data0 ∧
    writeComponentsInCapsules components capsuleList legacyScope w1 = Ok (tt, w2) ∧
    updateWithCurrentPackageJsonData (disk w2) data0 capsuleList = Ok data ∧
    (if flag (property (installPackages installOptions))
     then ∃ wi,
         installInCapsules capsulesDir capsuleList installOptions
           (default false (cachePackagesOnCapsulesRoot opts)) w2 = Ok (tt, wi) ∧
         linkInCapsules capsulesDir capsuleList data
           (default [] (linkingOptions opts)) wi = Ok (tt, w3)
     else w3 = w2) ∧
    forEach rewritePackageJson data w3 = Ok (tt, w').

(** The host recognises the component. *)
Definition recognized (c : Component) : bool :=
  match host_hasId (component_id c) with
  | Ok true => true
  | _ => false
  end.

(** Writes to the disk, in the order they are made. *)
Definition apply_writes (writes : list ((string * string) * string))
    (m : gmap (string * string) string) : gmap (string * string) string :=
  fold_left (fun acc kv => <[fst kv := snd kv]> acc) writes m.

(** What the task of one component writes: nothing without a capsule. *)
Definition component_writes (allIds : list BitId) (capsuleList : CapsuleList)
    (legacyScope : option string) (c : Component) : list ((string * string) * string) :=
  match getCapsule capsuleList (component_id c) with
  | None => []
  | Some capsule =>
      match populateComponentsFilesToWrite (getComponentWriteParams c allIds legacyScope) with
      | Ok toWrite => map (fun f => ((path capsule, fst f), snd f)) toWrite
      | Err _ => []
      end
  end.

(** The component identity of a capsule. *)
Definition capsule_id (c : Capsule) : BitId := component_id (component c).

(** The entry once the current manifest of the component [i] is known: the
    entries of other components stay as they are. *)
Definition with_current (i : BitId) (packageJsonObject : Json)
    (entry : CapsulePackageJsonData) : CapsulePackageJsonData :=
  if isEqual (capsule_id (capsule entry)) i
  then {| capsule := capsule entry;
          currentPackageJson := Some packageJsonObject;
          previousPackageJson := previousPackageJson entry |}
  else entry.

(** The current manifest of a capsule on a disk, [null] when it cannot be
    computed. *)
Definition current_manifest (d : Disk) (c : Capsule) : Json :=
  match getCurrentPackageJson d c with
  | Ok packageJson => packageJson
  | Err _ => JNull
  end.

(** The diff of the entry answers [true]. *)
Definition is_changed (entry : CapsulePackageJsonData) : bool :=
  match wereDependenciesInPackageJsonChanged entry with
  | Ok true => true
  | _ => false
  end.

End Notions.

(** ** More of the isolator *)

Section MoreIsolator.
Context `{Platform} `{Collaborators}.

(** The [getBitDependencies] arrow of [getCurrentPackageJson], for the
    component of the capsule. *)
Definition getBitDependencies (c : Component) (dependencies : list BitId)
    : list (string * Json) :=
  fold_left
    (fun acc depId =>
       let packageDependency :=
         if hasVersion depId then version_of depId else "0.0.1-new" in
       let packageName := componentIdToPackageName c depId in
       obj_set acc packageName (JStr packageDependency))
    dependencies [].

(** The version a bit dependency gets in a manifest. *)
Definition packageDependency_of (depId : BitId) : Json :=
  JStr (if hasVersion depId then version_of depId else "0.0.1-new").

(** The install options of a run, after the defaults. *)
Definition merged_install_options (opts : IsolateComponentsOptions)
    : IsolateComponentsInstallOptions :=
  assign_install_options DEFAULT_ISOLATE_INSTALL_OPTIONS
    (default no_install_options (installOptions opts)).

(** The call to the installer that [installInCapsules] makes. *)
Definition install_call (capsulesDir : string) (capsuleList : CapsuleList)
    (opts : IsolateComponentsOptions) : Call :=
  let io := merged_install_options opts in
  Install capsulesDir
    (if default false (cachePackagesOnCapsulesRoot opts) then Some capsulesDir else None)
    getPeersOnlyPolicy (toComponentMap capsuleList)
    {| opt_installTeambitBit := flag (property (installTeambitBit io)) |}
    {| pm_dedupe := property (dedupe io);
       pm_copyPeerToRuntimeOnComponents := property (copyPeerToRuntimeOnComponents io);
       pm_copyPeerToRuntimeOnRoot := property (copyPeerToRuntimeOnRoot io) |}.

(** The four calls that [linkInCapsules] makes. *)
Definition link_calls (capsulesDir : string) (capsuleList : CapsuleList)
    (linkingOptions : LinkingOptions) (modified : list Capsule) : list Call :=
  [Link capsulesDir linkingOptions getPeersOnlyPolicy (toComponentMap capsuleList)
     (obj_set linkingOptions "legacyLink" false);
   SymlinkOnCapsuleRoot capsuleList capsulesDir;
   SymlinkDependenciesToCapsules modified capsuleList;
   SymlinkBitBinToCapsules modified].

End MoreIsolator.

(** ** More of the file system *)

(** The full path of a file of the disk. *)
Definition full_path (file : string * string) : string := path_join (fst file) (snd file).

(** [fs.exists(p)] on a full path: something sits at [p], which is the case
    as soon as a directory, a file or a link of the disk is [p] or lies below
    it. *)
Definition pathExists (p : string) (d : Disk) : bool :=
  bool_decide (filter (fun q => within p q = true) (dirs d) ≠ ∅) ||
  bool_decide (filter (fun kv => within p (full_path (fst kv)) = true) (files d) ≠ ∅) ||
  bool_decide (filter (fun kv => within p (fst kv) = true) (links d) ≠ ∅).

(** [fs.remove(p)]: the file or the directory at [p] goes, with all that is
    below it; nothing there is no error. *)
Definition removePath (p : string) (d : Disk) : Disk :=
  {| files := filter (fun kv => full_path (fst kv) ≠ p ∧ below p (full_path (fst kv)) = false)
                (files d);
     dirs := filter (fun q => within p q = false) (dirs d);
     links := filter (fun kv => within p (fst kv) = false) (links d) |}.

(** ** The isolated environment ([environment.ts]) *)

(** A value that may be [undefined] or [null]. *)
Inductive Optional (A : Type) :=
  | Undefined
  | Null
  | Value (a : A).
Arguments Undefined {A}.
Arguments Null {A}.
Arguments Value {A} a.

(** [!!b] *)
Definition truthy_flag (b : Optional bool) : bool :=
  match b with
  | Value b => b
  | _ => false
  end.

(** [s || fallback] *)
Definition string_or (s : Optional string) (fallback : string) : string :=
  match s with
  | Value s => if String.eqb s EmptyString then fallback else s
  | _ => fallback
  end.

Module Env.

(** [IsolateOptions], with the two options that [isolateComponent] reads
    though the type does not declare them. *)
Record IsolateOptions := {
  writeToPath : Optional string;
  writeBitDependencies : Optional bool;
  npmLinks : Optional bool;
  saveDependenciesAsComponents : Optional bool;
  installPackages : Optional bool;
  installPeerDependencies : Optional bool;
  noPackageJson : Optional bool;
  override : Optional bool;
  excludeRegistryPrefix : Optional bool;
  dist : Optional bool;
  conf : Optional bool;
  verbose : bool;
  silentClientResult : Optional bool;
  createNpmLinkFiles : Optional bool;
  silentPackageManagerResult : Optional bool;
}.

(** The collaborators of an environment: the constants, the uuid source,
    the consumer and the writer of many components. *)
Class Collaborators := {
  ISOLATED_ENV_ROOT : string;
  Consumer : Type;
  ComponentWithDependencies : Type;
  createIsolatedWithExistingScope : string → string → Disk → Result (Consumer * Disk);
  importComponents :
    Consumer → list BitId → bool → Optional bool → Disk →
    Result (list ComponentWithDependencies * Disk);
  BitId_parse : string → bool → Result BitId;
}.

Section Environment.
Context `{Collaborators}.

(** The options [isolateComponent] gives to [ManyComponentsWriter]. *)
Record ManyComponentsWriterProps := {
  props_consumer : Consumer;
  props_componentsWithDependencies : list ComponentWithDependencies;
  props_writeToPath : string;
  props_override : Optional bool;
  props_writePackageJson : bool;
  props_writeConfig : Optional bool;
  props_writeBitDependencies : Optional bool;
  props_createNpmLinkFiles : Optional bool;
  props_writeDists : Optional bool;
  props_installNpmPackages : bool;
  props_installPeerDependencies : bool;
  props_addToRootPackageJson : bool;
  props_verbose : bool;
  props_excludeRegistryPrefix : bool;
  props_silentPackageManagerResult : Optional bool;
}.

(** An environment: its path, its scope (by the path of the scope) and,
    after [create], its consumer. *)
Record Environment := {
  path : string;
  scope : string;
  consumer : option Consumer;
}.

(** The constructor; [uuid] is what [v4()] gives. *)
Definition new_Environment (scope : string) (dir : Optional string) (uuid : string)
    : Environment :=
  {| scope := scope;
     path := string_or dir (path_join (path_join scope ISOLATED_ENV_ROOT) uuid);
     consumer := None |}.

(** Modelled from the spec: [mkdirp] of [../utils] is missing; it ensures
    that the directory exists, as the capsule creation does ("create
    recursively if missing"). *)
Definition mkdirp (dir : string) (d : Disk) : Result Disk := Ok (ensureDir dir d).

Definition create (env : Environment) (d : Disk) : Result (Environment * Disk) :=
  let* d1 := mkdirp (path env) d in
  let* '(c, d2) := createIsolatedWithExistingScope (path env) (scope env) d1 in
  Ok ({| path := path env; scope := scope env; consumer := Some c |}, d2).

(** [writeAll] is the effect on the disk of [ManyComponentsWriter.writeAll]
    for the given options. *)
Definition isolateComponent
    (writeAll : ManyComponentsWriterProps → Disk → Result Disk)
    (env : Environment) (bitId : BitId + string) (opts : IsolateOptions) (d : Disk)
    : Result (option ComponentWithDependencies * Disk) :=
  let* bitId :=
    match bitId with
    | inr text => BitId_parse text true
    | inl i => Ok i
    end in
  let saveDependenciesAsComponents :=
    match saveDependenciesAsComponents opts with
    | Undefined => Value true
    | given => given
    end in
  let* this_consumer :=
    match consumer env with
    | Some c => Ok c
    | None => Err TypeError
    end in
  let* '(componentsWithDependencies, d1) :=
    importComponents this_consumer [bitId] false saveDependenciesAsComponents d in
  let componentWithDependencies := head componentsWithDependencies in
  let writeToPath := string_or (writeToPath opts) (path env) in
  let concreteOpts :=
    {| props_consumer := this_consumer;
       props_componentsWithDependencies := componentsWithDependencies;
       props_writeToPath := writeToPath;
       props_override := override opts;
       props_writePackageJson := negb (truthy_flag (noPackageJson opts));
       props_writeConfig := conf opts;
       props_writeBitDependencies := writeBitDependencies opts;
       props_createNpmLinkFiles := createNpmLinkFiles opts;
       props_writeDists := dist opts;
       props_installNpmPackages := truthy_flag (installPackages opts);
       props_installPeerDependencies := truthy_flag (installPackages opts);
       props_addToRootPackageJson := false;
       props_verbose := verbose opts;
       props_excludeRegistryPrefix := truthy_flag (excludeRegistryPrefix opts);
       props_silentPackageManagerResult := silentPackageManagerResult opts |} in
  let* d2 := writeAll concreteOpts d1 in
  let* d3 := markEnvironmentAsInstalled writeToPath d2 in
  Ok (componentWithDependencies, d3).

Definition getPath (env : Environment) : string := path env.

(** [destroy] resolves to nothing. *)
Definition destroy (env : Environment) (d : Disk) : Result (option bool * Disk) :=
  Ok (None, removePath (path env) d).

(** [destroyIfExist] resolves to [false] when nothing is there. *)
Definition destroyIfExist (env : Environment) (d : Disk) : Result (option bool * Disk) :=
  let isExist := pathExists (path env) d in
  if isExist then destroy env d else Ok (Some false, d).

End Environment.

End Env.

(** An environment to run the embedding on: the consumer is the path it
    was created at, importing gives the components asked for, and the
    writer leaves one file per component in the directory it writes to. *)
Definition example_environment : Env.Collaborators := {|
  Env.ISOLATED_ENV_ROOT := "components/.isolated";
  Env.Consumer := string;
  Env.ComponentWithDependencies := BitId;
  Env.createIsolatedWithExistingScope := fun dir _ d => Ok (dir, d);
  Env.importComponents := fun _ ids _ _ d => Ok (ids, d);
  Env.BitId_parse := fun text _ => Ok {| id_name := text; id_version := None |};
|}.

Definition example_writeAll
    (props : @Env.ManyComponentsWriterProps example_environment) (d : Disk) : Result Disk :=
  fold_left
    (fun acc i =>
       let* d := acc in
       writeFileSync (Env.props_writeToPath props, id_name i) "component" d)
    (Env.props_componentsWithDependencies props) (Ok d).

Definition example_isolate_options : Env.IsolateOptions := {|
  Env.writeToPath := Null;
  Env.writeBitDependencies := Undefined;
  Env.npmLinks := Undefined;
  Env.saveDependenciesAsComponents := Undefined;
  Env.installPackages := Value true;
  Env.installPeerDependencies := Value false;
  Env.noPackageJson := Undefined;
  Env.override := Undefined;
  Env.excludeRegistryPrefix := Undefined;
  Env.dist := Undefined;
  Env.conf := Undefined;
  Env.verbose := false;
  Env.silentClientResult := Undefined;
  Env.createNpmLinkFiles := Undefined;
  Env.silentPackageManagerResult := Undefined;
|}.

Definition example_created_environment : @Env.Environment example_environment :=
  {| Env.path := "/env";
     Env.scope := "/scope";
     Env.consumer := Some ("/env" : @Env.Consumer example_environment) |}.

(** ** The workspace provider ([workspace.provider.ts]) *)

(** What the provider works with: the consumer that may be there, the
    workspace built on it and the loading of the workspace extensions. *)
Class WorkspaceCollaborators := {
  WsConsumer : Type;
  Workspace : Type;
  WorkspaceDeps : Type;
  loadConsumerIfExist : Result (option WsConsumer);
  new_Workspace : WsConsumer → WorkspaceDeps → Workspace;
  loadWorkspaceExtensions : Workspace → Result unit;
}.

(** The hooks registered on the loading of component configurations, by the
    name given at the registration and the workspace they load extensions
    for. *)
Definition Registry `{WorkspaceCollaborators} : Type := list (string * Workspace).

(** A step of the provider: it may throw, and what it has registered stays
    registered when it throws. *)
Definition ProviderStep `{WorkspaceCollaborators} (A : Type) : Type :=
  Registry → Result A * Registry.

Definition retP `{WorkspaceCollaborators} {A} (a : A) : ProviderStep A := fun r => (Ok a, r).

Definition bindP `{WorkspaceCollaborators} {A B} (m : ProviderStep A)
    (k : A → ProviderStep B) : ProviderStep B :=
  fun r =>
    match m r with
    | (Ok a, r') => k a r'
    | (Err e, r') => (Err e, r')
    end.

Definition liftP `{WorkspaceCollaborators} {A} (m : Result A) : ProviderStep A := fun r => (m, r).

Definition try_catchP `{WorkspaceCollaborators} {A} (body : ProviderStep A)
    (handler : JsError → ProviderStep A) : ProviderStep A :=
  fun r =>
    match body r with
    | (Ok a, r') => (Ok a, r')
    | (Err e, r') => handler e r'
    end.

(** [ComponentConfig.registerOnComponentConfigLoading(name, hook)], the hook
    being the loading of the extensions of the workspace. *)
Definition registerOnComponentConfigLoading `{WorkspaceCollaborators}
    (hookName : string) (workspace : Workspace) : ProviderStep unit :=
  fun r => (Ok tt, (r ++ [(hookName, workspace)])%list).

(** [deps] stands for the configuration, the dependencies and the harmony
    instance that the provider hands to the workspace. *)
Definition provideWorkspace `{WorkspaceCollaborators} (deps : WorkspaceDeps)
    : ProviderStep (option Workspace) :=
  try_catchP
    (bindP (liftP loadConsumerIfExist) (fun c =>
       match c with
       | Some c =>
           let workspace := new_Workspace c deps in
           bindP (registerOnComponentConfigLoading "component-service" workspace) (fun _ =>
           bindP (liftP (loadWorkspaceExtensions workspace)) (fun _ =>
           retP (Some workspace)))
       | None => retP None
       end))
    (fun _ => retP None).

(** * Properties *)

(** ** Computations that may throw *)

Lemma bind_Ok {A B} (m : Result A) (k : A → Result B) (b : B) :
  bind m k = Ok b → ∃ a, m = Ok a ∧ k a = Ok b.
Proof. destruct m as [a|e]; simpl; [eauto | discriminate]. Qed.

Lemma bindM_Ok {A B} (m : M A) (k : A → M B) (w w' : World) (b : B) :
  bindM m k w = Ok (b, w') → ∃ a w1, m w = Ok (a, w1) ∧ k a w1 = Ok (b, w').
Proof.
  unfold bindM. destruct (m w) as [[a w1]|e]; [eauto | discriminate].
Qed.

Lemma returned_Some {A S} (r : Result (A * S)) (a : A) (s0 : S) :
  returned r = Some a → r = Ok (a, state_after s0 r).
Proof. destruct r as [[a' s]|e]; simpl; [by intros [= ->] | discriminate]. Qed.

Lemma succeeds_returned {A S} (r : Result (A * S)) (s0 : S) :
  succeeds r = true → ∃ a, r = Ok (a, state_after s0 r).
Proof. destruct r as [[a s]|e]; simpl; [eauto | discriminate]. Qed.


Lemma read_Ok {A} (f : Disk → Result A) (w w' : World) (a : A) :
  read f w = Ok (a, w') → f (disk w) = Ok a ∧ w' = w.
Proof.
  unfold read. destruct (f (disk w)); [|discriminate].
  intros [= -> ->]. done.
Qed.

Lemma modify_Ok (f : Disk → Result Disk) (w w' : World) (u : unit) :
  modify f w = Ok (u, w') →
  ∃ d, f (disk w) = Ok d ∧ w' = {| disk := d; calls := calls w; drawn := drawn w |}.
Proof.
  unfold modify. destruct (f (disk w)) as [d|]; [|discriminate].
  intros [= _ <-]. eauto.
Qed.

Lemma some_result_total {A} (p : A → Result bool) (q : A → bool) (xs : list A) :
  (∀ x, x ∈ xs → p x = Ok (q x)) → some_result p xs = Ok (existsb q xs).
Proof.
  induction xs as [|x xs IH]; intros Hp; simpl; [done|].
  rewrite (Hp x) by left. simpl.
  destruct (q x); [done|]. apply IH. intros y Hy. apply Hp. by right.
Qed.

(** ** Deep equality *)

Lemma Json_nested_ind (P : Json → Prop) :
  P JNull →
  (∀ b, P (JBool b)) →
  (∀ n, P (JNum n)) →
  (∀ s, P (JStr s)) →
  (∀ xs, Forall P xs → P (JArr xs)) →
  (∀ ps, Forall (fun kv => P (snd kv)) ps → P (JObj ps)) →
  ∀ j, P j.
Proof.
  intros Hnull Hbool Hnum Hstr Harr Hobj. fix IH 1.
  intros [| | | |xs|ps]; [done|done|done|done| |].
  - apply Harr. revert xs. fix IHxs 1.
    intros [|x xs]; constructor; [apply IH | apply IHxs].
  - apply Hobj. revert ps. fix IHps 1.
    intros [|[k v] ps]; constructor; [apply IH | apply IHps].
Qed.

Lemma assoc_unique {V} (k : string) (v : V) (kvs : list (string * V)) :
  NoDup (map fst kvs) → (k, v) ∈ kvs → assoc k kvs = Some v.
Proof.
  induction kvs as [|[k' v'] kvs IH]; simpl; intros Hnodup Hin.
  - by apply elem_of_nil in Hin.
  - apply NoDup_cons in Hnodup as [Hfresh Hnodup].
    apply elem_of_cons in Hin as [[= -> ->]|Hin].
    + by rewrite String.eqb_refl.
    + destruct (String.eqb_spec k k') as [->|_]; [|by apply IH].
      exfalso. apply Hfresh.
      by apply (list_elem_of_fmap_2 fst kvs (k', v)).
Qed.

Lemma assoc_is_Some {V} (kvs : list (string * V)) (k : string) :
  is_Some (assoc k kvs) ↔ k ∈ map fst kvs.
Proof.
  induction kvs as [|[k0 v0] kvs IH]; simpl.
  - split; [by intros [? ?]|by intros ?%elem_of_nil].
  - rewrite elem_of_cons, <- IH.
    destruct (String.eqb_spec k k0) as [->|Hne]; [split; eauto|].
    split; [by right|]. by intros [?|?].
Qed.

Lemma assoc_Some_elem {V} (kvs : list (string * V)) (k : string) (v : V) :
  assoc k kvs = Some v → (k, v) ∈ kvs.
Proof.
  induction kvs as [|[k0 v0] kvs IH]; simpl; [discriminate|].
  destruct (String.eqb_spec k k0) as [->|Hne].
  - intros [= ->]. left.
  - intros Hsome. right. by apply IH.
Qed.

Lemma unique_keys_assoc (ps : list (string * Json)) (k : string) (v : Json) :
  unique_keys (JObj ps) = true → assoc k ps = Some v → unique_keys v = true.
Proof.
  simpl. intros [_ Hall]%andb_true_iff Hsome%assoc_Some_elem.
  rewrite forallb_forall in Hall. apply (Hall (k, v)). by apply list_elem_of_In.
Qed.

Lemma equals_json_arr (x y : Json) (xs ys : list Json) :
  equals_json (JArr (x :: xs)) (JArr (y :: ys)) =
  equals_json x y && equals_json (JArr xs) (JArr ys).
Proof. reflexivity. Qed.

Lemma equals_json_obj (ps qs : list (string * Json)) :
  equals_json (JObj ps) (JObj qs) =
  Nat.eqb (length ps) (length qs) &&
  forallb (fun kv => match assoc (fst kv) qs with
                     | Some w => equals_json (snd kv) w
                     | None => false
                     end) ps.
Proof.
  simpl. f_equal. induction ps as [|[k v] ps IH]; [done|]. simpl. by rewrite IH.
Qed.

Lemma same_keys (ps qs : list (string * Json)) :
  NoDup (map fst ps) → NoDup (map fst qs) →
  length ps = length qs →
  (∀ k, k ∈ map fst ps → k ∈ map fst qs) →
  ∀ k, k ∈ map fst qs → k ∈ map fst ps.
Proof.
  intros Hps Hqs Hlen Hsub k Hk.
  assert (map fst ps ≡ₚ map fst qs) as Hperm.
  { apply submseteq_length_Permutation; [by apply NoDup_submseteq|].
    rewrite !length_map. lia. }
  by rewrite Hperm.
Qed.

(** The comparison of the code decides whether two values are the same
    value. *)
Lemma equals_json_same (a : Json) :
  ∀ b, unique_keys a = true → unique_keys b = true →
       (equals_json a b = true ↔ same_json a b).
Proof.
  induction a as [|x|n|s|xs IH|ps IH] using Json_nested_ind; intros b Ha Hb.
  - destruct b; simpl; split; try discriminate; try constructor; intros Hs; inversion Hs.
  - destruct b as [|y| | | |]; simpl; split; try discriminate;
      try (intros Hs; inversion Hs; subst; by destruct y).
    intros ->%Bool.eqb_prop. constructor.
  - destruct b as [| |m| | |]; simpl; split; try discriminate;
      try (intros Hs; inversion Hs; subst; apply Z.eqb_refl).
    intros ->%Z.eqb_eq. constructor.
  - destruct b as [| | |t| |]; simpl; split; try discriminate;
      try (intros Hs; inversion Hs; subst; apply String.eqb_refl).
    intros ->%String.eqb_eq. constructor.
  - destruct b as [| | | |ys|]; try (split; [discriminate|intros Hs; inversion Hs]).
    revert ys Ha Hb. induction IH as [|x xs Hx _ IHxs]; intros ys Ha Hb.
    + destruct ys as [|y ys].
      * split; [intros _; constructor; constructor|reflexivity].
      * split; [discriminate|].
        intros Hs. inversion Hs as [| | | |? ? Hall|]. inversion Hall.
    + destruct ys as [|y ys]; [split; [discriminate|]|].
      { intros Hs. inversion Hs as [| | | |? ? Hall|]. inversion Hall. }
      simpl in Ha, Hb.
      apply andb_true_iff in Ha as [Hax Haxs]. apply andb_true_iff in Hb as [Hby Hbys].
      rewrite equals_json_arr, andb_true_iff, (Hx y Hax Hby), (IHxs ys Haxs Hbys).
      split.
      * intros [Hhead Htail]. inversion Htail as [| | | |? ? Hall|]. subst.
        constructor. by constructor.
      * intros Hs. inversion Hs as [| | | |? ? Hall|]. subst.
        inversion Hall; subst. split; [done|]. by constructor.
  - destruct b as [| | | | |qs]; try (split; [discriminate|intros Hs; inversion Hs]).
    pose proof Ha as Ha'. pose proof Hb as Hb'. simpl in Ha', Hb'.
    apply andb_true_iff in Ha' as [Hps _]. apply andb_true_iff in Hb' as [Hqs _].
    apply bool_decide_eq_true in Hps, Hqs.
    assert (∀ k v w, assoc k ps = Some v → assoc k qs = Some w →
                     (equals_json v w = true ↔ same_json v w)) as Hvalues.
    { intros k v w Hv Hw. rewrite Forall_forall in IH.
      apply (IH (k, v)); [by apply assoc_Some_elem| |].
      - by apply (unique_keys_assoc ps k).
      - by apply (unique_keys_assoc qs k). }
    rewrite equals_json_obj, andb_true_iff, Nat.eqb_eq, forallb_forall. split.
    + intros [Hlen Hall]. constructor. intros k.
      destruct (assoc k ps) as [v|] eqn:Hv.
      * pose proof (Hall (k, v)) as Hkv. simpl in Hkv.
        destruct (assoc k qs) as [w|] eqn:Hw.
        -- constructor. apply (Hvalues k v w Hv Hw). apply Hkv.
           by apply list_elem_of_In, assoc_Some_elem.
        -- discriminate Hkv. by apply list_elem_of_In, assoc_Some_elem.
      * destruct (assoc k qs) as [w|] eqn:Hw; [|constructor]. exfalso.
        assert (k ∈ map fst ps) as Hk.
        { apply (same_keys ps qs Hps Hqs Hlen).
          - intros k' Hk'. apply assoc_is_Some in Hk' as [v' Hv'].
            pose proof (Hall (k', v')) as Hkv. simpl in Hkv.
            apply assoc_is_Some.
            destruct (assoc k' qs); [eauto|].
            discriminate Hkv. by apply list_elem_of_In, assoc_Some_elem.
          - apply assoc_is_Some. by rewrite Hw. }
        apply assoc_is_Some in Hk as [v' Hv']. congruence.
    + intros Hs. inversion Hs as [| | | | |? ? Hsame]. subst.
      assert (∀ k, k ∈ map fst ps ↔ k ∈ map fst qs) as Hkeys.
      { intros k. rewrite <- !assoc_is_Some. specialize (Hsame k).
        destruct Hsame; split; intros [? ?]; eauto; discriminate. }
      split.
      * rewrite <- (length_map fst ps), <- (length_map fst qs).
        apply Permutation_length. by apply NoDup_Permutation.
      * intros [k v] Hin%list_elem_of_In. simpl.
        assert (assoc k ps = Some v) as Hv by (by apply assoc_unique).
        specialize (Hsame k). rewrite Hv in Hsame.
        inversion Hsame as [? w Hvw Heq1 Heq2|]. subst.
        symmetry in Heq2. by apply (Hvalues k v w Hv Heq2).
Qed.

Lemma equals_same (a b : JsVal) :
  (∀ j, a = Some j → unique_keys j = true) →
  (∀ j, b = Some j → unique_keys j = true) →
  (equals a b = true ↔ same_value a b).
Proof.
  intros Ha Hb. unfold same_value. destruct a as [x|], b as [y|]; simpl.
  - rewrite (equals_json_same x y) by eauto. split; [by constructor|].
    intros Hs. by inversion Hs.
  - split; [discriminate|]. intros Hs. inversion Hs.
  - split; [discriminate|]. intros Hs. inversion Hs.
  - split; [constructor|done].
Qed.

Lemma equals_json_refl (j : Json) : unique_keys j = true → equals_json j j = true.
Proof.
  induction j as [|b|n|s|xs IH|ps IH] using Json_nested_ind; simpl; intros Hwf.
  - done.
  - by destruct b.
  - apply Z.eqb_refl.
  - apply String.eqb_refl.
  - induction IH as [|x xs Hx _ IHxs]; [done|].
    simpl in Hwf. apply andb_true_iff in Hwf as [Hwfx Hwfxs].
    by rewrite Hx, IHxs.
  - apply andb_true_iff in Hwf as [Hnodup Hwf].
    apply bool_decide_eq_true in Hnodup.
    rewrite Nat.eqb_refl. simpl.
    assert (∀ k v, (k, v) ∈ ps → assoc k ps = Some v ∧ equals_json v v = true)
      as Hprops.
    { intros k v Hin. split; [by apply assoc_unique|].
      rewrite Forall_forall in IH. apply (IH (k, v) Hin).
      rewrite forallb_forall in Hwf. apply (Hwf (k, v)). by apply list_elem_of_In. }
    clear IH Hwf Hnodup. revert Hprops. generalize ps at 1 4 as ps'.
    induction ps' as [|[k v] ps' IHps]; intros Hprops; [done|].
    destruct (Hprops k v) as [-> ->]; [left|]. simpl.
    apply IHps. intros k' v' Hin. apply Hprops. by right.
Qed.

Lemma equals_refl (v : JsVal) :
  (∀ j, v = Some j → unique_keys j = true) → equals v v = true.
Proof.
  destruct v as [j|]; simpl; [|done]. intros Hwf. apply equals_json_refl. by apply Hwf.
Qed.

(** ** Symbolic links *)






Section IsolatorFacts.
Context `{Platform} `{Collaborators}.

(** ** The manifest diff *)

Lemma diff_of_objects (c : Capsule) (pprops cprops : list (string * Json)) :
  wereDependenciesInPackageJsonChanged
    {| capsule := c; currentPackageJson := Some (JObj cprops);
       previousPackageJson := JObj pprops |}
  = Ok (existsb (fun field => negb (equals (assoc field pprops) (assoc field cprops)))
          DEPENDENCIES_FIELDS).
Proof.
  unfold wereDependenciesInPackageJsonChanged. simpl.
  by apply some_result_total.
Qed.

Lemma diff_of_absent (c : Capsule) (cur : JsVal) :
  wereDependenciesInPackageJsonChanged
    {| capsule := c; currentPackageJson := cur; previousPackageJson := JNull |}
  = Ok true.
Proof. reflexivity. Qed.

Lemma field_values_agree (pprops cprops : list (string * Json)) (field : string) :
  unique_keys (JObj pprops) = true →
  unique_keys (JObj cprops) = true →
  (equals (assoc field pprops) (assoc field cprops) = true ↔
   same_value (assoc field pprops) (assoc field cprops)).
Proof.
  intros Hp Hc. apply equals_same; intros j Hj.
  - by apply (unique_keys_assoc pprops field).
  - by apply (unique_keys_assoc cprops field).
Qed.

Lemma same_value_refl (props : list (string * Json)) (field : string) :
  unique_keys (JObj props) = true → same_value (assoc field props) (assoc field props).
Proof.
  intros Hkeys. apply (field_values_agree props props field Hkeys Hkeys), equals_refl.
  intros j Hj. by apply (unique_keys_assoc props field).
Qed.

(** C4: for a capsule whose current manifest is an object and whose previous
    manifest is [null] or an object (objects having no property twice), the
    diff answers, and answers [true] exactly when the previous manifest is
    absent or the value of some dependency field in the previous manifest is
    not the same value as in the current one; it answers [false] exactly
    when there is a previous manifest and every dependency field has the
    same value in both; an absent previous manifest gives [true] whatever
    the current one; and two pairs of manifests that agree on every
    dependency field get the same answer, so the other fields are ignored;
    in particular manifests with the same dependency fields are
    unchanged. *)
Theorem manifest_diff_changed_iff (d : CapsulePackageJsonData) (cprops : list (string * Json)) :
  currentPackageJson d = Some (JObj cprops) →
  (previousPackageJson d = JNull ∨ ∃ pprops, previousPackageJson d = JObj pprops) →
  unique_keys (previousPackageJson d) = true →
  unique_keys (JObj cprops) = true →
  ∃ changed,
    wereDependenciesInPackageJsonChanged d = Ok changed ∧
    (changed = true ↔
       previousPackageJson d = JNull ∨
       ∃ field, field ∈ DEPENDENCIES_FIELDS ∧
         ¬ same_value (manifest_field (previousPackageJson d) field)
                      (manifest_field (JObj cprops) field)) ∧
    (changed = false ↔
       previousPackageJson d ≠ JNull ∧
       ∀ field, field ∈ DEPENDENCIES_FIELDS →
         same_value (manifest_field (previousPackageJson d) field)
                    (manifest_field (JObj cprops) field)) ∧
    (previousPackageJson d = JNull →
       ∀ cur, wereDependenciesInPackageJsonChanged
                {| capsule := capsule d; currentPackageJson := cur;
                   previousPackageJson := JNull |} = Ok true) ∧
    (∀ pprops pprops' cprops',
       previousPackageJson d = JObj pprops →
       (∀ field, field ∈ DEPENDENCIES_FIELDS →
          assoc field pprops' = assoc field pprops ∧
          assoc field cprops' = assoc field cprops) →
       wereDependenciesInPackageJsonChanged
         {| capsule := capsule d; currentPackageJson := Some (JObj cprops');
            previousPackageJson := JObj pprops' |} = Ok changed) ∧
    (∀ pprops,
       previousPackageJson d = JObj pprops →
       (∀ field, field ∈ DEPENDENCIES_FIELDS → assoc field pprops = assoc field cprops) →
       changed = false).
Proof.
  destruct d as [c cur prev]. simpl. intros -> [->|[pprops ->]] Hprev Hcur.
  - exists true. split; [reflexivity|]. split; [split; [by left|done]|].
    split; [split; [discriminate|by intros [? _]]|].
    split; [intros _ cur; apply diff_of_absent|]. split; discriminate.
  - eexists. split; [apply diff_of_objects|].
    assert (existsb (fun field => negb (equals (assoc field pprops) (assoc field cprops)))
              DEPENDENCIES_FIELDS = false ↔
            ∀ field, field ∈ DEPENDENCIES_FIELDS →
                     same_value (assoc field pprops) (assoc field cprops)) as Hfalse.
    { rewrite <- not_true_iff_false, existsb_exists. split.
      - intros Hnone field Hin. apply (field_values_agree pprops cprops field Hprev Hcur).
        destruct (equals _ _) eqn:Hequal; [done|]. exfalso. apply Hnone.
        exists field. rewrite Hequal. split; [by apply list_elem_of_In|done].
      - intros Hall (field & Hin%list_elem_of_In & Hne).
        apply (field_values_agree pprops cprops field Hprev Hcur) in Hall; [|done].
        by rewrite Hall in Hne. }
    unfold manifest_field. simpl. split; [|split; [|split; [|split]]].
    + rewrite existsb_exists. split.
      * intros (field & Hin & Hne). right. exists field.
        rewrite list_elem_of_In. split; [done|]. intros Hsame.
        apply (field_values_agree pprops cprops field Hprev Hcur) in Hsame.
        by rewrite Hsame in Hne.
      * intros [?|(field & Hin & Hne)]; [done|]. exists field.
        rewrite <- list_elem_of_In. split; [done|].
        destruct (equals _ _) eqn:Hequal; [|done]. exfalso. apply Hne.
        by apply (field_values_agree pprops cprops field Hprev Hcur).
    + rewrite Hfalse. split; [by intros ?|by intros [_ ?]].
    + discriminate.
    + intros pprops0 pprops' cprops' [= <-] Hagree.
      rewrite diff_of_objects. f_equal. clear Hfalse.
      induction DEPENDENCIES_FIELDS as [|field fields IH]; simpl; [done|].
      destruct (Hagree field) as [-> ->]; [left|].
      f_equal. apply IH. intros f Hf. apply Hagree. by right.
    + intros pprops0 [= <-] Hsame. apply Hfalse. intros field Hin.
      rewrite (Hsame field Hin).
      apply (field_values_agree cprops cprops field Hcur Hcur).
      apply equals_refl. intros j Hj. by apply (unique_keys_assoc cprops field).
Qed.

(** ** The snapshot of the previous manifests *)

Lemma snapshot_entries (d : Disk) (capsules : list Capsule) :
  getCapsulesPreviousPackageJson d capsules =
  Ok (map (fun c => {| capsule := c; currentPackageJson := None;
                       previousPackageJson := snapshot_of d c |}) capsules).
Proof.
  unfold getCapsulesPreviousPackageJson.
  induction capsules as [|c capsules IH]; simpl; [done|].
  rewrite IH. unfold snapshot_of.
  destruct (readFile d (path c, "package.json")) as [raw|e]; simpl; [|done].
  destruct (JSON_parse raw); done.
Qed.

(** C5: the snapshot always returns, with one entry per capsule in the order
    of the capsules; the entry of a capsule whose manifest file cannot be
    read (it is missing) or does not parse has a [null] previous manifest,
    and otherwise the parsed manifest. *)
Theorem snapshot_never_fails (d : Disk) (capsules : list Capsule) :
  ∃ data,
    getCapsulesPreviousPackageJson d capsules = Ok data ∧
    map capsule data = capsules ∧
    length data = length capsules ∧
    Forall
      (fun entry =>
         let file := (path (capsule entry), "package.json") in
         currentPackageJson entry = None ∧
         (files d !! file = None → previousPackageJson entry = JNull) ∧
         (∀ e, readFile d file = Err e → previousPackageJson entry = JNull) ∧
         (∀ raw e, readFile d file = Ok raw → JSON_parse raw = Err e →
                   previousPackageJson entry = JNull) ∧
         (∀ raw manifest, readFile d file = Ok raw → JSON_parse raw = Ok manifest →
                          previousPackageJson entry = manifest))
      data.
Proof.
  eexists. split; [apply snapshot_entries|].
  split; [|split].
  - rewrite map_map. simpl. apply map_id.
  - by rewrite length_map.
  - apply Forall_map. apply Forall_forall. intros c _. simpl.
    unfold snapshot_of, readFile.
    destruct (isDirectory d _); [repeat split; intros; congruence|].
    destruct (files d !! _) as [raw|]; [|repeat split; intros; congruence].
    destruct (JSON_parse raw) eqn:Hparse; repeat split; intros; congruence.
Qed.

(** ** Listing the capsules of a workspace *)

(** C6: [list] gives the full paths of the entries of the isolation root of
    the workspace path; when reading the root fails with code [ENOENT] it
    gives the workspace path with no capsules; any other error of the
    listing is the error of [list]. *)
Theorem list_capsules_of_workspace (workspacePath : string) :
  let root := getCapsulesRootDir (Some workspacePath) in
  (∀ names, fs_readdir root = Ok names →
     IsolatorMain_list workspacePath =
     Ok {| workspace := workspacePath; capsules := map (path_join root) names |}) ∧
  (∀ e, fs_readdir root = Err e → error_code e = Some "ENOENT" →
     IsolatorMain_list workspacePath =
     Ok {| workspace := workspacePath; capsules := [] |}) ∧
  (∀ e, fs_readdir root = Err e → error_code e ≠ Some "ENOENT" →
     IsolatorMain_list workspacePath = Err e).
Proof.
  unfold IsolatorMain_list. simpl. split; [|split].
  - by intros names ->.
  - intros e -> Hcode. simpl. by rewrite bool_decide_eq_true_2.
  - intros e -> Hcode. simpl. by rewrite bool_decide_eq_false_2.
Qed.

(** ** The isolation root *)

Lemma createFromComponent_Ok (c : Component) (baseDir : string)
    (opts : IsolateComponentsOptions) (w : World) :
  createFromComponent c baseDir opts w =
  Ok ({| component := c; path := path_join baseDir (capsuleDir c opts (drawn w)) |},
      {| disk := ensureDir (path_join baseDir (capsuleDir c opts (drawn w))) (disk w);
         calls := calls w;
         drawn := if alwaysNew opts then S (drawn w) else drawn w |}).
Proof.
  unfold createFromComponent, capsuleDir. destruct (alwaysNew opts); [reflexivity|].
  by destruct w.
Qed.

Lemma ensureDir_existing (dir : string) (d : Disk) :
  dir ∈ dirs d → ensureDir dir d = d.
Proof.
  intros Hin. destruct d as [fs ds ls]. unfold ensureDir. simpl in *.
  f_equal. apply set_eq. intros x. rewrite elem_of_union, elem_of_singleton.
  split; [by intros [->|?] | by right].
Qed.

Lemma ensureDirs_files (capsules : list Capsule) (d : Disk) :
  files (ensureDirs capsules d) = files d.
Proof.
  revert d. induction capsules as [|c capsules IH]; intros d; simpl; [done|].
  unfold ensureDirs in IH. by rewrite IH.
Qed.

Lemma ensureDirs_dirs (capsules : list Capsule) (d : Disk) (p : string) :
  p ∈ dirs (ensureDirs capsules d) ↔ p ∈ map path capsules ∨ p ∈ dirs d.
Proof.
  revert d. induction capsules as [|c capsules IH]; intros d; simpl.
  - split; [by right|]. intros [Hin|?]; [|done]. by apply elem_of_nil in Hin.
  - unfold ensureDirs in IH. rewrite IH. simpl.
    rewrite elem_of_cons, elem_of_union, elem_of_singleton. tauto.
Qed.

Lemma createCapsulesFromComponents_Ok (components : list Component) (root : string)
    (opts : IsolateComponentsOptions) (w : World) :
  createCapsulesFromComponents components root opts w =
  Ok (capsules_of components root opts (drawn w),
      {| disk := ensureDirs (capsules_of components root opts (drawn w)) (disk w);
         calls := calls w;
         drawn := drawn_after opts components (drawn w) |}).
Proof.
  unfold createCapsulesFromComponents, drawn_after. revert w.
  induction components as [|c components IH]; intros w; simpl.
  - unfold retM. destruct w. simpl. by destruct (alwaysNew opts).
  - unfold bindM at 1. rewrite createFromComponent_Ok.
    unfold bindM at 1. rewrite IH. simpl.
    destruct (alwaysNew opts); [|reflexivity].
    by rewrite Nat.add_succ_r.
Qed.

Lemma capsules_of_components (components : list Component) (root : string)
    (opts : IsolateComponentsOptions) (n : nat) :
  map component (capsules_of components root opts n) = components.
Proof.
  revert n. induction components as [|c components IH]; intros n; simpl; [done|].
  by rewrite IH.
Qed.


Lemma after_emptyRootDir_drawn (opts : IsolateComponentsOptions) (w : World) :
  drawn (after_emptyRootDir opts w) = drawn w ∧ calls (after_emptyRootDir opts w) = calls w.
Proof. unfold after_emptyRootDir. by destruct (emptyRootDir opts). Qed.

Lemma filter_all {A} (p : A → bool) (xs : list A) :
  length (List.filter p xs) = length xs → List.filter p xs = xs.
Proof.
  induction xs as [|x xs IH]; simpl; [done|].
  destruct (p x) eqn:Hp; simpl; intros Hlen.
  - f_equal. apply IH. lia.
  - pose proof (List.filter_length_le p xs). lia.
Qed.

Lemma filter_all_Forall {A} (p : A → bool) (xs : list A) :
  List.filter p xs = xs → Forall (fun x => p x = true) xs.
Proof.
  intros Heq. apply Forall_forall. intros x Hx.
  rewrite <- Heq in Hx. apply list_elem_of_In, filter_In in Hx. tauto.
Qed.

Lemma createCapsules_cases (components : list Component) (opts : IsolateComponentsOptions)
    (legacyScope : option string) (w w' : World) (capsuleList : CapsuleList) :
  createCapsules components opts legacyScope w = Ok (capsuleList, w') →
  let root := getCapsulesRootDir (baseDir opts) in
  let w1 := world_with_capsules components opts w in
  capsuleList = capsules_of components root opts (drawn w) ∧
  ((getExistingAsIs opts = true ∧ w' = w1) ∨
   (getExistingAsIs opts = false ∧ skipIfExists opts = true ∧
    Forall (fun c => existsSync (disk w1) (path c, "package.json") = true) capsuleList ∧
    w' = w1) ∨
   (getExistingAsIs opts = false ∧
    full_run components opts legacyScope capsuleList w1 w')).
Proof.
  unfold createCapsules. intros Hrun. simpl.
  apply bindM_Ok in Hrun as ([] & w0 & Hempty & Hrun).
  assert (w0 = after_emptyRootDir opts w) as ->.
  { unfold after_emptyRootDir. destruct (emptyRootDir opts).
    - apply modify_Ok in Hempty as (d & Hd & ->). by injection Hd as <-.
    - by injection Hempty as <-. }
  apply bindM_Ok in Hrun as (capsules & w1 & Hcreate & Hrun).
  rewrite createCapsulesFromComponents_Ok in Hcreate.
  destruct (after_emptyRootDir_drawn opts w) as [Hdrawn Hcalls].
  rewrite Hdrawn, Hcalls in Hcreate. fold (world_with_capsules components opts w) in Hcreate.
  injection Hcreate as <- <-. unfold fromArray in *.
  destruct (getExistingAsIs opts).
  { injection Hrun as <- <-. split; [done|]. by left. }
  apply bindM_Ok in Hrun as (existing & w1 & Hexisting & Hrun).
  apply read_Ok in Hexisting as [Hexisting ->]. injection Hexisting as <-.
  match type of Hrun with
  | (if ?c then _ else _) _ = _ => destruct c eqn:Hcond
  end.
  - apply andb_true_iff in Hcond as [Hskip Hlen].
    apply Nat.eqb_eq, filter_all in Hlen.
    injection Hrun as <- <-. rewrite Hlen. split; [done|].
    right; left. repeat split; try done.
    by apply filter_all_Forall in Hlen.
  - apply bindM_Ok in Hrun as (data0 & wa & Hsnap & Hrun).
    apply read_Ok in Hsnap as [Hsnap ->].
    apply bindM_Ok in Hrun as ([] & w2 & Hwrite & Hrun).
    apply bindM_Ok in Hrun as (data & wb & Hupd & Hrun).
    apply read_Ok in Hupd as [Hupd ->].
    apply bindM_Ok in Hrun as ([] & w3 & Hinst & Hrun).
    apply bindM_Ok in Hrun as ([] & w4 & Hrewrite & Hrun).
    injection Hrun as <- <-. split; [done|].
    right; right. split; [done|].
    exists data0, w2, data, w3. repeat split; try done.
    destruct (flag _).
    + apply bindM_Ok in Hinst as ([] & wi & Hi & Hl). eauto.
    + by injection Hinst as <-.
Qed.

Lemma createCapsules_components (components : list Component) (opts : IsolateComponentsOptions)
    (legacyScope : option string) (w w' : World) (capsuleList : CapsuleList) :
  createCapsules components opts legacyScope w = Ok (capsuleList, w') →
  map component capsuleList = components.
Proof.
  intros Hrun. apply createCapsules_cases in Hrun as [-> _].
  apply capsules_of_components.
Qed.

Lemma isolateComponents_Ok (seeders : list BitId) (opts : IsolateComponentsOptions)
    (legacyScope : option string) (w w' : World) (n : Network) :
  isolateComponents seeders opts legacyScope w = Ok (n, w') →
  ∃ components,
    (if seedersOnly opts then host_getMany seeders else createGraph seeders) = Ok components ∧
    createCapsules components (with_baseDir opts (baseDir_or_host opts)) legacyScope w
      = Ok (network_capsules n, w') ∧
    network_seeders n = seeders ∧
    network_capsulesRootDir n = getCapsulesRootDir (Some (baseDir_or_host opts)).
Proof.
  unfold isolateComponents. intros Hrun.
  apply bindM_Ok in Hrun as (components & w0 & Hcomps & Hrun).
  apply read_Ok in Hcomps as [Hcomps ->].
  apply bindM_Ok in Hrun as (capsuleList & w1 & Hcreate & Hrun).
  injection Hrun as <- <-. simpl. eauto.
Qed.

(** C7: the isolation root of a base directory is the capsules base
    directory joined with the hash of the base directory, and nothing else
    enters it: two runs of [isolateComponents] for the same base directory,
    whatever their seeders, other options and file systems, return the same
    root. *)
Theorem capsules_root_dir_deterministic (baseDir : string) :
  getCapsulesRootDir (Some baseDir) =
    path_join (path_join CACHE_ROOT "capsules") (hash (Some baseDir)) ∧
  ∀ seeders1 seeders2 opts1 opts2 scope1 scope2 w1 w2 n1 n2 w1' w2',
    baseDir_or_host opts1 = baseDir →
    baseDir_or_host opts2 = baseDir →
    isolateComponents seeders1 opts1 scope1 w1 = Ok (n1, w1') →
    isolateComponents seeders2 opts2 scope2 w2 = Ok (n2, w2') →
    network_capsulesRootDir n1 = getCapsulesRootDir (Some baseDir) ∧
    network_capsulesRootDir n2 = network_capsulesRootDir n1.
Proof.
  split; [reflexivity|].
  intros seeders1 seeders2 opts1 opts2 scope1 scope2 w1 w2 n1 n2 w1' w2' Hb1 Hb2 Hrun1 Hrun2.
  apply isolateComponents_Ok in Hrun1 as (_ & _ & _ & _ & Hroot1).
  apply isolateComponents_Ok in Hrun2 as (_ & _ & _ & _ & Hroot2).
  rewrite Hroot1, Hroot2, Hb1, Hb2. done.
Qed.

(** ** Graph resolution *)

Lemma existence_check (nodes : list Component) (checked : list (option Component)) :
  Promise_all
    (fun c =>
       let* existing := host_hasId (component_id c) in
       if existing then Ok (Some c) else Ok None) nodes = Ok checked →
  omap (fun c => c) checked = List.filter recognized nodes.
Proof.
  revert checked. induction nodes as [|c nodes IH]; simpl; intros checked Hall.
  - by injection Hall as <-.
  - apply bind_Ok in Hall as (oc & Hc & Hall).
    apply bind_Ok in Hall as (rest & Hrest & Hall).
    injection Hall as <-. apply IH in Hrest.
    unfold recognized. destruct (host_hasId (component_id c)) as [[]|]; simpl in Hc;
      [injection Hc as <- | injection Hc as <- | discriminate]; simpl;
      fold recognized; by rewrite <- Hrest.
Qed.

Lemma existence_check_total (nodes : list Component) :
  (∀ c, c ∈ nodes → ∃ b, host_hasId (component_id c) = Ok b) →
  ∃ checked,
    Promise_all
      (fun c =>
         let* existing := host_hasId (component_id c) in
         if existing then Ok (Some c) else Ok None) nodes = Ok checked.
Proof.
  induction nodes as [|c nodes IH]; simpl; intros Hhost; [eauto|].
  destruct (Hhost c) as [b ->]; [left|].
  destruct IH as [checked ->]; [intros c' Hc'; apply Hhost; by right|].
  simpl. destruct b; simpl; eauto.
Qed.

Lemma filter_is_sublist {A} (p : A → bool) (xs : list A) : sublist (List.filter p xs) xs.
Proof.
  induction xs as [|x xs IH]; simpl; [constructor|].
  destruct (p x); by constructor.
Qed.

(** C3: without [seedersOnly], when the graph builder answers and the host
    answers the existence check of every node, graph resolution returns
    exactly the nodes of the successors subgraph that the host recognises,
    in the order of the subgraph; and the capsules of the run are the
    capsules of these components. *)
Theorem graph_resolution_keeps_recognized (seeders : list BitId) (g : Graph) :
  getGraph seeders = Ok g →
  let nodes := successorsSubgraph g (map toString seeders) in
  (∀ c, c ∈ nodes → ∃ b, host_hasId (component_id c) = Ok b) →
  let kept := List.filter recognized nodes in
  createGraph seeders = Ok kept ∧
  sublist kept nodes ∧
  (∀ c, c ∈ kept ↔ c ∈ nodes ∧ host_hasId (component_id c) = Ok true) ∧
  (∀ opts legacyScope w n w',
     seedersOnly opts = false →
     isolateComponents seeders opts legacyScope w = Ok (n, w') →
     map component (network_capsules n) = kept).
Proof.
  intros Hgraph nodes Hhost kept.
  assert (createGraph seeders = Ok kept) as Hcreate.
  { unfold createGraph. rewrite Hgraph. simpl.
    destruct (existence_check_total nodes Hhost) as [checked Hchecked].
    fold nodes. rewrite Hchecked. simpl. f_equal. by apply existence_check. }
  split; [done|]. split; [apply filter_is_sublist|]. split.
  - intros c. unfold kept. rewrite !list_elem_of_In, filter_In. unfold recognized.
    destruct (host_hasId (component_id c)) as [[]|]; intuition congruence.
  - intros opts legacyScope w n w' Hseeders Hrun.
    apply isolateComponents_Ok in Hrun as (components & Hcomps & Hcaps & _).
    rewrite Hseeders, Hcreate in Hcomps. injection Hcomps as <-.
    by apply createCapsules_components in Hcaps.
Qed.

(** ** The read-only mode *)

Lemma createCapsules_getExistingAsIs (components : list Component)
    (opts : IsolateComponentsOptions) (legacyScope : option string) (w : World) :
  getExistingAsIs opts = true →
  let root := getCapsulesRootDir (baseDir opts) in
  createCapsules components opts legacyScope w =
  Ok (capsules_of components root opts (drawn w), world_with_capsules components opts w).
Proof.
  intros Hasis. unfold createCapsules.
  assert ((if emptyRootDir opts
           then modify (fun d => Ok (emptyDir (getCapsulesRootDir (baseDir opts)) d))
           else retM tt) w = Ok (tt, after_emptyRootDir opts w)) as Hempty.
  { unfold after_emptyRootDir. by destruct (emptyRootDir opts). }
  unfold bindM at 1. rewrite Hempty.
  unfold bindM at 1. rewrite createCapsulesFromComponents_Ok.
  destruct (after_emptyRootDir_drawn opts w) as [-> ->]. by rewrite Hasis.
Qed.

(** C8 (amended): a run with [getExistingAsIs] returns the capsules right
    after the optional [emptyRootDir] wipe and the creation of the capsule
    directories: no installer, linker or symlink call is made and no file is
    written.  Every file keeps its content unless [emptyRootDir] is set as
    well, in which case the files in the isolation root are deleted. *)
Theorem getExistingAsIs_skips_all_phases (components : list Component)
    (opts : IsolateComponentsOptions) (legacyScope : option string) (w : World) :
  getExistingAsIs opts = true →
  ∃ capsuleList w',
    createCapsules components opts legacyScope w = Ok (capsuleList, w') ∧
    map component capsuleList = components ∧
    calls w' = calls w ∧
    (∀ p, p ∈ dirs (disk w') ↔
          p ∈ map path capsuleList ∨ p ∈ dirs (disk (after_emptyRootDir opts w))) ∧
    (emptyRootDir opts = false →
       files (disk w') = files (disk w) ∧ dirs (disk w) ⊆ dirs (disk w')) ∧
    (emptyRootDir opts = true →
       files (disk w') =
       filter (fun kv => within (getCapsulesRootDir (baseDir opts)) (fst (fst kv)) = false)
         (files (disk w))).
Proof.
  intros Hasis. eexists _, _.
  split; [by apply createCapsules_getExistingAsIs|]. simpl.
  split; [apply capsules_of_components|]. split; [done|].
  split; [apply ensureDirs_dirs|].
  rewrite ensureDirs_files. unfold after_emptyRootDir.
  split; intros ->; simpl; [|done].
  split; [done|]. intros p Hp. apply ensureDirs_dirs. by right.
Qed.

(** ** The write phase *)

Lemma apply_writes_app (ws1 ws2 : list ((string * string) * string))
    (m : gmap (string * string) string) :
  apply_writes (ws1 ++ ws2) m = apply_writes ws2 (apply_writes ws1 m).
Proof. apply fold_left_app. Qed.

Lemma apply_writes_other (ws : list ((string * string) * string))
    (m : gmap (string * string) string) (key : string * string) :
  key ∉ map fst ws → apply_writes ws m !! key = m !! key.
Proof.
  revert m. induction ws as [|[k v] ws IH]; intros m Hnot; simpl; [done|].
  simpl in Hnot. rewrite not_elem_of_cons in Hnot. destruct Hnot as [Hne Hnot].
  unfold apply_writes in IH. rewrite IH by done. simpl.
  by rewrite lookup_insert_ne.
Qed.

Lemma apply_writes_written (ws : list ((string * string) * string))
    (m : gmap (string * string) string) (key : string * string) (content : string) :
  NoDup (map fst ws) → (key, content) ∈ ws → apply_writes ws m !! key = Some content.
Proof.
  revert m. induction ws as [|[k v] ws IH]; intros m Hnodup Hin; simpl.
  - by apply elem_of_nil in Hin.
  - simpl in Hnodup. apply NoDup_cons in Hnodup as [Hfresh Hnodup].
    apply elem_of_cons in Hin as [[= -> ->]|Hin].
    + fold (apply_writes ws (<[k:=v]> m)).
      rewrite apply_writes_other by done. apply lookup_insert_eq.
    + by apply IH.
Qed.

Lemma persistAllToCapsule_Ok (c : Capsule) (toWrite : list (string * string)) (d d' : Disk) :
  persistAllToCapsule c toWrite d = Ok d' →
  d' = {| files := apply_writes (map (fun f => ((path c, fst f), snd f)) toWrite) (files d);
          dirs := dirs d;
          links := links d |}.
Proof.
  revert d. induction toWrite as [|f toWrite IH]; intros d; simpl.
  - intros [= <-]. by destruct d.
  - intros Hrun. apply bind_Ok in Hrun as (d1 & Hwrite & Hrun).
    apply IH in Hrun as ->. unfold writeFileSync in Hwrite.
    destruct (isDirectory d _); [discriminate|]. by injection Hwrite as <-.
Qed.

Lemma writeComponentInCapsule_Ok (allIds : list BitId) (capsuleList : CapsuleList)
    (legacyScope : option string) (c : Component) (w w' : World) :
  writeComponentInCapsule allIds capsuleList legacyScope c w = Ok (tt, w') →
  w' = {| disk := {| files := apply_writes (component_writes allIds capsuleList legacyScope c)
                                (files (disk w));
                     dirs := dirs (disk w);
                     links := links (disk w) |};
          calls := calls w;
          drawn := drawn w |} ∧
  (∀ capsule, getCapsule capsuleList (component_id c) = Some capsule →
     ∃ toWrite,
       populateComponentsFilesToWrite (getComponentWriteParams c allIds legacyScope)
         = Ok toWrite).
Proof.
  unfold writeComponentInCapsule, component_writes.
  destruct (getCapsule capsuleList (component_id c)) as [capsule|].
  - intros Hrun. apply bindM_Ok in Hrun as (toWrite & w0 & Hfiles & Hrun).
    apply read_Ok in Hfiles as [Hfiles ->]. rewrite Hfiles.
    apply modify_Ok in Hrun as (d & Hd & ->).
    apply persistAllToCapsule_Ok in Hd as ->. split; [done|]. eauto.
  - intros [= <-]. split; [|done]. simpl. by destruct w as [[] ? ?].
Qed.

Lemma write_phase_Ok (allIds : list BitId) (capsuleList : CapsuleList)
    (legacyScope : option string) (components : list Component) (w w' : World) :
  forEach (writeComponentInCapsule allIds capsuleList legacyScope) components w
    = Ok (tt, w') →
  w' = {| disk := {| files := apply_writes
                                (flat_map (component_writes allIds capsuleList legacyScope)
                                   components)
                                (files (disk w));
                     dirs := dirs (disk w);
                     links := links (disk w) |};
          calls := calls w;
          drawn := drawn w |} ∧
  (∀ c capsule, c ∈ components →
     getCapsule capsuleList (component_id c) = Some capsule →
     ∃ toWrite,
       populateComponentsFilesToWrite (getComponentWriteParams c allIds legacyScope)
         = Ok toWrite).
Proof.
  revert w. induction components as [|c components IH]; intros w; simpl.
  - intros [= <-]. split; [by destruct w as [[] ? ?]|].
    intros c capsule Hin. by apply elem_of_nil in Hin.
  - intros Hrun. apply bindM_Ok in Hrun as ([] & w1 & Htask & Hrun).
    apply writeComponentInCapsule_Ok in Htask as [-> Hpop].
    apply IH in Hrun as [-> Hrest]. simpl. split.
    + by rewrite apply_writes_app.
    + intros c' capsule [->|Hin]%elem_of_cons; eauto.
Qed.

Lemma skip_without_capsule (allIds : list BitId) (capsuleList : CapsuleList)
    (legacyScope : option string) (components : list Component) (w : World) :
  forEach (writeComponentInCapsule allIds capsuleList legacyScope) components w =
  forEach (writeComponentInCapsule allIds capsuleList legacyScope)
    (List.filter (fun c => bool_decide (is_Some (getCapsule capsuleList (component_id c))))
       components) w.
Proof.
  revert w. induction components as [|c components IH]; intros w; simpl; [done|].
  destruct (getCapsule capsuleList (component_id c)) as [capsule|] eqn:Hcapsule.
  - rewrite bool_decide_eq_true_2 by eauto. simpl.
    unfold bindM. destruct (writeComponentInCapsule _ _ _ c w) as [[[] w1]|]; [|done].
    apply IH.
  - rewrite bool_decide_eq_false_2 by (by intros [? ?]).
    unfold bindM at 1. unfold writeComponentInCapsule at 1. rewrite Hcapsule. simpl.
    apply IH.
Qed.

(** C9: in the write phase the task of a component without a capsule in the
    capsule list returns at once, leaving the world as it is, so the phase
    is the phase of the components that have a capsule; and when the phase
    has succeeded, the files of every component that has a capsule are in
    that capsule (no file being written twice), the other files being as
    they were. *)
Theorem write_phase_skips_components_without_capsule (components : list Component)
    (capsuleList : CapsuleList) (legacyScope : option string) :
  let allIds := map component_id components in
  let task := writeComponentInCapsule allIds capsuleList legacyScope in
  let writes := flat_map (component_writes allIds capsuleList legacyScope) components in
  (∀ c w, getCapsule capsuleList (component_id c) = None → task c w = Ok (tt, w)) ∧
  (∀ w, writeComponentsInCapsules components capsuleList legacyScope w =
        forEach task
          (List.filter
             (fun c => bool_decide (is_Some (getCapsule capsuleList (component_id c))))
             components) w) ∧
  (∀ w w',
     writeComponentsInCapsules components capsuleList legacyScope w = Ok (tt, w') →
     calls w' = calls w ∧
     dirs (disk w') = dirs (disk w) ∧
     (∀ key, key ∉ map fst writes → files (disk w') !! key = files (disk w) !! key) ∧
     (∀ c capsule,
        c ∈ components →
        getCapsule capsuleList (component_id c) = Some capsule →
        ∃ toWrite,
          populateComponentsFilesToWrite (getComponentWriteParams c allIds legacyScope)
            = Ok toWrite ∧
          (NoDup (map fst writes) →
           ∀ rel content, (rel, content) ∈ toWrite →
             files (disk w') !! (path capsule, rel) = Some content))).
Proof.
  intros allIds task writes. split; [|split].
  - intros c w Hnone. unfold task, writeComponentInCapsule. by rewrite Hnone.
  - intros w. apply skip_without_capsule.
  - intros w w' Hrun. apply write_phase_Ok in Hrun as [-> Hpop]. simpl.
    split; [done|]. split; [done|]. split; [apply apply_writes_other|].
    intros c capsule Hin Hcapsule.
    destruct (Hpop c capsule Hin Hcapsule) as [toWrite HtoWrite].
    exists toWrite. split; [done|]. intros Hnodup rel content Hfile.
    apply apply_writes_written; [done|].
    apply list_elem_of_In, in_flat_map. exists c.
    split; [by apply list_elem_of_In|].
    unfold component_writes. rewrite Hcapsule, HtoWrite.
    apply list_elem_of_In.
    by apply (list_elem_of_fmap_2 (fun f => ((path capsule, fst f), snd f)) toWrite (rel, content)).
Qed.

(** ** The final rewrite of the manifests *)

Lemma rewritePackageJson_Ok (entry : CapsulePackageJsonData) (w w' : World) :
  rewritePackageJson entry w = Ok (tt, w') →
  ∃ cur,
    currentPackageJson entry = Some cur ∧
    w' = {| disk := {| files := <[(path (capsule entry), PACKAGE_JSON) := JSON_stringify cur]>
                                  (files (disk w));
                       dirs := dirs (disk w);
                       links := links (disk w) |};
            calls := calls w;
            drawn := drawn w |}.
Proof.
  unfold rewritePackageJson.
  destruct (currentPackageJson entry) as [cur|]; [|discriminate].
  intros Hrun. apply modify_Ok in Hrun as (d & Hd & ->).
  unfold writeFileSync in Hd. destruct (isDirectory _ _); [discriminate|].
  injection Hd as <-. eauto.
Qed.

Lemma rewrite_phase_Ok (data : list CapsulePackageJsonData) (w w' : World) :
  forEach rewritePackageJson data w = Ok (tt, w') →
  NoDup (map (fun entry => path (capsule entry)) data) →
  calls w' = calls w ∧
  dirs (disk w') = dirs (disk w) ∧
  (∀ key, key ∉ map (fun entry => (path (capsule entry), PACKAGE_JSON)) data →
          files (disk w') !! key = files (disk w) !! key) ∧
  Forall
    (fun entry =>
       ∃ cur,
         currentPackageJson entry = Some cur ∧
         files (disk w') !! (path (capsule entry), PACKAGE_JSON) = Some (JSON_stringify cur))
    data.
Proof.
  revert w. induction data as [|entry data IH]; intros w; simpl.
  - intros [= <-] _. repeat split; by constructor.
  - intros Hrun [Hfresh Hnodup]%NoDup_cons.
    apply bindM_Ok in Hrun as ([] & w1 & Hentry & Hrun).
    apply rewritePackageJson_Ok in Hentry as (cur & Hcur & ->).
    destruct (IH _ Hrun Hnodup) as (Hcalls & Hdirs & Hframe & Hall).
    simpl in *. split; [done|]. split; [done|]. split.
    + intros key [Hne Hkey]%not_elem_of_cons.
      rewrite Hframe by done. by rewrite lookup_insert_ne.
    + constructor; [|done]. exists cur. split; [done|].
      rewrite Hframe; [apply lookup_insert_eq|].
      intros Hin. apply Hfresh.
      apply list_elem_of_fmap in Hin as (entry' & [= Hpath] & Hin).
      rewrite Hpath.
      by apply (list_elem_of_fmap_2 (fun e => path (capsule e))).
Qed.

Lemma set_currentPackageJson_capsules (i : BitId) (packageJsonObject : Json)
    (data data' : list CapsulePackageJsonData) :
  set_currentPackageJson i packageJsonObject data = Ok data' →
  map capsule data' = map capsule data.
Proof.
  revert data'. induction data as [|entry data IH]; intros data'; simpl; [discriminate|].
  destruct (isEqual _ i).
  - by intros [= <-].
  - intros Hset. apply bind_Ok in Hset as (rest & Hrest & Hset).
    injection Hset as <-. simpl. f_equal. by apply IH.
Qed.

Lemma updateWithCurrentPackageJsonData_capsules (d : Disk)
    (data data' : list CapsulePackageJsonData) (capsules : list Capsule) :
  updateWithCurrentPackageJsonData d data capsules = Ok data' →
  map capsule data' = map capsule data.
Proof.
  revert data. induction capsules as [|c capsules IH]; intros data; simpl.
  - by intros [= <-].
  - intros Hupd. apply bind_Ok in Hupd as (packageJson & _ & Hupd).
    apply bind_Ok in Hupd as (updated & Hset & Hupd).
    apply IH in Hupd as ->. by apply set_currentPackageJson_capsules in Hset.
Qed.

Lemma set_currentPackageJson_map (i : BitId) (packageJsonObject : Json)
    (data data' : list CapsulePackageJsonData) :
  NoDup (map (fun entry => capsule_id (capsule entry)) data) →
  set_currentPackageJson i packageJsonObject data = Ok data' →
  data' = map (with_current i packageJsonObject) data.
Proof.
  revert data'. induction data as [|entry data IH]; intros data'; simpl; [discriminate|].
  intros [Hfresh Hnodup]%NoDup_cons. unfold with_current at 1. fold (capsule_id (capsule entry)).
  destruct (isEqual (capsule_id (capsule entry)) i) eqn:Hid.
  - intros [= <-]. f_equal. symmetry. rewrite <- (map_id data) at 2.
    apply map_ext_in. intros entry' Hin%list_elem_of_In.
    unfold with_current. destruct (isEqual (capsule_id (capsule entry')) i) eqn:Hid'; [|done].
    apply bool_decide_eq_true in Hid, Hid'. exfalso. apply Hfresh.
    rewrite Hid, <- Hid'.
    by apply (list_elem_of_fmap_2 (fun e => capsule_id (capsule e))).
  - intros Hset. apply bind_Ok in Hset as (rest & Hrest & Hset).
    injection Hset as <-. f_equal. by apply IH.
Qed.

Lemma with_current_capsule (i : BitId) (packageJsonObject : Json)
    (entry : CapsulePackageJsonData) :
  capsule (with_current i packageJsonObject entry) = capsule entry ∧
  previousPackageJson (with_current i packageJsonObject entry) = previousPackageJson entry.
Proof. unfold with_current. by destruct (isEqual _ i). Qed.

Lemma updateWithCurrentPackageJsonData_map (d : Disk)
    (data data' : list CapsulePackageJsonData) (capsules : list Capsule) :
  NoDup (map (fun entry => capsule_id (capsule entry)) data) →
  updateWithCurrentPackageJsonData d data capsules = Ok data' →
  Forall (fun c => getCurrentPackageJson d c = Ok (current_manifest d c)) capsules ∧
  data' =
    map (fun entry =>
           fold_left (fun e c => with_current (capsule_id c) (current_manifest d c) e)
             capsules entry)
      data.
Proof.
  revert data. induction capsules as [|c capsules IH]; intros data Hnodup; simpl.
  - intros [= <-]. split; [constructor|]. symmetry. apply map_id.
  - intros Hupd. apply bind_Ok in Hupd as (packageJson & Hcur & Hupd).
    apply bind_Ok in Hupd as (updated & Hset & Hupd).
    assert (current_manifest d c = packageJson) as Hc.
    { unfold current_manifest. by rewrite Hcur. }
    apply set_currentPackageJson_map in Hset as ->; [|done].
    apply IH in Hupd as [Hall ->].
    + split; [constructor; [by rewrite Hc | done]|].
      rewrite map_map. apply map_ext. intros entry. by rewrite Hc.
    + rewrite map_map.
      erewrite map_ext; [exact Hnodup|].
      intros entry. simpl. by rewrite (proj1 (with_current_capsule _ _ _)).
Qed.

Lemma with_currents_other (d : Disk) (capsules : list Capsule)
    (entry : CapsulePackageJsonData) :
  capsule_id (capsule entry) ∉ map capsule_id capsules →
  fold_left (fun e c => with_current (capsule_id c) (current_manifest d c) e) capsules entry
  = entry.
Proof.
  revert entry. induction capsules as [|c capsules IH]; intros entry; simpl; [done|].
  intros [Hne Hnot]%not_elem_of_cons.
  assert (with_current (capsule_id c) (current_manifest d c) entry = entry) as ->.
  { unfold with_current, isEqual. by rewrite bool_decide_eq_false_2. }
  by apply IH.
Qed.

Lemma with_currents_own (d : Disk) (capsules : list Capsule)
    (entry : CapsulePackageJsonData) :
  NoDup (map capsule_id capsules) →
  capsule entry ∈ capsules →
  fold_left (fun e c => with_current (capsule_id c) (current_manifest d c) e) capsules entry
  = {| capsule := capsule entry;
       currentPackageJson := Some (current_manifest d (capsule entry));
       previousPackageJson := previousPackageJson entry |}.
Proof.
  revert entry. induction capsules as [|c capsules IH]; intros entry; simpl.
  - intros _ Hin. by apply elem_of_nil in Hin.
  - intros [Hfresh Hnodup]%NoDup_cons Hin.
    destruct (decide (capsule_id (capsule entry) = capsule_id c)) as [Hid|Hid].
    + assert (capsule entry = c) as Hc.
      { apply elem_of_cons in Hin as [?|Hin]; [done|]. exfalso. apply Hfresh.
        rewrite <- Hid. by apply (list_elem_of_fmap_2 capsule_id). }
      assert (with_current (capsule_id c) (current_manifest d c) entry =
              {| capsule := capsule entry;
                 currentPackageJson := Some (current_manifest d c);
                 previousPackageJson := previousPackageJson entry |}) as ->.
      { unfold with_current, isEqual. by rewrite bool_decide_eq_true_2. }
      rewrite with_currents_other; [by rewrite Hc|]. simpl. by rewrite Hid.
    + assert (with_current (capsule_id c) (current_manifest d c) entry = entry) as ->.
      { unfold with_current, isEqual. by rewrite bool_decide_eq_false_2. }
      apply IH; [done|]. apply elem_of_cons in Hin as [Hc|?]; [|done].
      by rewrite Hc in Hid.
Qed.

(** C1 (amended): at the end of a run that is not cut short by
    [getExistingAsIs] or [skipIfExists], the manifest of every capsule,
    whether its diff says changed or not, holds the serialisation of the
    capsule's current manifest; with one capsule per component, that is the
    manifest computed for the capsule after the write phase, and the
    previous manifest it is compared with is the snapshot taken before. *)
Theorem final_manifest_rewritten_for_every_capsule (components : list Component)
    (opts : IsolateComponentsOptions) (legacyScope : option string) (w w' : World)
    (capsuleList : CapsuleList) :
  getExistingAsIs opts = false →
  createCapsules components opts legacyScope w = Ok (capsuleList, w') →
  NoDup (map path capsuleList) →
  let w1 := world_with_capsules components opts w in
  (skipIfExists opts = true ∧
   Forall (fun c => existsSync (disk w1) (path c, "package.json") = true) capsuleList ∧
   w' = w1) ∨
  (∃ data0 w2 data,
     getCapsulesPreviousPackageJson (disk w1) capsuleList = Ok data0 ∧
     writeComponentsInCapsules components capsuleList legacyScope w1 = Ok (tt, w2) ∧
     updateWithCurrentPackageJsonData (disk w2) data0 capsuleList = Ok data ∧
     map capsule data = capsuleList ∧
     Forall
       (fun entry =>
          ∃ cur,
            currentPackageJson entry = Some cur ∧
            files (disk w') !! (path (capsule entry), PACKAGE_JSON)
              = Some (JSON_stringify cur) ∧
            (NoDup (map capsule_id capsuleList) →
             getCurrentPackageJson (disk w2) (capsule entry) = Ok cur ∧
             previousPackageJson entry = snapshot_of (disk w1) (capsule entry)))
       data).
Proof.
  intros Hasis Hrun Hnodup.
  apply createCapsules_cases in Hrun as [Hcaps [[Hyes _]|[Hskip|[_ Hfull]]]].
  - congruence.
  - left. tauto.
  - right. destruct Hfull as (data0 & w2 & data & w3 & Hsnap & Hwrite & Hupd & _ & Hrewrite).
    exists data0, w2, data.
    pose proof (updateWithCurrentPackageJsonData_capsules _ _ _ _ Hupd) as Hcapsules.
    pose proof Hsnap as Hentries. rewrite snapshot_entries in Hentries.
    injection Hentries as <-.
    rewrite map_map in Hcapsules. simpl in Hcapsules. rewrite map_id in Hcapsules.
    repeat split; try done.
    apply rewrite_phase_Ok in Hrewrite as (_ & _ & _ & Hall);
      [|by rewrite <- (map_map capsule path), Hcapsules].
    rewrite Forall_forall in Hall. apply Forall_forall. intros entry Hin.
    destruct (Hall entry Hin) as (cur & Hcur & Hfile).
    exists cur. split; [done|]. split; [done|]. intros Hids.
    apply updateWithCurrentPackageJsonData_map in Hupd as [Hcurrent ->];
      [|by rewrite map_map].
    apply list_elem_of_fmap in Hin as (entry0 & -> & Hin0).
    apply list_elem_of_fmap in Hin0 as (c & -> & Hc).
    rewrite with_currents_own in Hcur |- * by done. simpl in *.
    injection Hcur as <-. split; [|done].
    rewrite Forall_forall in Hcurrent. by apply Hcurrent.
Qed.

(** ** The linking phase *)

Lemma filter_result_Ok {A} (p : A → Result bool) (xs ys : list A) :
  filter_result p xs = Ok ys →
  ys = List.filter (fun x => match p x with Ok true => true | _ => false end) xs.
Proof.
  revert ys. induction xs as [|x xs IH]; simpl; intros ys Hfilter.
  - by injection Hfilter as <-.
  - apply bind_Ok in Hfilter as (b & Hb & Hfilter).
    apply bind_Ok in Hfilter as (rest & Hrest & Hfilter).
    injection Hfilter as <-. rewrite Hb. apply IH in Hrest as ->. by destruct b.
Qed.

Lemma getCapsulesWithModifiedPackageJson_Ok (data : list CapsulePackageJsonData)
    (modified : list Capsule) :
  getCapsulesWithModifiedPackageJson data = Ok modified →
  modified = map capsule (List.filter is_changed data).
Proof.
  unfold getCapsulesWithModifiedPackageJson. intros Hmod.
  apply bind_Ok in Hmod as (entries & Hfilter & Hmod). injection Hmod as <-.
  apply filter_result_Ok in Hfilter as ->. f_equal.
  apply filter_ext. intros entry. unfold is_changed.
  by destruct (wereDependenciesInPackageJsonChanged entry).
Qed.

Lemma call_Ok (c : Call) (w w' : World) :
  call c w = Ok (tt, w') →
  ∃ d, effect c (disk w) = Ok d ∧
       w' = {| disk := d; calls := calls w ++ [c]; drawn := drawn w |}.
Proof.
  unfold call. destruct (effect c (disk w)) as [d|]; [|discriminate].
  intros [= <-]. eauto.
Qed.


End IsolatorFacts.

(** ** The installed-marker *)

(** C10: once [markEnvironmentAsInstalled] has completed for a directory,
    [isEnvironmentInstalled] answers [true] for it: the marker is the empty
    file [.bit_env_has_installed] of the directory, and the check is the
    existence of that file; where nothing sits at that path the check
    answers [false]. *)
Theorem marked_environment_is_installed (dir : string) (d d' : Disk) :
  markEnvironmentAsInstalled dir d = Ok d' →
  isEnvironmentInstalled dir d' = true ∧
  files d' !! (dir, ".bit_env_has_installed") = Some EmptyString ∧
  (∀ dir0 d0, isEnvironmentInstalled dir0 d0 = existsSync d0 (dir0, ".bit_env_has_installed")) ∧
  (∀ dir0 d0,
     files d0 !! (dir0, ".bit_env_has_installed") = None →
     path_join dir0 ".bit_env_has_installed" ∉ dirs d0 →
     isEnvironmentInstalled dir0 d0 = false).
Proof.
  unfold markEnvironmentAsInstalled, outputFile, writeFileSync, isEnvironmentInstalled,
    existsSync, ENV_IS_INSTALLED_FILENAME.
  destruct (isDirectory (ensureDir _ d) _) eqn:Hdir; [discriminate|].
  intros [= <-]. simpl. rewrite lookup_insert_eq.
  split; [|split; [done|split; [done|]]].
  - rewrite bool_decide_eq_true_2 by eauto. apply orb_true_r.
  - intros dir0 d0 Hnone Hnodir. unfold isDirectory. simpl.
    rewrite Hnone, bool_decide_eq_false_2 by done.
    apply bool_decide_eq_false_2. by intros [? ?].
Qed.

(** * More properties of the isolator *)

(** ** Paths *)

Lemma append_assoc_string (a b c : string) : ((a ++ b) ++ c = a ++ (b ++ c))%string.
Proof.
  induction a as [|x a IH]; [reflexivity|].
  change (String x ((a ++ b) ++ c) = String x (a ++ (b ++ c)))%string. by f_equal.
Qed.

Lemma prefix_append (a b : string) : String.prefix a (a ++ b) = true.
Proof.
  induction a as [|x a IH]; [by destruct b|].
  change (String.prefix (String x a) (String x (a ++ b)) = true)%string. simpl.
  destruct (Ascii.ascii_dec x x); [done|congruence].
Qed.

Lemma below_path_join (root entry : string) : below root (path_join root entry) = true.
Proof.
  unfold below, path_join.
  replace (root ++ "/" ++ entry)%string with ((root ++ "/") ++ entry)%string
    by apply append_assoc_string.
  apply prefix_append.
Qed.

Lemma within_path_join (root entry : string) : within root (path_join root entry) = true.
Proof. unfold within. rewrite below_path_join. apply orb_true_r. Qed.

Section RunFacts.
Context `{Platform} `{Collaborators}.

(** ** The phases of a run *)

Lemma filter_Forall_all {A} (p : A → bool) (xs : list A) :
  Forall (fun x => p x = true) xs → List.filter p xs = xs.
Proof.
  induction 1 as [|x xs Hx _ IH]; simpl; [done|]. by rewrite Hx, IH.
Qed.




Lemma rewrite_phase_keeps (data : list CapsulePackageJsonData) (w w' : World)
    (key : string * string) :
  forEach rewritePackageJson data w = Ok (tt, w') →
  (∃ cur, files (disk w) !! key = Some (JSON_stringify cur)) →
  ∃ cur, files (disk w') !! key = Some (JSON_stringify cur).
Proof.
  revert w. induction data as [|entry data IH]; intros w; simpl.
  - by intros [= <-].
  - intros Hrun Hkey. apply bindM_Ok in Hrun as ([] & w1 & Hentry & Hrun).
    apply rewritePackageJson_Ok in Hentry as (cur & Hcur & ->).
    apply (IH _ Hrun). simpl.
    destruct (decide ((path (capsule entry), PACKAGE_JSON) = key)) as [<-|Hne].
    + exists cur. apply lookup_insert_eq.
    + by rewrite lookup_insert_ne.
Qed.

Lemma rewrite_phase_written (data : list CapsulePackageJsonData) (w w' : World) :
  forEach rewritePackageJson data w = Ok (tt, w') →
  calls w' = calls w ∧
  dirs (disk w') = dirs (disk w) ∧
  Forall
    (fun entry =>
       ∃ cur, files (disk w') !! (path (capsule entry), PACKAGE_JSON)
              = Some (JSON_stringify cur))
    data.
Proof.
  revert w. induction data as [|entry data IH]; intros w; simpl.
  - intros [= <-]. by repeat split.
  - intros Hrun. apply bindM_Ok in Hrun as ([] & w1 & Hentry & Hrun).
    apply rewritePackageJson_Ok in Hentry as (cur & Hcur & ->).
    destruct (IH _ Hrun) as (Hcalls & Hdirs & Hall).
    split; [done|]. split; [done|]. constructor; [|done].
    apply (rewrite_phase_keeps _ _ _ _ Hrun). exists cur. apply lookup_insert_eq.
Qed.

Lemma linkInCapsules_Ok (capsulesDir : string) (capsuleList : CapsuleList)
    (data : list CapsulePackageJsonData) (linkingOptions : LinkingOptions) (w w' : World) :
  linkInCapsules capsulesDir capsuleList data linkingOptions w = Ok (tt, w') →
  ∃ modified,
    getCapsulesWithModifiedPackageJson data = Ok modified ∧
    calls w' = (calls w ++ link_calls capsulesDir capsuleList linkingOptions modified)%list.
Proof.
  unfold linkInCapsules. intros Hrun.
  apply bindM_Ok in Hrun as (modified & w0 & Hread & Hrun).
  apply read_Ok in Hread as [Hread ->].
  apply bindM_Ok in Hrun as ([] & wa & Hlink & Hrun).
  apply bindM_Ok in Hrun as ([] & wb & Hroot & Hrun).
  apply bindM_Ok in Hrun as ([] & wc & Hdeps & Hrun).
  apply call_Ok in Hlink as (da & _ & ->).
  apply call_Ok in Hroot as (db & _ & ->).
  apply call_Ok in Hdeps as (dc & _ & ->).
  apply call_Ok in Hrun as (dd & _ & ->). simpl.
  exists modified. split; [done|]. unfold link_calls. by rewrite <- !app_assoc.
Qed.

Lemma set_currentPackageJson_previous (i : BitId) (packageJsonObject : Json)
    (data data' : list CapsulePackageJsonData) :
  set_currentPackageJson i packageJsonObject data = Ok data' →
  map (fun entry => (capsule entry, previousPackageJson entry)) data' =
  map (fun entry => (capsule entry, previousPackageJson entry)) data.
Proof.
  revert data'. induction data as [|entry data IH]; intros data'; simpl; [discriminate|].
  destruct (isEqual _ i).
  - by intros [= <-].
  - intros Hset. apply bind_Ok in Hset as (rest & Hrest & Hset).
    injection Hset as <-. simpl. f_equal. by apply IH.
Qed.

Lemma updateWithCurrentPackageJsonData_previous (d : Disk)
    (data data' : list CapsulePackageJsonData) (capsules : list Capsule) :
  updateWithCurrentPackageJsonData d data capsules = Ok data' →
  map (fun entry => (capsule entry, previousPackageJson entry)) data' =
  map (fun entry => (capsule entry, previousPackageJson entry)) data.
Proof.
  revert data. induction capsules as [|c capsules IH]; intros data; simpl.
  - by intros [= <-].
  - intros Hupd. apply bind_Ok in Hupd as (packageJson & _ & Hupd).
    apply bind_Ok in Hupd as (updated & Hset & Hupd).
    apply IH in Hupd as ->. by apply set_currentPackageJson_previous in Hset.
Qed.

(** The manifests that the last loop writes, with one capsule per component
    and per directory: the current manifest of each capsule. *)
Lemma rewritten_manifests_are_current (capsuleList : CapsuleList) (d2 : Disk)
    (snapshot : Capsule → Json) (data : list CapsulePackageJsonData) (w3 w' : World) :
  updateWithCurrentPackageJsonData d2
    (map (fun c => {| capsule := c; currentPackageJson := None;
                      previousPackageJson := snapshot c |}) capsuleList)
    capsuleList = Ok data →
  forEach rewritePackageJson data w3 = Ok (tt, w') →
  NoDup (map path capsuleList) →
  NoDup (map capsule_id capsuleList) →
  Forall
    (fun c =>
       ∃ cur,
         getCurrentPackageJson d2 c = Ok cur ∧
         files (disk w') !! (path c, PACKAGE_JSON) = Some (JSON_stringify cur))
    capsuleList.
Proof.
  intros Hupd Hrewrite Hpaths Hids.
  pose proof (updateWithCurrentPackageJsonData_capsules _ _ _ _ Hupd) as Hcapsules.
  rewrite map_map in Hcapsules. simpl in Hcapsules. rewrite map_id in Hcapsules.
  apply rewrite_phase_Ok in Hrewrite as (_ & _ & _ & Hall);
    [|by rewrite <- (map_map capsule path), Hcapsules].
  apply updateWithCurrentPackageJsonData_map in Hupd as [Hcurrent ->];
    [|by rewrite map_map].
  rewrite Forall_forall in Hall. rewrite Forall_forall in Hcurrent.
  apply Forall_forall. intros c Hc.
  destruct (Hall (fold_left
                    (fun e c0 => with_current (capsule_id c0) (current_manifest d2 c0) e)
                    capsuleList
                    {| capsule := c; currentPackageJson := None;
                       previousPackageJson := snapshot c |}))
    as (cur & Hcur & Hfile).
  { apply list_elem_of_fmap. eexists. split; [reflexivity|].
    by apply (list_elem_of_fmap_2
                (fun c => {| capsule := c; currentPackageJson := None;
                             previousPackageJson := snapshot c |})). }
  rewrite with_currents_own in Hcur, Hfile by done. simpl in Hcur, Hfile.
  injection Hcur as <-. exists (current_manifest d2 c). split; [by apply Hcurrent|done].
Qed.

(** What a run that is not cut short has done. *)
Lemma full_run_facts (components : list Component) (opts : IsolateComponentsOptions)
    (legacyScope : option string) (capsuleList : CapsuleList) (w1 w' : World) :
  full_run components opts legacyScope capsuleList w1 w' →
  let root := getCapsulesRootDir (baseDir opts) in
  ∃ w2 data,
    writeComponentsInCapsules components capsuleList legacyScope w1 = Ok (tt, w2) ∧
    updateWithCurrentPackageJsonData (disk w2)
      (map (fun c => {| capsule := c; currentPackageJson := None;
                        previousPackageJson := snapshot_of (disk w1) c |}) capsuleList)
      capsuleList = Ok data ∧
    map (fun entry => (capsule entry, previousPackageJson entry)) data =
      map (fun c => (c, snapshot_of (disk w1) c)) capsuleList ∧
    (if flag (property (installPackages (merged_install_options opts)))
     then ∃ modified,
         getCapsulesWithModifiedPackageJson data = Ok modified ∧
         calls w' =
           (calls w1 ++ install_call root capsuleList opts ::
              link_calls root capsuleList (default [] (linkingOptions opts)) modified)%list
     else calls w' = calls w1) ∧
    Forall
      (fun c => ∃ cur, files (disk w') !! (path c, PACKAGE_JSON) = Some (JSON_stringify cur))
      capsuleList ∧
    (NoDup (map path capsuleList) →
     NoDup (map capsule_id capsuleList) →
     Forall
       (fun c =>
          ∃ cur,
            getCurrentPackageJson (disk w2) c = Ok cur ∧
            files (disk w') !! (path c, PACKAGE_JSON) = Some (JSON_stringify cur))
       capsuleList).
Proof.
  intros (data0 & w2 & data & w3 & Hsnap & Hwrite & Hupd & Hinstall & Hrewrite) root.
  rewrite snapshot_entries in Hsnap. injection Hsnap as <-.
  exists w2, data. split; [done|]. split; [done|].
  pose proof (updateWithCurrentPackageJsonData_previous _ _ _ _ Hupd) as Hprev.
  rewrite map_map in Hprev. simpl in Hprev.
  split; [done|].
  pose proof (rewritten_manifests_are_current _ _ _ _ _ _ Hupd Hrewrite) as Hcurrent.
  apply rewrite_phase_written in Hrewrite as (Hcalls & _ & Hall).
  pose proof Hwrite as Hw2. unfold writeComponentsInCapsules in Hw2.
  apply write_phase_Ok in Hw2 as [-> _].
  split; [|split; [|done]].
  - unfold merged_install_options. destruct (flag _).
    + destruct Hinstall as (wi & Hi & Hl).
      apply call_Ok in Hi as (di & _ & ->).
      apply linkInCapsules_Ok in Hl as (modified & Hmod & Hl).
      exists modified. split; [done|]. rewrite Hcalls, Hl. simpl.
      by rewrite <- app_assoc.
    + rewrite Hcalls. by subst w3.
  - assert (map capsule data = capsuleList) as Hcaps.
    { apply (f_equal (map fst)) in Hprev. rewrite !map_map in Hprev. simpl in Hprev.
      by rewrite map_id in Hprev. }
    rewrite <- Hcaps. apply Forall_map. exact Hall.
Qed.


(** X2: [skipIfExists] is all or nothing: when a single capsule of the run
    lacks its [package.json], a successful run has gone through every phase
    for every capsule, so, with one capsule per component and per
    directory, the manifest of every capsule, also of one whose manifest
    was there, ends as the serialisation of its current manifest, computed
    after the write phase. *)
Theorem skipIfExists_is_all_or_nothing (components : list Component)
    (opts : IsolateComponentsOptions) (legacyScope : option string) (w w' : World)
    (capsuleList : CapsuleList) :
  getExistingAsIs opts = false →
  skipIfExists opts = true →
  createCapsules components opts legacyScope w = Ok (capsuleList, w') →
  Exists (fun c => existsSync (disk (world_with_capsules components opts w))
                     (path c, "package.json") = false) capsuleList →
  NoDup (map path capsuleList) →
  NoDup (map capsule_id capsuleList) →
  ∃ w2,
    writeComponentsInCapsules components capsuleList legacyScope
      (world_with_capsules components opts w) = Ok (tt, w2) ∧
    Forall
      (fun c =>
         ∃ cur,
           getCurrentPackageJson (disk w2) c = Ok cur ∧
           files (disk w') !! (path c, PACKAGE_JSON) = Some (JSON_stringify cur))
      capsuleList.
Proof.
  intros Hasis Hskip Hrun Hmissing Hpaths Hids.
  apply createCapsules_cases in Hrun as [Hcaps [[Hyes _]|[(_ & _ & Hall & _)|[_ Hfull]]]].
  - congruence.
  - exfalso. apply Exists_exists in Hmissing as (c & Hc & Hno).
    rewrite Forall_forall in Hall. specialize (Hall c Hc). congruence.
  - apply full_run_facts in Hfull as (w2 & data & Hwrite & _ & _ & _ & _ & Hall).
    exists w2. split; [done|]. by apply Hall.
Qed.


(** ** The calls of a run *)

Lemma peers_only : Forall (fun e => lifecycleType e = peer_dep) getPeersOnlyPolicy.
Proof.
  unfold getPeersOnlyPolicy, byLifecycleType. apply Forall_forall.
  intros e Hin. apply list_elem_of_In, filter_In in Hin as [_ Hpeer].
  by apply bool_decide_eq_true in Hpeer.
Qed.

Lemma modified_sublist (data : list CapsulePackageJsonData) (modified : list Capsule) :
  getCapsulesWithModifiedPackageJson data = Ok modified →
  sublist modified (map capsule data).
Proof.
  intros ->%getCapsulesWithModifiedPackageJson_Ok.
  apply (fmap_sublist capsule), filter_is_sublist.
Qed.

Lemma symlink_calls_made (before : list Call) (first : Call) (capsulesDir : string)
    (capsuleList : CapsuleList) (linkingOptions : LinkingOptions) (modified : list Capsule) :
  SymlinkDependenciesToCapsules modified capsuleList
    ∈ (before ++ first :: link_calls capsulesDir capsuleList linkingOptions modified)%list ∧
  SymlinkBitBinToCapsules modified
    ∈ (before ++ first :: link_calls capsulesDir capsuleList linkingOptions modified)%list.
Proof.
  split; apply elem_of_app; right; apply list_elem_of_In; simpl; tauto.
Qed.

Lemma data_capsules (data : list CapsulePackageJsonData) (capsuleList : CapsuleList)
    (d : Disk) :
  map (fun entry => (capsule entry, previousPackageJson entry)) data =
    map (fun c => (c, snapshot_of d c)) capsuleList →
  map capsule data = capsuleList.
Proof.
  intros Hprev. apply (f_equal (map fst)) in Hprev. rewrite !map_map in Hprev.
  simpl in Hprev. by rewrite map_id in Hprev.
Qed.

Lemma data_entry_of_capsule (data : list CapsulePackageJsonData) (capsuleList : CapsuleList)
    (d : Disk) (c : Capsule) :
  map (fun entry => (capsule entry, previousPackageJson entry)) data =
    map (fun c => (c, snapshot_of d c)) capsuleList →
  c ∈ capsuleList →
  ∃ entry, entry ∈ data ∧ capsule entry = c ∧ previousPackageJson entry = snapshot_of d c.
Proof.
  intros Hprev Hc.
  assert ((c, snapshot_of d c) ∈ map (fun c => (c, snapshot_of d c)) capsuleList) as Hin.
  { by apply (list_elem_of_fmap_2 (fun c => (c, snapshot_of d c))). }
  rewrite <- Hprev in Hin. apply list_elem_of_fmap in Hin as (entry & [= Hcap Hsnap] & Hin).
  exists entry. by rewrite Hsnap, Hcap.
Qed.

(** X4: a run that is not cut short and installs makes five calls, in this
    order: the installer, for the isolation root and all the capsules, with
    the merged options; the linker, for all the capsules; the symlinking on
    the capsule root; the symlinking of dependencies and of the bit binary,
    for some of the capsules.  The policy of the installer and of the linker
    has peer entries only. *)
Theorem full_run_installs_then_links (components : list Component)
    (opts : IsolateComponentsOptions) (legacyScope : option string) (w w' : World)
    (capsuleList : CapsuleList) :
  getExistingAsIs opts = false →
  skipIfExists opts = false →
  flag (property (installPackages (merged_install_options opts))) = true →
  createCapsules components opts legacyScope w = Ok (capsuleList, w') →
  let root := getCapsulesRootDir (baseDir opts) in
  let io := merged_install_options opts in
  let linkingOptions := default [] (linkingOptions opts) in
  let componentMap := map (fun c => (component c, path c)) capsuleList in
  Forall (fun e => lifecycleType e = peer_dep) getPeersOnlyPolicy ∧
  ∃ modified,
    sublist modified capsuleList ∧
    calls w' =
      (calls w ++
       [Install root
          (if default false (cachePackagesOnCapsulesRoot opts) then Some root else None)
          getPeersOnlyPolicy componentMap
          {| opt_installTeambitBit := flag (property (installTeambitBit io)) |}
          {| pm_dedupe := property (dedupe io);
             pm_copyPeerToRuntimeOnComponents := property (copyPeerToRuntimeOnComponents io);
             pm_copyPeerToRuntimeOnRoot := property (copyPeerToRuntimeOnRoot io) |};
        Link root linkingOptions getPeersOnlyPolicy componentMap
          (obj_set linkingOptions "legacyLink" false);
        SymlinkOnCapsuleRoot capsuleList root;
        SymlinkDependenciesToCapsules modified capsuleList;
        SymlinkBitBinToCapsules modified])%list.
Proof.
  intros Hasis Hskip Hflag Hrun. simpl. split; [apply peers_only|].
  apply createCapsules_cases in Hrun as [Hcaps [[Hyes _]|[(_ & Hyes & _)|[_ Hfull]]]];
    [congruence|congruence|].
  apply full_run_facts in Hfull as (w2 & data & _ & _ & Hprev & Hcalls & _).
  rewrite Hflag in Hcalls. destruct Hcalls as (modified & Hmod & Hcalls).
  exists modified. split; [|exact Hcalls].
  apply modified_sublist in Hmod. by rewrite (data_capsules _ _ _ Hprev) in Hmod.
Qed.

(** X5: a run that is not cut short and whose merged install options have
    [installPackages] falsy (given as [false], or given as [undefined],
    which [Object.assign] copies over the default) calls neither the
    installer nor the linker nor a symlink helper, and leaves the links as
    they were after the optional wipe; and, with one capsule per component
    and per directory, the manifest of every capsule ends as the
    serialisation of its current manifest, computed after the write
    phase. *)
Theorem run_without_installPackages_calls_nobody (components : list Component)
    (opts : IsolateComponentsOptions) (legacyScope : option string) (w w' : World)
    (capsuleList : CapsuleList) :
  getExistingAsIs opts = false →
  skipIfExists opts = false →
  flag (property (installPackages (merged_install_options opts))) = false →
  createCapsules components opts legacyScope w = Ok (capsuleList, w') →
  NoDup (map path capsuleList) →
  NoDup (map capsule_id capsuleList) →
  calls w' = calls w ∧
  ∃ w2,
    writeComponentsInCapsules components capsuleList legacyScope
      (world_with_capsules components opts w) = Ok (tt, w2) ∧
    Forall
      (fun c =>
         ∃ cur,
           getCurrentPackageJson (disk w2) c = Ok cur ∧
           files (disk w') !! (path c, PACKAGE_JSON) = Some (JSON_stringify cur))
      capsuleList.
Proof.
  intros Hasis Hskip Hflag Hrun Hpaths Hids.
  apply createCapsules_cases in Hrun as [Hcaps [[Hyes _]|[(_ & Hyes & _)|[_ Hfull]]]];
    [congruence|congruence|].
  apply full_run_facts in Hfull as (w2 & data & Hwrite & _ & _ & Hcalls & _ & Hall).
  rewrite Hflag in Hcalls. split; [done|].
  exists w2. split; [done|]. by apply Hall.
Qed.

(** X6: in a run that is not cut short and installs, a capsule whose
    snapshot has no previous manifest (the file is missing or does not
    parse) is among the capsules given to the symlinking of dependencies and
    of the bit binary. *)
Theorem capsule_without_previous_manifest_is_symlinked (components : list Component)
    (opts : IsolateComponentsOptions) (legacyScope : option string) (w w' : World)
    (capsuleList : CapsuleList) (c : Capsule) :
  getExistingAsIs opts = false →
  skipIfExists opts = false →
  flag (property (installPackages (merged_install_options opts))) = true →
  createCapsules components opts legacyScope w = Ok (capsuleList, w') →
  c ∈ capsuleList →
  snapshot_of (disk (world_with_capsules components opts w)) c = JNull →
  ∃ modified,
    c ∈ modified ∧
    SymlinkDependenciesToCapsules modified capsuleList ∈ calls w' ∧
    SymlinkBitBinToCapsules modified ∈ calls w'.
Proof.
  intros Hasis Hskip Hflag Hrun Hc Hnull.
  apply createCapsules_cases in Hrun as [Hcaps [[Hyes _]|[(_ & Hyes & _)|[_ Hfull]]]];
    [congruence|congruence|].
  apply full_run_facts in Hfull as (w2 & data & _ & _ & Hprev & Hcalls & _).
  rewrite Hflag in Hcalls. destruct Hcalls as (modified & Hmod & Hcalls).
  exists modified. split; [|rewrite Hcalls; apply symlink_calls_made].
  apply getCapsulesWithModifiedPackageJson_Ok in Hmod as ->.
  destruct (data_entry_of_capsule _ _ _ c Hprev Hc) as (entry & Hin & <- & Hentry).
  apply (list_elem_of_fmap_2 capsule). apply list_elem_of_In, filter_In.
  split; [by apply list_elem_of_In|].
  unfold is_changed, wereDependenciesInPackageJsonChanged.
  by rewrite Hentry, Hnull.
Qed.

(** X7: in a run that is not cut short and installs, with one capsule per
    component, a capsule whose previous manifest and whose current manifest
    (computed after the write phase) are objects in which every dependency
    field has the same value is not among the capsules given to the
    symlinking of dependencies and of the bit binary. *)
Theorem capsule_with_unchanged_dependencies_is_not_symlinked (components : list Component)
    (opts : IsolateComponentsOptions) (legacyScope : option string) (w w' w2 : World)
    (capsuleList : CapsuleList) (c : Capsule) (pprops cprops : list (string * Json)) :
  getExistingAsIs opts = false →
  skipIfExists opts = false →
  flag (property (installPackages (merged_install_options opts))) = true →
  createCapsules components opts legacyScope w = Ok (capsuleList, w') →
  NoDup (map capsule_id capsuleList) →
  snapshot_of (disk (world_with_capsules components opts w)) c = JObj pprops →
  writeComponentsInCapsules components capsuleList legacyScope
    (world_with_capsules components opts w) = Ok (tt, w2) →
  getCurrentPackageJson (disk w2) c = Ok (JObj cprops) →
  unique_keys (JObj pprops) = true →
  unique_keys (JObj cprops) = true →
  (∀ field, field ∈ DEPENDENCIES_FIELDS →
     same_value (assoc field pprops) (assoc field cprops)) →
  ∃ modified,
    (c ∉ modified) ∧
    SymlinkDependenciesToCapsules modified capsuleList ∈ calls w' ∧
    SymlinkBitBinToCapsules modified ∈ calls w'.
Proof.
  intros Hasis Hskip Hflag Hrun Hids Hprevious Hwrite Hcurrent Hpkeys Hckeys Hsame.
  assert (∀ field, field ∈ DEPENDENCIES_FIELDS →
                   equals (assoc field pprops) (assoc field cprops) = true) as Hequal.
  { intros field Hfield. apply field_values_agree; [done|done|]. by apply Hsame. }
  apply createCapsules_cases in Hrun as [Hcaps [[Hyes _]|[(_ & Hyes & _)|[_ Hfull]]]];
    [congruence|congruence|].
  apply full_run_facts in Hfull as (w2' & data & Hwrite' & Hupd & _ & Hcalls & _).
  rewrite Hwrite in Hwrite'.
  injection Hwrite' as <-.
  rewrite Hflag in Hcalls. destruct Hcalls as (modified & Hmod & Hcalls).
  exists modified. split; [|rewrite Hcalls; apply symlink_calls_made].
  apply getCapsulesWithModifiedPackageJson_Ok in Hmod as ->.
  apply updateWithCurrentPackageJsonData_map in Hupd as [_ ->]; [|by rewrite map_map].
  intros Hin. apply list_elem_of_fmap in Hin as (entry & -> & Hin).
  apply list_elem_of_In, filter_In in Hin as [Hin Hchanged].
  apply list_elem_of_In, list_elem_of_fmap in Hin as (entry0 & -> & Hin0).
  apply list_elem_of_fmap in Hin0 as (c0 & -> & Hc0).
  rewrite with_currents_own in Hchanged by done. simpl in Hchanged.
  rewrite with_currents_own in Hcurrent, Hprevious by done. simpl in *.
  unfold is_changed, current_manifest in Hchanged.
  rewrite Hcurrent, Hprevious, diff_of_objects in Hchanged.
  assert (existsb (fun field => negb (equals (assoc field pprops) (assoc field cprops)))
            DEPENDENCIES_FIELDS = false) as Hnone.
  { apply not_true_is_false. intros (field & Hfield & Hne)%existsb_exists.
    rewrite Hequal in Hne by (by apply list_elem_of_In). done. }
  by rewrite Hnone in Hchanged.
Qed.

Lemma capsules_of_in_root (components : list Component) (root : string)
    (opts : IsolateComponentsOptions) (n : nat) (c : Capsule) :
  c ∈ capsules_of components root opts n →
  ∃ k, path c = path_join root (capsuleDir (component c) opts k).
Proof.
  revert n. induction components as [|c0 components IH]; intros n; simpl.
  - by intros ?%elem_of_nil.
  - intros [->|Hin]%elem_of_cons; [by exists n|]. by apply IH in Hin.
Qed.

Lemma snapshot_of_missing (d : Disk) (c : Capsule) :
  files d !! (path c, "package.json") = None → snapshot_of d c = JNull.
Proof.
  intros Hnone. unfold snapshot_of, readFile. rewrite Hnone.
  by destruct (isDirectory d _).
Qed.

(** X8: with [emptyRootDir], a run that is not cut short and installs finds
    no previous manifest in any capsule, so it gives every capsule to the
    symlinking of dependencies and of the bit binary. *)
Theorem emptyRootDir_symlinks_every_capsule (components : list Component)
    (opts : IsolateComponentsOptions) (legacyScope : option string) (w w' : World)
    (capsuleList : CapsuleList) :
  emptyRootDir opts = true →
  getExistingAsIs opts = false →
  skipIfExists opts = false →
  flag (property (installPackages (merged_install_options opts))) = true →
  createCapsules components opts legacyScope w = Ok (capsuleList, w') →
  Forall (fun c => snapshot_of (disk (world_with_capsules components opts w)) c = JNull)
    capsuleList ∧
  SymlinkDependenciesToCapsules capsuleList capsuleList ∈ calls w' ∧
  SymlinkBitBinToCapsules capsuleList ∈ calls w'.
Proof.
  intros Hempty Hasis Hskip Hflag Hrun.
  apply createCapsules_cases in Hrun as [Hcaps [[Hyes _]|[(_ & Hyes & _)|[_ Hfull]]]];
    [congruence|congruence|].
  assert (Forall (fun c => snapshot_of (disk (world_with_capsules components opts w)) c
                           = JNull) capsuleList) as Hnull.
  { rewrite Hcaps. apply Forall_forall. intros c Hc.
    apply capsules_of_in_root in Hc as [k Hpath].
    apply snapshot_of_missing. unfold world_with_capsules, after_emptyRootDir.
    rewrite Hempty. simpl. rewrite ensureDirs_files. simpl.
    apply map_lookup_filter_None_2. right. intros content _. simpl.
    by rewrite Hpath, within_path_join. }
  split; [done|].
  apply full_run_facts in Hfull as (w2 & data & _ & _ & Hprev & Hcalls & _).
  rewrite Hflag in Hcalls. destruct Hcalls as (modified & Hmod & Hcalls).
  apply getCapsulesWithModifiedPackageJson_Ok in Hmod.
  assert (modified = capsuleList) as ->.
  { rewrite Hmod, <- (data_capsules _ _ _ Hprev) at 1. f_equal.
    apply filter_Forall_all, Forall_forall. intros entry Hin.
    assert ((capsule entry, previousPackageJson entry) ∈
            map (fun c => (c, snapshot_of (disk (world_with_capsules components opts w)) c))
              capsuleList) as Hpair.
    { rewrite <- Hprev.
      by apply (list_elem_of_fmap_2
                  (fun entry => (capsule entry, previousPackageJson entry))). }
    apply list_elem_of_fmap in Hpair as (c & [= Hc Hp] & Hin').
    rewrite Forall_forall in Hnull.
    unfold is_changed, wereDependenciesInPackageJsonChanged.
    pose proof (Hnull c Hin') as Hn. unfold world_with_capsules in Hn. simpl in Hn.
    by rewrite Hp, Hn. }
  rewrite Hcalls. apply symlink_calls_made.
Qed.

(** ** The edges of the manifest diff *)

Lemma get_field_of_truthy (j : Json) (field : string) :
  truthy j = true → ∃ v, get_field (Some j) field = Ok v.
Proof. destruct j; simpl; try discriminate; eauto. Qed.

Lemma get_field_throws (v : JsVal) (field : string) (e : JsError) :
  get_field v field = Err e ↔ e = TypeError ∧ (v = None ∨ v = Some JNull).
Proof.
  destruct v as [[]|]; simpl; split; try discriminate; try (intros [= <-]; eauto);
    try (intros [-> [?|?]]; done).
Qed.

(** X9: the diff of an entry throws in one case only: the previous manifest
    is truthy, there is a dependency field to compare, and the current
    manifest is unset or [null]; what it throws is a [TypeError].  A falsy
    previous manifest ([null], [0], [false], the empty string) gives
    [true] without a look at the current one, and with no dependency field
    to compare a truthy previous manifest gives [false]. *)
Theorem manifest_diff_throws_iff (entry : CapsulePackageJsonData) :
  (truthy (previousPackageJson entry) = false →
   wereDependenciesInPackageJsonChanged entry = Ok true) ∧
  (truthy (previousPackageJson entry) = true → DEPENDENCIES_FIELDS = [] →
   wereDependenciesInPackageJsonChanged entry = Ok false) ∧
  (∀ e, wereDependenciesInPackageJsonChanged entry = Err e ↔
        e = TypeError ∧
        truthy (previousPackageJson entry) = true ∧
        DEPENDENCIES_FIELDS ≠ [] ∧
        (currentPackageJson entry = None ∨ currentPackageJson entry = Some JNull)).
Proof.
  destruct entry as [c cur prev]. unfold wereDependenciesInPackageJsonChanged.
  cbn [previousPackageJson currentPackageJson].
  destruct (truthy prev) eqn:Htruthy; cbn [bind].
  - split; [discriminate|]. split; [by intros _ ->|].
    intros e. destruct DEPENDENCIES_FIELDS as [|field fields]; cbn [some_result bind].
    + split; [discriminate|]. by intros (_ & _ & ? & _).
    + destruct (get_field_of_truthy prev field Htruthy) as [p ->]. cbn [bind].
      destruct (get_field cur field) as [v|e'] eqn:Hcur; cbn [bind].
      * assert (∀ f, ∃ v', get_field cur f = Ok v') as Hall.
        { intros f. destruct cur as [[]|]; simpl in *; try discriminate; eauto. }
        assert (∀ fs, ∃ b', some_result
                   (fun field0 =>
                      let* p0 := get_field (Some prev) field0 in
                      let* c0 := get_field cur field0 in Ok (negb (equals p0 c0))) fs = Ok b')
          as Hsome.
        { intros fs. induction fs as [|f fs [b' IH]]; cbn [some_result bind]; [eauto|].
          destruct (get_field_of_truthy prev f Htruthy) as [p' ->].
          destruct (Hall f) as [v' ->]. cbn [bind].
          destruct (negb (equals p' v')); eauto. }
        split.
        -- destruct (negb (equals p v)); [discriminate|].
           destruct (Hsome fields) as [b' ->]. discriminate.
        -- intros (_ & _ & _ & Hunset). exfalso.
           destruct Hunset as [->| ->]; simpl in Hcur; discriminate.
      * apply get_field_throws in Hcur as [-> Hunset].
        split; [intros [= <-]; done|]. by intros (-> & _).
  - split; [done|]. split; [discriminate|].
    intros e. split; [discriminate|]. by intros (_ & ? & _).
Qed.

(** ** The update of the entries with the current manifests *)

Lemma Forall2_compose {A} (R1 R2 R3 : A → A → Prop) (l1 l2 l3 : list A) :
  (∀ a b c, R1 a b → R2 b c → R3 a c) →
  Forall2 R1 l1 l2 → Forall2 R2 l2 l3 → Forall2 R3 l1 l3.
Proof.
  intros Hcomp H12. revert l3. induction H12 as [|a b l1 l2 Hab _ IH]; intros l3 H23.
  - inversion H23. constructor.
  - inversion H23 as [|b' c l2' l3' Hbc H23']; subst. constructor; eauto.
Qed.

Lemma set_currentPackageJson_entries (i : BitId) (packageJsonObject : Json)
    (data data' : list CapsulePackageJsonData) :
  set_currentPackageJson i packageJsonObject data = Ok data' →
  Forall2
    (fun entry entry' =>
       capsule entry' = capsule entry ∧
       previousPackageJson entry' = previousPackageJson entry ∧
       (currentPackageJson entry' = currentPackageJson entry ∨
        capsule_id (capsule entry) = i ∧ currentPackageJson entry' = Some packageJsonObject))
    data data'.
Proof.
  revert data'. induction data as [|entry data IH]; intros data'; simpl; [discriminate|].
  destruct (isEqual _ i) eqn:Hid.
  - intros [= <-]. apply bool_decide_eq_true in Hid.
    constructor; [simpl; eauto|]. apply Forall2_same_length_lookup_2; [done|].
    intros k x y Hx Hy. rewrite Hx in Hy. injection Hy as <-. eauto.
  - intros Hset. apply bind_Ok in Hset as (rest & Hrest & Hset).
    injection Hset as <-. constructor; [eauto|by apply IH].
Qed.

Lemma set_currentPackageJson_succeeds (i : BitId) (packageJsonObject : Json)
    (data : list CapsulePackageJsonData) :
  i ∈ map (fun entry => capsule_id (capsule entry)) data →
  ∃ data', set_currentPackageJson i packageJsonObject data = Ok data'.
Proof.
  induction data as [|entry data IH]; simpl; intros Hin.
  - by apply elem_of_nil in Hin.
  - destruct (isEqual _ i) eqn:Hid; [eauto|].
    apply bool_decide_eq_false in Hid.
    apply elem_of_cons in Hin as [Heq|Hin]; [by symmetry in Heq|].
    destruct (IH Hin) as [rest ->]. simpl. eauto.
Qed.

Lemma set_currentPackageJson_fails (i : BitId) (packageJsonObject : Json)
    (data : list CapsulePackageJsonData) :
  i ∉ map (fun entry => capsule_id (capsule entry)) data →
  set_currentPackageJson i packageJsonObject data =
  Err (GenericError ("updateWithCurrentPackageJsonData unable to find " ++ toString i)).
Proof.
  induction data as [|entry data IH]; simpl; intros Hnot; [done|].
  apply not_elem_of_cons in Hnot as [Hne Hnot].
  unfold isEqual. rewrite bool_decide_eq_false_2 by (by intros Heq; apply Hne).
  by rewrite IH.
Qed.

Lemma entry_ids_kept (data data' : list CapsulePackageJsonData) :
  map capsule data' = map capsule data →
  map (fun entry => capsule_id (capsule entry)) data' =
  map (fun entry => capsule_id (capsule entry)) data.
Proof.
  intros Hcaps. rewrite <- (map_map capsule capsule_id data').
  rewrite <- (map_map capsule capsule_id data). by rewrite Hcaps.
Qed.

(** X10: when the update of the entries succeeds, the entries keep their
    order, their capsule and their previous manifest, and the current
    manifest of an entry is either the one it had or the manifest computed
    for a capsule of the same component; so the entries of components that
    have no capsule in the list are left as they were. *)
Theorem update_sets_current_manifests_only (d : Disk)
    (data data' : list CapsulePackageJsonData) (capsules : list Capsule) :
  updateWithCurrentPackageJsonData d data capsules = Ok data' →
  Forall2
    (fun entry entry' =>
       capsule entry' = capsule entry ∧
       previousPackageJson entry' = previousPackageJson entry ∧
       (currentPackageJson entry' = currentPackageJson entry ∨
        ∃ c packageJson,
          c ∈ capsules ∧ capsule_id c = capsule_id (capsule entry) ∧
          getCurrentPackageJson d c = Ok packageJson ∧
          currentPackageJson entry' = Some packageJson))
    data data' ∧
  (∀ k entry entry',
     data !! k = Some entry → data' !! k = Some entry' →
     capsule_id (capsule entry) ∉ map capsule_id capsules → entry' = entry).
Proof.
  intros Hupd.
  assert (Forall2
    (fun entry entry' =>
       capsule entry' = capsule entry ∧
       previousPackageJson entry' = previousPackageJson entry ∧
       (currentPackageJson entry' = currentPackageJson entry ∨
        ∃ c packageJson,
          c ∈ capsules ∧ capsule_id c = capsule_id (capsule entry) ∧
          getCurrentPackageJson d c = Ok packageJson ∧
          currentPackageJson entry' = Some packageJson))
    data data') as Hall.
  { revert data Hupd. induction capsules as [|c capsules IH]; intros data; simpl.
    - intros [= <-]. apply Forall2_same_length_lookup_2; [done|].
      intros k x y Hx Hy. rewrite Hx in Hy. injection Hy as <-. eauto.
    - intros Hupd. apply bind_Ok in Hupd as (packageJson & Hcur & Hupd).
      apply bind_Ok in Hupd as (updated & Hset & Hupd).
      apply set_currentPackageJson_entries in Hset. apply IH in Hupd.
      refine (Forall2_compose _ _ _ _ _ _ _ Hset Hupd).
      intros a b c' Hab Hbc.
      destruct Hab as (Hc1 & Hp1 & Hcur1), Hbc as (Hc2 & Hp2 & Hcur2).
      split; [congruence|]. split; [congruence|].
      destruct Hcur2 as [Hsame|(c2 & pj2 & Hin2 & Hid2 & Hcur2 & Hset2)].
      + destruct Hcur1 as [Hsame1|[Hid1 Hset1]]; [left; congruence|].
        right. exists c, packageJson. rewrite Hsame. repeat split; try done. by left.
      + right. exists c2, pj2. repeat split; try done; [by right|congruence]. }
  split; [done|].
  intros k entry entry' Hk Hk' Hnot.
  destruct (Forall2_lookup_lr _ _ _ _ _ _ Hall Hk Hk') as (Hc & Hp & Hcur).
  destruct Hcur as [Hsame|(c & pj & Hin & Hid & _)].
  - destruct entry, entry'; simpl in *; congruence.
  - exfalso. apply Hnot. rewrite <- Hid. by apply (list_elem_of_fmap_2 capsule_id).
Qed.

(** X11: the update of the entries succeeds exactly when the manifest of
    every capsule can be loaded and every capsule has an entry of its
    component; a capsule without an entry, after capsules that are fine,
    raises the error that names its component. *)
Theorem update_succeeds_iff (d : Disk) (data : list CapsulePackageJsonData)
    (capsules : list Capsule) :
  ((∃ data', updateWithCurrentPackageJsonData d data capsules = Ok data') ↔
   Forall
     (fun c =>
        (∃ packageJson, getCurrentPackageJson d c = Ok packageJson) ∧
        capsule_id c ∈ map (fun entry => capsule_id (capsule entry)) data)
     capsules) ∧
  (∀ before c after packageJson,
     capsules = (before ++ c :: after)%list →
     Forall
       (fun c =>
          (∃ packageJson, getCurrentPackageJson d c = Ok packageJson) ∧
          capsule_id c ∈ map (fun entry => capsule_id (capsule entry)) data)
       before →
     getCurrentPackageJson d c = Ok packageJson →
     capsule_id c ∉ map (fun entry => capsule_id (capsule entry)) data →
     updateWithCurrentPackageJsonData d data capsules =
     Err (GenericError
            ("updateWithCurrentPackageJsonData unable to find " ++ toString (capsule_id c)))).
Proof.
  split.
  - revert data. induction capsules as [|c capsules IH]; intros data; simpl.
    + split; [constructor|eauto].
    + split.
      * intros [data' Hupd]. apply bind_Ok in Hupd as (packageJson & Hcur & Hupd).
        apply bind_Ok in Hupd as (updated & Hset & Hupd).
        pose proof (set_currentPackageJson_capsules _ _ _ _ Hset) as Hcaps.
        constructor.
        -- split; [eauto|].
           destruct (decide (capsule_id c ∈
                       map (fun entry => capsule_id (capsule entry)) data))
             as [|Hnot]; [done|].
           fold (capsule_id c) in Hset.
           rewrite set_currentPackageJson_fails in Hset by done. discriminate.
        -- rewrite <- (entry_ids_kept _ _ Hcaps). apply IH. eauto.
      * intros [[[packageJson Hcur] Hid] Hrest]%Forall_cons. rewrite Hcur. simpl.
        destruct (set_currentPackageJson_succeeds _ packageJson _ Hid) as [updated Hset].
        fold (capsule_id c). rewrite Hset. simpl.
        apply IH.
        by rewrite (entry_ids_kept _ _ (set_currentPackageJson_capsules _ _ _ _ Hset)).
  - intros before c after packageJson ->. revert data.
    induction before as [|c0 before IH]; intros data Hfine Hcur Hnot; simpl.
    + rewrite Hcur. simpl. fold (capsule_id c).
      by rewrite set_currentPackageJson_fails.
    + apply Forall_cons in Hfine as [[[pj0 Hcur0] Hid0] Hfine].
      rewrite Hcur0. simpl.
      destruct (set_currentPackageJson_succeeds _ pj0 _ Hid0) as [updated Hset].
      fold (capsule_id c0). rewrite Hset. simpl.
      pose proof (entry_ids_kept _ _ (set_currentPackageJson_capsules _ _ _ _ Hset)) as Hids.
      apply (IH updated); [by rewrite Hids|done|by rewrite Hids].
Qed.

(** X12: on the snapshot of the same capsules, as in [createCapsules], the
    update never raises the error of the missing entry: when it fails, the
    manifest of some capsule could not be loaded, and the failure is that
    one. *)
Theorem update_of_own_snapshot_fails_on_load_only (d0 d : Disk) (capsules : list Capsule)
    (data0 : list CapsulePackageJsonData) (e : JsError) :
  getCapsulesPreviousPackageJson d0 capsules = Ok data0 →
  updateWithCurrentPackageJsonData d data0 capsules = Err e →
  ∃ c, c ∈ capsules ∧ getCurrentPackageJson d c = Err e.
Proof.
  intros Hsnap. rewrite snapshot_entries in Hsnap. injection Hsnap as <-.
  assert (∀ data : list CapsulePackageJsonData,
            (∀ c, c ∈ capsules →
                  capsule_id c ∈ map (fun entry => capsule_id (capsule entry)) data) →
            updateWithCurrentPackageJsonData d data capsules = Err e →
            ∃ c, c ∈ capsules ∧ getCurrentPackageJson d c = Err e) as Hgen.
  { induction capsules as [|c capsules IH]; intros data Hids; simpl; [discriminate|].
    destruct (getCurrentPackageJson d c) as [packageJson|e'] eqn:Hcur; simpl.
    - destruct (set_currentPackageJson_succeeds (capsule_id c) packageJson data)
        as [updated Hset]; [apply Hids; left|].
      fold (capsule_id c). rewrite Hset. simpl. intros Hupd.
      destruct (IH updated) as (c' & Hin & Hfail); [|done|].
      + intros c' Hc'.
        rewrite (entry_ids_kept _ _ (set_currentPackageJson_capsules _ _ _ _ Hset)).
        apply Hids. by right.
      + exists c'. split; [by right|done].
    - intros [= <-]. exists c. split; [left|done]. }
  apply Hgen. intros c Hc. rewrite map_map. simpl.
  by apply (list_elem_of_fmap_2 capsule_id).
Qed.

(** ** The bit dependencies of a manifest *)

Lemma assoc_obj_set {V} (kvs : list (string * V)) (k k' : string) (v : V) :
  assoc k' (obj_set kvs k v) = if String.eqb k' k then Some v else assoc k' kvs.
Proof.
  induction kvs as [|[k0 v0] kvs IH]; simpl.
  - by destruct (String.eqb k' k).
  - destruct (String.eqb_spec k k0) as [->|Hne]; simpl.
    + by destruct (String.eqb k' k0).
    + rewrite IH. destruct (String.eqb_spec k' k0) as [->|]; [|done].
      destruct (String.eqb_spec k0 k); [by subst|done].
Qed.

Lemma keys_obj_set {V} (kvs : list (string * V)) (k : string) (v : V) :
  map fst (obj_set kvs k v) =
  if bool_decide (k ∈ map fst kvs) then map fst kvs else (map fst kvs ++ [k])%list.
Proof.
  induction kvs as [|[k0 v0] kvs IH]; simpl; [done|].
  destruct (String.eqb_spec k k0) as [->|Hne]; simpl.
  - rewrite bool_decide_eq_true_2; [done|left].
  - rewrite IH. destruct (decide (k ∈ map fst kvs)) as [Hin|Hnot].
    + rewrite !bool_decide_eq_true_2; [done|by right|done].
    + rewrite !bool_decide_eq_false_2; [done| |done].
      by intros [?|?]%elem_of_cons.
Qed.

Lemma keys_obj_set_NoDup {V} (kvs : list (string * V)) (k : string) (v : V) :
  NoDup (map fst kvs) → NoDup (map fst (obj_set kvs k v)).
Proof.
  intros Hnodup. rewrite keys_obj_set.
  destruct (decide (k ∈ map fst kvs)) as [Hin|Hnot].
  - by rewrite bool_decide_eq_true_2.
  - rewrite bool_decide_eq_false_2 by done.
    apply NoDup_app. split; [done|]. split; [|apply NoDup_singleton].
    intros x Hx ->%list_elem_of_singleton. done.
Qed.

Lemma assoc_obj_assign_absent {V} (a b : list (string * V)) (k : string) :
  assoc k b = None → assoc k (obj_assign a b) = assoc k a.
Proof.
  unfold obj_assign. revert a. induction b as [|[k0 v0] b IH]; intros a; simpl; [done|].
  destruct (String.eqb_spec k k0) as [->|Hne]; [discriminate|].
  intros Hnone. rewrite IH by done. rewrite assoc_obj_set.
  destruct (String.eqb_spec k k0); [by subst|done].
Qed.

Lemma assoc_obj_assign_present {V} (a b : list (string * V)) (k : string) (v : V) :
  NoDup (map fst b) → assoc k b = Some v → assoc k (obj_assign a b) = Some v.
Proof.
  unfold obj_assign. revert a. induction b as [|[k0 v0] b IH]; intros a; simpl; [discriminate|].
  intros [Hnot Hnodup]%NoDup_cons.
  destruct (String.eqb_spec k k0) as [->|Hne].
  - intros [= ->].
    assert (assoc k0 b = None) as Hnone.
    { destruct (assoc k0 b) eqn:Hsome; [|done].
      exfalso. apply Hnot, assoc_is_Some. by rewrite Hsome. }
    pose proof (assoc_obj_assign_absent (obj_set a k0 v) b k0 Hnone) as Habsent.
    unfold obj_assign in Habsent. rewrite Habsent, assoc_obj_set.
    by rewrite String.eqb_refl.
  - intros Hsome. by apply IH.
Qed.

Lemma keys_obj_assign_NoDup {V} (a b : list (string * V)) :
  NoDup (map fst a) → NoDup (map fst (obj_assign a b)).
Proof.
  unfold obj_assign. revert a. induction b as [|[k0 v0] b IH]; intros a; simpl; [done|].
  intros Hnodup. by apply IH, keys_obj_set_NoDup.
Qed.

(** The loop of [getBitDependencies], from any object. *)
Lemma bit_dependencies_loop (c : Component) (dependencies : list BitId)
    (acc : list (string * Json)) :
  let loop :=
    fold_left
      (fun acc depId =>
         obj_set acc (componentIdToPackageName c depId)
           (JStr (if hasVersion depId then version_of depId else "0.0.1-new")))
      dependencies acc in
  (NoDup (map fst acc) → NoDup (map fst loop)) ∧
  (∀ packageName,
     is_Some (assoc packageName loop) ↔
     is_Some (assoc packageName acc) ∨
     ∃ depId, depId ∈ dependencies ∧ componentIdToPackageName c depId = packageName) ∧
  (∀ packageName,
     Forall (fun depId => componentIdToPackageName c depId ≠ packageName) dependencies →
     assoc packageName loop = assoc packageName acc).
Proof.
  revert acc. induction dependencies as [|depId dependencies IH]; intros acc; simpl.
  - split; [done|]. split; [|done].
    intros packageName. split; [by left|]. intros [?|(? & ?%elem_of_nil & _)]; done.
  - destruct (IH (obj_set acc (componentIdToPackageName c depId)
                    (JStr (if hasVersion depId then version_of depId else "0.0.1-new"))))
      as (Hnodup & Hkeys & Hlast).
    split; [|split].
    + intros Hacc. by apply Hnodup, keys_obj_set_NoDup.
    + intros packageName. rewrite Hkeys, assoc_obj_set.
      destruct (String.eqb_spec packageName (componentIdToPackageName c depId)) as [->|Hne].
      * split; [|by eauto]. intros _. right. exists depId. split; [left|done].
      * split.
        -- intros [?|(depId' & Hin & Hname)]; [by left|].
           right. exists depId'. split; [by right|done].
        -- intros [?|(depId' & Hin & Hname)]; [by left|].
           apply elem_of_cons in Hin as [->|Hin]; [by subst|].
           right. eauto.
    + intros packageName [Hne Hrest]%Forall_cons.
      rewrite Hlast, assoc_obj_set by done.
      destruct (String.eqb_spec packageName (componentIdToPackageName c depId)); [by subst|done].
Qed.

Lemma bit_dependencies_NoDup (c : Component) (dependencies : list BitId) :
  NoDup (map fst (getBitDependencies c dependencies)).
Proof.
  unfold getBitDependencies.
  destruct (bit_dependencies_loop c dependencies []) as (Hnodup & _).
  apply Hnodup. constructor.
Qed.

(** X13: the object that [getBitDependencies] builds for a component has
    one property per package name of its dependencies and no other, no name
    twice; the value under a name is the version of the last dependency
    with that package name, and the placeholder [0.0.1-new] when that
    dependency has no version. *)
Theorem bit_dependencies_by_package_name (c : Component) (dependencies : list BitId) :
  NoDup (map fst (getBitDependencies c dependencies)) ∧
  (∀ packageName,
     is_Some (assoc packageName (getBitDependencies c dependencies)) ↔
     ∃ depId, depId ∈ dependencies ∧ componentIdToPackageName c depId = packageName) ∧
  (∀ before depId after,
     dependencies = (before ++ depId :: after)%list →
     Forall (fun later => componentIdToPackageName c later ≠ componentIdToPackageName c depId)
       after →
     assoc (componentIdToPackageName c depId) (getBitDependencies c dependencies) =
     Some (JStr match id_version depId with
                | Some version => version
                | None => "0.0.1-new"
                end)).
Proof.
  unfold getBitDependencies.
  destruct (bit_dependencies_loop c dependencies []) as (Hnodup & Hkeys & _).
  split; [apply Hnodup; constructor|]. split.
  - intros packageName. rewrite (Hkeys packageName). simpl.
    split; [intros [[? ?]|?]; done|by right].
  - intros before depId after -> Hlast.
    rewrite fold_left_app. simpl.
    destruct (bit_dependencies_loop c after
                (obj_set
                   (fold_left
                      (fun acc depId0 =>
                         obj_set acc (componentIdToPackageName c depId0)
                           (JStr (if hasVersion depId0 then version_of depId0
                                  else "0.0.1-new")))
                      before [])
                   (componentIdToPackageName c depId)
                   (JStr (if hasVersion depId then version_of depId else "0.0.1-new"))))
      as (_ & _ & Hafter).
    simpl in Hafter. rewrite Hafter by done.
    rewrite assoc_obj_set, String.eqb_refl.
    unfold hasVersion, version_of. by destruct (id_version depId).
Qed.

Lemma getCurrentPackageJson_bitDependencies (d : Disk) (capsule : Capsule) :
  getCurrentPackageJson d capsule =
  let c := component capsule in
  let* packageJson := loadFromCapsuleSync d (path capsule) in
  Ok (addOrUpdateProperty "version" (packageDependency_of (component_id c))
        (addDevDependencies
           (obj_assign (getBitDependencies c (devDependencies c))
              (getBitDependencies c (extensionsBitIds c)))
           (addDependencies (getBitDependencies c (dependencies c)) packageJson))).
Proof. reflexivity. Qed.

(** X14: the current manifest of a capsule is the manifest loaded from the
    capsule with three properties set.  [version] is the version of the
    component, or the placeholder.  [dependencies] holds every bit
    dependency of the component and keeps what the loaded manifest had
    under other names; [devDependencies] holds the bit extension
    dependencies, then the bit development dependencies that no extension
    dependency overrides, and keeps the rest of the loaded ones.  Every
    other property is the loaded one. *)
Theorem current_manifest_of_capsule (d : Disk) (capsule : Capsule) (current : Json) :
  getCurrentPackageJson d capsule = Ok current →
  let c := component capsule in
  ∃ loaded props,
    loadFromCapsuleSync d (path capsule) = Ok loaded ∧
    current = JObj props ∧
    assoc "version" props =
      Some (JStr match id_version (component_id c) with
                 | Some version => version
                 | None => "0.0.1-new"
                 end) ∧
    (∀ name,
       assoc name (props_of (assoc "dependencies" props)) =
       match assoc name (getBitDependencies c (dependencies c)) with
       | Some version => Some version
       | None => assoc name (props_of (assoc "dependencies" (props_of (Some loaded))))
       end) ∧
    (∀ name,
       assoc name (props_of (assoc "devDependencies" props)) =
       match assoc name (getBitDependencies c (extensionsBitIds c)) with
       | Some version => Some version
       | None =>
           match assoc name (getBitDependencies c (devDependencies c)) with
           | Some version => Some version
           | None => assoc name (props_of (assoc "devDependencies" (props_of (Some loaded))))
           end
       end) ∧
    (∀ name,
       name ≠ "version" → name ≠ "dependencies" → name ≠ "devDependencies" →
       assoc name props = assoc name (props_of (Some loaded))).
Proof.
  rewrite getCurrentPackageJson_bitDependencies. simpl.
  intros Hcur. apply bind_Ok in Hcur as (loaded & Hload & Hcur).
  injection Hcur as <-.
  set (c := component capsule).
  assert (∀ a b name, NoDup (map fst b) →
            assoc name (obj_assign a b) =
            match assoc name b with
            | Some version => Some version
            | None => assoc name a
            end :> option Json) as Hassign.
  { intros a b name Hnodup. destruct (assoc name b) as [version|] eqn:Hb.
    - by apply assoc_obj_assign_present.
    - by apply assoc_obj_assign_absent. }
  pose proof (bit_dependencies_NoDup c) as Hkeys.
  eexists loaded, _. split; [done|]. split; [reflexivity|].
  unfold addOrUpdateProperty, addDevDependencies, addDependencies, packageDependency_of.
  cbn [props_of]. rewrite !assoc_obj_set. cbn [String.eqb Ascii.eqb Bool.eqb andb].
  split; [|split; [|split]].
  - unfold hasVersion, version_of. by destruct (id_version (component_id c)).
  - intros name. cbn [props_of]. by rewrite Hassign by apply Hkeys.
  - intros name. cbn [props_of].
    rewrite Hassign by (apply keys_obj_assign_NoDup, Hkeys).
    rewrite Hassign by apply Hkeys.
    by destruct (assoc name (getBitDependencies c (extensionsBitIds c))).
  - intros name Hv Hd Hdd. rewrite !assoc_obj_set.
    destruct (String.eqb_spec name "version"); [done|].
    destruct (String.eqb_spec name "devDependencies"); [done|].
    by destruct (String.eqb_spec name "dependencies").
Qed.

(** ** The components of a run *)

(** X15: with [seedersOnly] the capsules of the network are those of the
    components that the host returns for the seeders, one each and in that
    order, and the graph is not asked; each sits in the isolation root
    under the stable directory name of its component, followed by a random
    suffix when [alwaysNew] asks for one; when the host fails to return the
    components the run fails with that error. *)
Theorem seedersOnly_isolates_the_seeders (seeders : list BitId)
    (opts : IsolateComponentsOptions) (legacyScope : option string) :
  seedersOnly opts = true →
  (∀ w w' n,
     isolateComponents seeders opts legacyScope w = Ok (n, w') →
     host_getMany seeders = Ok (map component (network_capsules n)) ∧
     network_seeders n = seeders ∧
     Forall
       (fun capsule =>
          (alwaysNew opts = false →
           path capsule =
           path_join (network_capsulesRootDir n)
             (capsuleDirName (component capsule)
                (with_baseDir opts (baseDir_or_host opts)))) ∧
          (alwaysNew opts = true →
           ∃ k,
             path capsule =
             path_join (network_capsulesRootDir n)
               (capsuleDirName (component capsule)
                  (with_baseDir opts (baseDir_or_host opts)) ++ randomSuffix k)))
       (network_capsules n)) ∧
  (∀ w e, host_getMany seeders = Err e →
          isolateComponents seeders opts legacyScope w = Err e).
Proof.
  intros Hseeders. split.
  - intros w w' n Hrun.
    apply isolateComponents_Ok in Hrun as (components & Hcomps & Hcreate & Hs & Hroot).
    rewrite Hseeders in Hcomps.
    apply createCapsules_cases in Hcreate as [Hcaps _]. simpl in Hcaps.
    rewrite Hcaps, capsules_of_components, Hroot.
    split; [done|]. split; [done|].
    apply Forall_forall. intros capsule Hin.
    apply capsules_of_in_root in Hin as [k Hpath].
    unfold capsuleDir in Hpath. simpl in Hpath.
    split; intros Hnew; rewrite Hnew in Hpath; [done|by exists k].
  - intros w e Hfail. unfold isolateComponents, bindM, read.
    by rewrite Hseeders, Hfail.
Qed.

(** X16: an empty [baseDir] is no [baseDir]: the run is the one for the
    path of the host. *)
Theorem empty_baseDir_is_the_host_path (seeders : list BitId)
    (opts : IsolateComponentsOptions) (legacyScope : option string) (w : World) :
  baseDir opts = None ∨ baseDir opts = Some EmptyString →
  isolateComponents seeders opts legacyScope w =
  isolateComponents seeders (with_baseDir opts host_path) legacyScope w.
Proof.
  intros Hbase. unfold isolateComponents.
  assert (baseDir_or_host opts = host_path) as ->.
  { unfold baseDir_or_host. by destruct Hbase as [-> | ->]. }
  assert (baseDir_or_host (with_baseDir opts host_path) = host_path) as ->.
  { unfold baseDir_or_host. simpl. by destruct (String.eqb_spec host_path EmptyString). }
  done.
Qed.

End RunFacts.

(** * Properties of the isolated environment *)

Lemma marker_is_found (dir : string) (d d' : Disk) :
  markEnvironmentAsInstalled dir d = Ok d' → isEnvironmentInstalled dir d' = true.
Proof.
  unfold markEnvironmentAsInstalled, outputFile, writeFileSync, isEnvironmentInstalled,
    existsSync.
  destruct (isDirectory (ensureDir _ d) _); [discriminate|].
  intros [= <-]. simpl. rewrite lookup_insert_eq.
  rewrite (bool_decide_eq_true_2 (is_Some (Some EmptyString))) by eauto. apply orb_true_r.
Qed.

Lemma within_refl (p : string) : within p p = true.
Proof. unfold within. by rewrite String.eqb_refl. Qed.

Lemma removePath_nothing_left (p : string) (d : Disk) :
  pathExists p (removePath p d) = false.
Proof.
  unfold pathExists, removePath. simpl.
  apply orb_false_iff. split; [apply orb_false_iff; split|];
    apply bool_decide_eq_false_2; intros Hne; apply Hne.
  - apply set_eq. intros q. rewrite !elem_of_filter. split; [|by intros ?%elem_of_empty].
    intros (Hin & Hout & _). congruence.
  - apply map_eq. intros file. rewrite lookup_empty.
    apply map_lookup_filter_None. right. intros content Hfile Hin. simpl in Hin.
    apply map_lookup_filter_Some in Hfile as (_ & Hne' & Hbelow). simpl in Hne', Hbelow.
    unfold within in Hin. rewrite Hbelow, orb_false_r in Hin.
    by apply String.eqb_eq in Hin.
  - apply map_eq. intros q. rewrite lookup_empty.
    apply map_lookup_filter_None. right. intros target Hlink Hin. simpl in Hin.
    apply map_lookup_filter_Some in Hlink as (_ & Hout). simpl in Hout. congruence.
Qed.

Lemma removePath_of_nothing (p : string) (d : Disk) :
  pathExists p d = false → removePath p d = d.
Proof.
  unfold pathExists. intros [[Hdirs Hfiles]%orb_false_iff Hlinks]%orb_false_iff.
  apply bool_decide_eq_false in Hdirs, Hfiles, Hlinks.
  destruct (decide (filter (fun q => within p q = true) (dirs d) = ∅)) as [Hd|]; [|done].
  destruct (decide (filter (fun kv : string * string * string =>
                              within p (full_path (fst kv)) = true) (files d) = ∅))
    as [Hf|]; [|done].
  destruct (decide (filter (fun kv : string * string => within p (fst kv) = true)
                      (links d) = ∅)) as [Hl|]; [|done].
  clear Hdirs Hfiles Hlinks. destruct d as [fs ds ls]. unfold removePath. simpl in *.
  f_equal.
  - apply map_filter_id. intros file content Hfile. simpl.
    assert (within p (full_path file) = false) as Hout.
    { destruct (within p (full_path file)) eqn:Hin; [|done]. exfalso.
      assert (filter (fun kv : string * string * string =>
                        within p (full_path (fst kv)) = true) fs !! file = Some content)
        as Hsome by (by apply map_lookup_filter_Some).
      rewrite Hf, lookup_empty in Hsome. discriminate. }
    unfold within in Hout. apply orb_false_iff in Hout as [Hne Hbelow].
    split; [|done]. intros Heq. rewrite Heq, String.eqb_refl in Hne. discriminate.
  - apply set_eq. intros q. rewrite elem_of_filter. split; [by intros [_ ?]|].
    intros Hq. split; [|done].
    destruct (within p q) eqn:Hin; [|done]. exfalso.
    assert (q ∈ filter (fun q => within p q = true) ds) as Hq'
      by (by apply elem_of_filter).
    rewrite Hd in Hq'. by apply elem_of_empty in Hq'.
  - apply map_filter_id. intros q target Hlink. simpl.
    destruct (within p q) eqn:Hin; [|done]. exfalso.
    assert (filter (fun kv : string * string => within p (fst kv) = true) ls !! q
            = Some target) as Hsome by (by apply map_lookup_filter_Some).
    rewrite Hl, lookup_empty in Hsome. discriminate.
Qed.

Section EnvironmentFacts.
Context `{Env.Collaborators}.
Variable writeAll : Env.ManyComponentsWriterProps → Disk → Result Disk.

(** X17: when [isolateComponent] succeeds, the component it returns is the
    first of those the consumer imported for the one id (none when the
    import gave none), the writer wrote to [opts.writeToPath], or to the
    path of the environment when that is unset or empty, with peer
    dependencies installed exactly when packages are, and that directory is
    marked as installed, which is the answer of [isEnvironmentInstalled]
    afterwards. *)
Theorem isolateComponent_marks_the_written_directory
    (env : Env.Environment) (bitId : BitId + string) (opts : Env.IsolateOptions)
    (d d' : Disk) (result : option Env.ComponentWithDependencies) :
  Env.isolateComponent writeAll env bitId opts d = Ok (result, d') →
  let writeToPath := string_or (Env.writeToPath opts) (Env.path env) in
  ∃ this_consumer parsed imported d1 props d2,
    Env.consumer env = Some this_consumer ∧
    match bitId with
    | inl i => parsed = i
    | inr text => Env.BitId_parse text true = Ok parsed
    end ∧
    Env.importComponents this_consumer [parsed] false
      match Env.saveDependenciesAsComponents opts with
      | Undefined => Value true
      | given => given
      end d = Ok (imported, d1) ∧
    result = head imported ∧
    writeAll props d1 = Ok d2 ∧
    Env.props_componentsWithDependencies props = imported ∧
    Env.props_writeToPath props = writeToPath ∧
    Env.props_installNpmPackages props = truthy_flag (Env.installPackages opts) ∧
    Env.props_installPeerDependencies props = truthy_flag (Env.installPackages opts) ∧
    Env.props_addToRootPackageJson props = false ∧
    markEnvironmentAsInstalled writeToPath d2 = Ok d' ∧
    isEnvironmentInstalled writeToPath d' = true.
Proof.
  unfold Env.isolateComponent. intros Hrun. simpl.
  apply bind_Ok in Hrun as (parsed & Hparse & Hrun).
  apply bind_Ok in Hrun as (this_consumer & Hconsumer & Hrun).
  apply bind_Ok in Hrun as ([imported d1] & Himport & Hrun).
  apply bind_Ok in Hrun as (d2 & Hwrite & Hrun).
  apply bind_Ok in Hrun as (d3 & Hmark & Hrun).
  injection Hrun as <- <-.
  eexists this_consumer, parsed, imported, d1, _, d2.
  split; [by destruct (Env.consumer env); [injection Hconsumer as ->|]|].
  split; [by destruct bitId; [injection Hparse as ->|]|].
  split; [done|]. split; [done|]. split; [exact Hwrite|].
  simpl. repeat split; try done. by apply marker_is_found in Hmark.
Qed.

(** X18: an environment that was constructed but not created has no
    consumer, and [isolateComponent] fails on it: with a [TypeError] for
    the consumer that is not there or, when the id is given as a string
    that cannot be parsed, with the error of the parser. *)
Theorem isolateComponent_needs_create (scope : string) (dir : Optional string)
    (uuid : string) (bitId : BitId + string) (opts : Env.IsolateOptions) (d : Disk) :
  ∃ e,
    Env.isolateComponent writeAll (Env.new_Environment scope dir uuid) bitId opts d = Err e ∧
    (e = TypeError ∨
     ∃ text, bitId = inr text ∧ Env.BitId_parse text true = Err e).
Proof.
  unfold Env.isolateComponent. simpl. destruct bitId as [i|text]; simpl.
  - exists TypeError. split; [done|by left].
  - destruct (Env.BitId_parse text true) as [i|e] eqn:Hparse; simpl.
    + exists TypeError. split; [done|by left].
    + exists e. split; [done|]. right. by exists text.
Qed.

(** X19: [destroy] leaves nothing at the path of the environment, so the
    environment is not installed afterwards, and it keeps every file that
    is neither at that path nor below it. *)
Theorem destroy_removes_the_environment (env : Env.Environment) (d : Disk) :
  ∃ d',
    Env.destroy env d = Ok (None, d') ∧
    pathExists (Env.path env) d' = false ∧
    isEnvironmentInstalled (Env.path env) d' = false ∧
    (∀ file content,
       files d' !! file = Some content ↔
       files d !! file = Some content ∧
       within (Env.path env) (full_path file) = false).
Proof.
  eexists. split; [reflexivity|]. split; [apply removePath_nothing_left|]. split.
  - unfold isEnvironmentInstalled, existsSync, isDirectory, removePath. simpl.
    apply orb_false_iff. split; apply bool_decide_eq_false_2.
    + intros [Hout _]%elem_of_filter. by rewrite within_path_join in Hout.
    + intros [content Hfile].
      apply map_lookup_filter_Some in Hfile as (_ & _ & Hbelow). simpl in Hbelow.
      unfold full_path in Hbelow. simpl in Hbelow. by rewrite below_path_join in Hbelow.
  - intros file content. unfold removePath. simpl.
    rewrite map_lookup_filter_Some. simpl. unfold within.
    rewrite orb_false_iff. split.
    + intros (Hfile & Hne & Hbelow). repeat split; try done.
      apply String.eqb_neq. by intros Heq.
    + intros (Hfile & Hne & Hbelow). repeat split; try done.
      apply String.eqb_neq in Hne. by intros Heq.
Qed.

(** X20: [destroyIfExist] leaves the disk as [destroy] does, whether
    something was there or not; it answers [false] exactly when nothing was
    at the path of the environment or below it, and the disk is then
    untouched. *)
Theorem destroyIfExist_leaves_nothing (env : Env.Environment) (d : Disk) :
  ∃ answer,
    Env.destroyIfExist env d = Ok (answer, removePath (Env.path env) d) ∧
    pathExists (Env.path env) (removePath (Env.path env) d) = false ∧
    (answer = Some false ↔ pathExists (Env.path env) d = false) ∧
    (answer = Some false → removePath (Env.path env) d = d).
Proof.
  unfold Env.destroyIfExist, Env.destroy.
  destruct (pathExists (Env.path env) d) eqn:Hexists.
  - exists None. split; [done|]. split; [apply removePath_nothing_left|].
    split; [split; discriminate|discriminate].
  - exists (Some false). rewrite (removePath_of_nothing _ _ Hexists).
    split; [done|]. split; [done|]. split; done.
Qed.

(** X21: [create] on a constructed environment keeps its path, which is
    the directory given to the constructor or, when that is unset or empty,
    the isolated-environments directory of the scope joined with the uuid;
    the consumer it gets is the one created at that path for the scope,
    after the directory has been made. *)
Theorem create_gives_the_consumer (scope : string) (dir : Optional string) (uuid : string)
    (d d' : Disk) (env' : Env.Environment) :
  Env.create (Env.new_Environment scope dir uuid) d = Ok (env', d') →
  let envPath :=
    match dir with
    | Value given =>
        if String.eqb given EmptyString
        then path_join (path_join scope Env.ISOLATED_ENV_ROOT) uuid
        else given
    | _ => path_join (path_join scope Env.ISOLATED_ENV_ROOT) uuid
    end in
  Env.getPath env' = envPath ∧
  Env.scope env' = scope ∧
  ∃ c,
    Env.consumer env' = Some c ∧
    Env.createIsolatedWithExistingScope envPath scope
      {| files := files d; dirs := {[envPath]} ∪ dirs d; links := links d |} = Ok (c, d').
Proof.
  unfold Env.create, Env.mkdirp, Env.new_Environment, Env.getPath. simpl.
  intros Hcreate. apply bind_Ok in Hcreate as ([c d2] & Hconsumer & Hcreate).
  injection Hcreate as <- <-. simpl.
  split; [by destruct dir|]. split; [done|].
  exists c. split; [done|]. by destruct dir.
Qed.

End EnvironmentFacts.

(** * Properties of the workspace provider *)

(** X22: the provider never throws.  It gives the workspace exactly when
    there is a consumer and the extensions of the workspace load; in every
    other case, a failure of either included, it gives [undefined].  The
    hook on the loading of component configurations is registered as soon
    as there is a consumer, and stays registered when the extensions then
    fail to load and the provider gives [undefined]; without a consumer
    nothing is registered. *)
Theorem provider_never_throws `{WorkspaceCollaborators} (deps : WorkspaceDeps)
    (registry : Registry) :
  ∃ result registry',
    provideWorkspace deps registry = (Ok result, registry') ∧
    (∀ workspace,
       result = Some workspace ↔
       ∃ c, loadConsumerIfExist = Ok (Some c) ∧
            workspace = new_Workspace c deps ∧
            loadWorkspaceExtensions workspace = Ok tt) ∧
    (∀ c, loadConsumerIfExist = Ok (Some c) →
          registry' = (registry ++ [("component-service", new_Workspace c deps)])%list) ∧
    ((∀ c, loadConsumerIfExist ≠ Ok (Some c)) → registry' = registry).
Proof.
  unfold provideWorkspace, try_catchP, bindP, liftP, retP, registerOnComponentConfigLoading.
  destruct loadConsumerIfExist as [[c|]|e] eqn:Hload.
  - destruct (loadWorkspaceExtensions (new_Workspace c deps)) as [[]|e] eqn:Hext.
    + eexists _, _. split; [reflexivity|]. split; [|split].
      * intros workspace. split.
        -- intros [= <-]. exists c. done.
        -- intros (c' & [= <-] & -> & _). done.
      * by intros c' [= <-].
      * intros Hnone. by destruct (Hnone c).
    + eexists _, _. split; [reflexivity|]. split; [|split].
      * intros workspace. split; [discriminate|].
        intros (c' & [= <-] & -> & Hok). congruence.
      * by intros c' [= <-].
      * intros Hnone. by destruct (Hnone c).
  - eexists _, _. split; [reflexivity|]. split; [|split; [discriminate|done]].
    intros workspace. split; [discriminate|]. by intros (c' & ? & _).
  - eexists _, _. split; [reflexivity|]. split; [|split; [discriminate|done]].
    intros workspace. split; [discriminate|]. by intros (c' & ? & _).
Qed.

(** * The properties on examples *)

(** The diff of the spec's examples: equal dependency sections, a changed
    version, no previous manifest. *)
Example manifest_diff_examples :
  let deps v := JObj [("dependencies", JObj [("x", JStr v)])] in
  let entry previous current :=
    {| capsule := capsule_a; currentPackageJson := Some current;
       previousPackageJson := previous |} in
  @wereDependenciesInPackageJsonChanged platform_ws (entry (deps "1.0.0") (deps "1.0.0"))
    = Ok false ∧
  @wereDependenciesInPackageJsonChanged platform_ws (entry (deps "1.0.0") (deps "2.0.0"))
    = Ok true ∧
  @wereDependenciesInPackageJsonChanged platform_ws (entry JNull (deps "1.0.0"))
    = Ok true.
Proof. vm_compute. repeat split. Qed.

(** C1, the claim as stated fails: in a second run for [a] the diff of [a]
    says unchanged, yet the manifest of [a] at the end of the run is not the
    one the write phase produced: it has been rewritten with the bit
    dependencies. *)
Lemma unchanged_capsule_manifest_is_rewritten :
  ∃ capsuleList w' w2,
    @createCapsules platform_ws collaborators_ab [comp_a] options_ws None world_after_a_run
      = Ok (capsuleList, w') ∧
    capsuleList = [capsule_a] ∧
    @createCapsulesFromComponents collaborators_ab [comp_a] root_ws options_ws
      world_after_a_run = Ok (capsuleList, world_after_a_run) ∧
    @getCapsulesPreviousPackageJson platform_ws disk_after_a_run capsuleList
      = Ok [snapshot_entry_a] ∧
    @writeComponentsInCapsules collaborators_ab [comp_a] capsuleList None world_after_a_run
      = Ok (tt, w2) ∧
    @updateWithCurrentPackageJsonData platform_ws collaborators_ab (disk w2)
      [snapshot_entry_a] capsuleList = Ok [entry_a] ∧
    @wereDependenciesInPackageJsonChanged platform_ws entry_a = Ok false ∧
    files (disk w2) !! (path capsule_a, "package.json")
      = Some (stringify (written_manifest comp_a)) ∧
    files (disk w') !! (path capsule_a, "package.json")
      = Some (stringify final_manifest_a) ∧
    files (disk w') !! (path capsule_a, "package.json")
      ≠ files (disk w2) !! (path capsule_a, "package.json").
Proof.
  exists [capsule_a],
    (state_after world_after_a_run
       (@createCapsules platform_ws collaborators_ab [comp_a] options_ws None
          world_after_a_run)),
    (state_after world_after_a_run
       (@writeComponentsInCapsules collaborators_ab [comp_a] [capsule_a] None
          world_after_a_run)).
  split; [apply returned_Some; vm_compute; reflexivity|].
  split; [reflexivity|].
  split.
  { rewrite createCapsulesFromComponents_Ok.
    assert (@capsules_of collaborators_ab [comp_a] root_ws options_ws
              (drawn world_after_a_run) = [capsule_a]) as -> by (vm_compute; reflexivity).
    assert (path capsule_a ∈ dirs disk_after_a_run) as Hdir.
    { unfold disk_after_a_run. cbn [dirs]. apply elem_of_singleton. reflexivity. }
    change (ensureDirs [capsule_a] (disk world_after_a_run))
      with (ensureDir (path capsule_a) disk_after_a_run).
    rewrite (ensureDir_existing _ _ Hdir).
    reflexivity. }
  split; [vm_compute; reflexivity|].
  split; [apply returned_Some; vm_compute; reflexivity|].
  split; [vm_compute; reflexivity|].
  split; [vm_compute; reflexivity|].
  split; [vm_compute; reflexivity|].
  split; [vm_compute; reflexivity|].
  vm_compute. discriminate.
Qed.

(** C1, witness: the second run for [a]. *)
Lemma final_manifest_rewritten_witness :
  ∃ capsuleList w',
    getExistingAsIs options_ws = false ∧
    @createCapsules platform_ws collaborators_ab [comp_a] options_ws None world_after_a_run
      = Ok (capsuleList, w') ∧
    NoDup (map path capsuleList) ∧
    ∃ data,
      map capsule data = capsuleList ∧
      Forall
        (fun entry =>
           ∃ cur,
             currentPackageJson entry = Some cur ∧
             files (disk w') !! (path (capsule entry), "package.json")
               = Some (stringify cur))
        data.
Proof.
  assert (∃ w',
            @createCapsules platform_ws collaborators_ab [comp_a] options_ws None
              world_after_a_run = Ok ([capsule_a], w')) as [w' Hrun].
  { eexists. apply (returned_Some _ _ world_after_a_run). vm_compute. reflexivity. }
  exists [capsule_a], w'.
  split; [reflexivity|].
  split; [exact Hrun|].
  split; [apply NoDup_singleton|].
  destruct (@final_manifest_rewritten_for_every_capsule platform_ws collaborators_ab
              [comp_a] options_ws None world_after_a_run w' [capsule_a]
              eq_refl Hrun (NoDup_singleton _))
    as [[Hskip _]|(data0 & w2 & data & _ & _ & _ & Hmap & Hall)].
  - discriminate Hskip.
  - exists data. split; [exact Hmap|].
    apply (Forall_impl _ _ _ Hall). intros entry (cur & Hcur & Hfile & _). eauto.
Defined.



(** C3, witness: the seed is [a], the graph gives [a; b], the host does not
    know [b]: the capsules are those of [a] alone. *)
Lemma graph_resolution_witness :
  @getGraph collaborators_a [id_a] = Ok [comp_a; comp_b] ∧
  (∀ c, c ∈ [comp_a; comp_b] → ∃ b, @host_hasId collaborators_a (component_id c) = Ok b) ∧
  @createGraph collaborators_a [id_a] = Ok [comp_a] ∧
  (∀ opts legacyScope w n w',
     seedersOnly opts = false →
     @isolateComponents platform_ws collaborators_a [id_a] opts legacyScope w = Ok (n, w') →
     map component (network_capsules n) = [comp_a]).
Proof.
  assert (∀ c, c ∈ [comp_a; comp_b] →
               ∃ b, @host_hasId collaborators_a (component_id c) = Ok b) as Hhost.
  { intros c _. eexists. reflexivity. }
  split; [reflexivity|]. split; [exact Hhost|].
  destruct (@graph_resolution_keeps_recognized platform_ws collaborators_a
              [id_a] [comp_a; comp_b] eq_refl Hhost) as (Hgraph & _ & _ & Hcapsules).
  split; [exact Hgraph | exact Hcapsules].
Defined.

(** C4, witness: the previous and the current manifest of [a] have the same
    dependency sections; once [b] has a new version, the section
    [dependencies] is no longer the same. *)
Lemma manifest_diff_witness :
  (@wereDependenciesInPackageJsonChanged platform_ws entry_a = Ok false ∧
   ∀ field, field ∈ @DEPENDENCIES_FIELDS platform_ws →
     same_value (manifest_field final_manifest_a field)
                (manifest_field final_manifest_a field)) ∧
  (@wereDependenciesInPackageJsonChanged platform_ws entry_a_bumped = Ok true ∧
   ∃ field, field ∈ @DEPENDENCIES_FIELDS platform_ws ∧
     ¬ same_value (manifest_field final_manifest_a field)
                  (manifest_field bumped_manifest_a field)).
Proof.
  split.
  - destruct (@manifest_diff_changed_iff platform_ws entry_a _ eq_refl
                (or_intror (ex_intro _ _ eq_refl)) eq_refl eq_refl)
      as (changed & Hdiff & _ & Hsame & _).
    assert (changed = false) as Hchanged.
    { vm_compute in Hdiff. by injection Hdiff as <-. }
    split; [by rewrite <- Hchanged|]. exact (proj2 (proj1 Hsame Hchanged)).
  - destruct (@manifest_diff_changed_iff platform_ws entry_a_bumped _ eq_refl
                (or_intror (ex_intro _ _ eq_refl)) eq_refl eq_refl)
      as (changed & Hdiff & Hdiffers & _).
    assert (changed = true) as Hchanged.
    { vm_compute in Hdiff. by injection Hdiff as <-. }
    split; [by rewrite <- Hchanged|].
    destruct (proj1 Hdiffers Hchanged) as [Hnull|Hfield]; [discriminate Hnull|].
    exact Hfield.
Defined.

(** C5, witness: [a] has a manifest on the disk, [b] has none. *)
Lemma snapshot_witness :
  ∃ data,
    @getCapsulesPreviousPackageJson platform_ws disk_after_a_run [capsule_a; capsule_b]
      = Ok data ∧
    map capsule data = [capsule_a; capsule_b] ∧
    map previousPackageJson data = [final_manifest_a; JNull].
Proof.
  destruct (@snapshot_never_fails platform_ws disk_after_a_run [capsule_a; capsule_b])
    as (data & Hsnap & Hcaps & _).
  exists data. split; [exact Hsnap|]. split; [exact Hcaps|].
  vm_compute in Hsnap. injection Hsnap as <-. reflexivity.
Defined.

(** C6, witness: a root with two capsules, a missing root, a root that may
    not be read. *)
Lemma list_capsules_witness :
  @IsolatorMain_list platform_ws "/ws" =
    Ok {| workspace := "/ws"; capsules := [path capsule_a; path capsule_b] |} ∧
  @IsolatorMain_list platform_ws "/nowhere" =
    Ok {| workspace := "/nowhere"; capsules := [] |} ∧
  @IsolatorMain_list platform_ws "/locked" = Err (SystemError "EACCES").
Proof.
  split; [|split].
  - apply (proj1 (@list_capsules_of_workspace platform_ws "/ws")
             ["a@1.0.0"; "b@1.0.0"] eq_refl).
  - apply (proj1 (proj2 (@list_capsules_of_workspace platform_ws "/nowhere"))
             (SystemError "ENOENT") eq_refl eq_refl).
  - apply (proj2 (proj2 (@list_capsules_of_workspace platform_ws "/locked"))
             (SystemError "EACCES") eq_refl). discriminate.
Defined.

(** C7, witness: two runs for the workspace [/ws], one on an empty disk for
    [a] and [b], one on the disk of a previous run for [a]. *)
Lemma capsules_root_dir_witness :
  ∃ n1 w1' n2 w2',
    @isolateComponents platform_ws collaborators_ab [id_a; id_b] example_options None
      empty_world = Ok (n1, w1') ∧
    @isolateComponents platform_ws collaborators_ab [id_a] options_ws None
      world_after_a_run = Ok (n2, w2') ∧
    network_capsulesRootDir n1 = root_ws ∧
    network_capsulesRootDir n2 = network_capsulesRootDir n1.
Proof.
  destruct (succeeds_returned
              (@isolateComponents platform_ws collaborators_ab [id_a; id_b] example_options
                 None empty_world) empty_world) as [n1 Hrun1]; [vm_compute; reflexivity|].
  destruct (succeeds_returned
              (@isolateComponents platform_ws collaborators_ab [id_a] options_ws
                 None world_after_a_run) world_after_a_run) as [n2 Hrun2];
    [vm_compute; reflexivity|].
  eexists n1, _, n2, _.
  split; [exact Hrun1|].
  split; [exact Hrun2|].
  apply (proj2 (@capsules_root_dir_deterministic platform_ws collaborators_ab "/ws")
           [id_a; id_b] [id_a] example_options options_ws None None
           empty_world world_after_a_run _ _ _ _ eq_refl eq_refl Hrun1 Hrun2).
Defined.

(** C8, the claim as stated fails: with [emptyRootDir] set as well, the
    manifest that a previous run has left in the capsule of [a] is gone
    after a run with [getExistingAsIs]. *)
Lemma getExistingAsIs_with_emptyRootDir_deletes_files :
  getExistingAsIs options_asis_emptyRootDir = true ∧
  files (disk world_after_a_run) !! (path capsule_a, "package.json")
    = Some (stringify final_manifest_a) ∧
  ∃ capsuleList w',
    @createCapsules platform_ws collaborators_ab [comp_a] options_asis_emptyRootDir None
      world_after_a_run = Ok (capsuleList, w') ∧
    capsuleList = [capsule_a] ∧
    files (disk w') !! (path capsule_a, "package.json") = None.
Proof.
  split; [reflexivity|]. split; [vm_compute; reflexivity|].
  exists [capsule_a],
    (state_after world_after_a_run
       (@createCapsules platform_ws collaborators_ab [comp_a] options_asis_emptyRootDir
          None world_after_a_run)).
  split; [apply returned_Some; vm_compute; reflexivity|].
  split; [reflexivity | vm_compute; reflexivity].
Qed.

(** C8, witness: a run with [getExistingAsIs] alone on the disk of a
    previous run. *)
Lemma getExistingAsIs_witness :
  getExistingAsIs options_asis = true ∧
  ∃ capsuleList w',
    @createCapsules platform_ws collaborators_ab [comp_a] options_asis None
      world_after_a_run = Ok (capsuleList, w') ∧
    map component capsuleList = [comp_a] ∧
    calls w' = [] ∧
    files (disk w') = files (disk world_after_a_run).
Proof.
  split; [reflexivity|].
  destruct (@getExistingAsIs_skips_all_phases platform_ws collaborators_ab
              [comp_a] options_asis None world_after_a_run eq_refl)
    as (capsuleList & w' & Hrun & Hcomps & Hcalls & _ & Hfiles & _).
  exists capsuleList, w'. split; [exact Hrun|]. split; [exact Hcomps|].
  split; [exact Hcalls|]. exact (proj1 (Hfiles eq_refl)).
Defined.

(** C9, witness: [a] and [b] are written, the capsule list has a capsule for
    [a] only. *)
Lemma write_phase_witness :
  @getCapsule [capsule_a] (component_id comp_b) = None ∧
  ∃ w',
    @writeComponentsInCapsules collaborators_ab [comp_a; comp_b] [capsule_a] None
      empty_world = Ok (tt, w') ∧
    files (disk w') !! (path capsule_a, "index.js") = Some "module.exports = {}" ∧
    files (disk w') !! (path capsule_b, "index.js") = None.
Proof.
  split; [reflexivity|].
  destruct (@write_phase_skips_components_without_capsule collaborators_ab
              [comp_a; comp_b] [capsule_a] None) as (_ & _ & Hphase).
  assert (∃ w',
            @writeComponentsInCapsules collaborators_ab [comp_a; comp_b] [capsule_a] None
              empty_world = Ok (tt, w')) as [w' Hrun].
  { eexists. apply (returned_Some _ _ empty_world). vm_compute. reflexivity. }
  exists w'. split; [exact Hrun|].
  destruct (Hphase empty_world w' Hrun) as (_ & _ & Hother & Hwritten).
  split.
  - destruct (Hwritten comp_a capsule_a) as (toWrite & HtoWrite & Hfiles);
      [left | reflexivity |].
    injection HtoWrite as <-. apply Hfiles; [|left].
    refine (bool_decide_unpack _ _). vm_compute. exact I.
  - rewrite Hother; [reflexivity|].
    refine (bool_decide_unpack _ _). vm_compute. exact I.
Defined.

(** C10, witness: marking [/env] on an empty disk. *)
Lemma marked_environment_witness :
  markEnvironmentAsInstalled "/env" empty_disk = Ok marked_disk ∧
  isEnvironmentInstalled "/env" marked_disk = true ∧
  isEnvironmentInstalled "/env" empty_disk = false.
Proof.
  assert (markEnvironmentAsInstalled "/env" empty_disk = Ok marked_disk) as Hmark.
  { vm_compute. reflexivity. }
  split; [exact Hmark|].
  destruct (marked_environment_is_installed "/env" empty_disk marked_disk Hmark)
    as (Hinstalled & _ & _ & Hnot).
  split; [exact Hinstalled|].
  apply Hnot; [reflexivity|]. apply not_elem_of_empty.
Defined.


(** X2, witness: a run with [skipIfExists] for [a] and [b] on the disk of a
    previous run for [a]: [b] has no manifest, and [a] gets a new one too,
    the current manifest after the write phase. *)
Lemma skipIfExists_all_or_nothing_witness :
  ∃ w' w2,
    @createCapsules platform_ws collaborators_ab [comp_a; comp_b] options_skipIfExists None
      world_after_a_run = Ok ([capsule_a; capsule_b], w') ∧
    @writeComponentsInCapsules collaborators_ab [comp_a; comp_b] [capsule_a; capsule_b] None
      (@world_with_capsules platform_ws collaborators_ab [comp_a; comp_b]
         options_skipIfExists world_after_a_run) = Ok (tt, w2) ∧
    Forall
      (fun c =>
         ∃ cur,
           @getCurrentPackageJson platform_ws collaborators_ab (disk w2) c = Ok cur ∧
           files (disk w') !! (path c, "package.json") = Some (stringify cur))
      [capsule_a; capsule_b].
Proof.
  assert (∃ w',
            @createCapsules platform_ws collaborators_ab [comp_a; comp_b]
              options_skipIfExists None world_after_a_run
            = Ok ([capsule_a; capsule_b], w')) as [w' Hrun].
  { eexists. apply (returned_Some _ _ world_after_a_run). vm_compute. reflexivity. }
  destruct (@skipIfExists_is_all_or_nothing platform_ws collaborators_ab
              [comp_a; comp_b] options_skipIfExists None world_after_a_run w'
              [capsule_a; capsule_b] eq_refl eq_refl Hrun) as (w2 & Hwrite & Hall).
  - apply Exists_cons_tl, Exists_cons_hd. vm_compute. reflexivity.
  - refine (bool_decide_unpack _ _). vm_compute. exact I.
  - refine (bool_decide_unpack _ _). vm_compute. exact I.
  - exists w', w2. split; [exact Hrun|]. split; [exact Hwrite | exact Hall].
Defined.


(** X4, witness: a run for [a] and [b] on the disk of a previous run for
    [a]. *)
Lemma install_then_link_witness :
  ∃ w' modified,
    @createCapsules platform_ws collaborators_ab [comp_a; comp_b] options_ws None
      world_after_a_run = Ok ([capsule_a; capsule_b], w') ∧
    sublist modified [capsule_a; capsule_b] ∧
    length (calls w') = 5 ∧
    SymlinkBitBinToCapsules modified ∈ calls w'.
Proof.
  assert (∃ w',
            @createCapsules platform_ws collaborators_ab [comp_a; comp_b]
              options_ws None world_after_a_run
            = Ok ([capsule_a; capsule_b], w')) as [w' Hrun].
  { eexists. apply (returned_Some _ _ world_after_a_run). vm_compute. reflexivity. }
  destruct (@full_run_installs_then_links platform_ws collaborators_ab
              [comp_a; comp_b] options_ws None world_after_a_run w'
              [capsule_a; capsule_b] eq_refl eq_refl eq_refl Hrun)
    as (_ & modified & Hsub & Hcalls).
  exists w', modified. split; [exact Hrun|]. split; [exact Hsub|].
  rewrite Hcalls. split; [reflexivity|].
  apply list_elem_of_In. simpl. tauto.
Defined.

(** X5, witness: the same run with [installPackages] given as [undefined]:
    nobody is called, and the manifests are the current ones after the write
    phase. *)
Lemma no_install_witness :
  ∃ w' w2,
    @createCapsules platform_ws collaborators_ab [comp_a; comp_b] options_no_install None
      world_after_a_run = Ok ([capsule_a; capsule_b], w') ∧
    calls w' = [] ∧
    @writeComponentsInCapsules collaborators_ab [comp_a; comp_b] [capsule_a; capsule_b] None
      (@world_with_capsules platform_ws collaborators_ab [comp_a; comp_b]
         options_no_install world_after_a_run) = Ok (tt, w2) ∧
    Forall
      (fun c =>
         ∃ cur,
           @getCurrentPackageJson platform_ws collaborators_ab (disk w2) c = Ok cur ∧
           files (disk w') !! (path c, "package.json") = Some (stringify cur))
      [capsule_a; capsule_b].
Proof.
  assert (∃ w',
            @createCapsules platform_ws collaborators_ab [comp_a; comp_b]
              options_no_install None world_after_a_run
            = Ok ([capsule_a; capsule_b], w')) as [w' Hrun].
  { eexists. apply (returned_Some _ _ world_after_a_run). vm_compute. reflexivity. }
  destruct (@run_without_installPackages_calls_nobody platform_ws collaborators_ab
              [comp_a; comp_b] options_no_install None world_after_a_run w'
              [capsule_a; capsule_b] eq_refl eq_refl eq_refl Hrun)
    as (Hcalls & w2 & Hwrite & Hall).
  - refine (bool_decide_unpack _ _). vm_compute. exact I.
  - refine (bool_decide_unpack _ _). vm_compute. exact I.
  - exists w', w2. split; [exact Hrun|]. split; [exact Hcalls|].
    split; [exact Hwrite | exact Hall].
Defined.

(** X6, witness: in the run of the witness of X4 the capsule of [b] is
    new. *)
Lemma new_capsule_witness :
  ∃ w' modified,
    @createCapsules platform_ws collaborators_ab [comp_a; comp_b] options_ws None
      world_after_a_run = Ok ([capsule_a; capsule_b], w') ∧
    capsule_b ∈ modified ∧
    SymlinkDependenciesToCapsules modified [capsule_a; capsule_b] ∈ calls w' ∧
    SymlinkBitBinToCapsules modified ∈ calls w'.
Proof.
  assert (∃ w',
            @createCapsules platform_ws collaborators_ab [comp_a; comp_b]
              options_ws None world_after_a_run
            = Ok ([capsule_a; capsule_b], w')) as [w' Hrun].
  { eexists. apply (returned_Some _ _ world_after_a_run). vm_compute. reflexivity. }
  destruct (@capsule_without_previous_manifest_is_symlinked platform_ws collaborators_ab
              [comp_a; comp_b] options_ws None world_after_a_run w'
              [capsule_a; capsule_b] capsule_b eq_refl eq_refl eq_refl Hrun)
    as (modified & Hin & Hdeps & Hbin).
  - apply list_elem_of_In. simpl. tauto.
  - vm_compute. reflexivity.
  - exists w', modified. repeat split; assumption.
Defined.

(** X7, witness: in a second run for [a] the dependency sections of [a]
    have the values of the first run. *)
Lemma unchanged_capsule_witness :
  ∃ w' modified,
    @createCapsules platform_ws collaborators_ab [comp_a] options_ws None
      world_after_a_run = Ok ([capsule_a], w') ∧
    (∀ field, field ∈ @DEPENDENCIES_FIELDS platform_ws →
       same_value (manifest_field final_manifest_a field)
                  (manifest_field final_manifest_a field)) ∧
    (capsule_a ∉ modified) ∧
    SymlinkDependenciesToCapsules modified [capsule_a] ∈ calls w' ∧
    SymlinkBitBinToCapsules modified ∈ calls w'.
Proof.
  assert (∃ w',
            @createCapsules platform_ws collaborators_ab [comp_a]
              options_ws None world_after_a_run
            = Ok ([capsule_a], w')) as [w' Hrun].
  { eexists. apply (returned_Some _ _ world_after_a_run). vm_compute. reflexivity. }
  assert (∃ w2,
            @writeComponentsInCapsules collaborators_ab [comp_a] [capsule_a] None
              (@world_with_capsules platform_ws collaborators_ab [comp_a] options_ws
                 world_after_a_run) = Ok (tt, w2) ∧
            @getCurrentPackageJson platform_ws collaborators_ab (disk w2) capsule_a
            = Ok final_manifest_a) as (w2 & Hwrite & Hcur).
  { eexists. split; [apply (returned_Some _ _ world_after_a_run)|]; vm_compute; reflexivity. }
  assert (∀ field, field ∈ @DEPENDENCIES_FIELDS platform_ws →
            same_value (manifest_field final_manifest_a field)
                       (manifest_field final_manifest_a field)) as Hsame.
  { intros field _. apply same_value_refl. vm_compute. reflexivity. }
  destruct (@capsule_with_unchanged_dependencies_is_not_symlinked platform_ws
              collaborators_ab [comp_a] options_ws None world_after_a_run w' w2
              [capsule_a] capsule_a
              (props_of (Some final_manifest_a)) (props_of (Some final_manifest_a))
              eq_refl eq_refl eq_refl Hrun)
    as (modified & Hnot & Hdeps & Hbin).
  - apply NoDup_singleton.
  - vm_compute. reflexivity.
  - exact Hwrite.
  - exact Hcur.
  - vm_compute. reflexivity.
  - vm_compute. reflexivity.
  - exact Hsame.
  - exists w', modified. repeat split; assumption.
Defined.

(** X8, witness: a run for [a] with [emptyRootDir] on the disk of a previous
    run for [a]. *)
Lemma emptyRootDir_witness :
  ∃ w',
    @createCapsules platform_ws collaborators_ab [comp_a] options_emptyRootDir None
      world_after_a_run = Ok ([capsule_a], w') ∧
    SymlinkDependenciesToCapsules [capsule_a] [capsule_a] ∈ calls w' ∧
    SymlinkBitBinToCapsules [capsule_a] ∈ calls w'.
Proof.
  assert (∃ w',
            @createCapsules platform_ws collaborators_ab [comp_a]
              options_emptyRootDir None world_after_a_run
            = Ok ([capsule_a], w')) as [w' Hrun].
  { eexists. apply (returned_Some _ _ world_after_a_run). vm_compute. reflexivity. }
  exists w'. split; [exact Hrun|].
  exact (proj2 (@emptyRootDir_symlinks_every_capsule platform_ws collaborators_ab
                  [comp_a] options_emptyRootDir None world_after_a_run w' [capsule_a]
                  eq_refl eq_refl eq_refl eq_refl Hrun)).
Defined.

(** X10, witness: the entries of [a] and [b], updated for the capsule of [a]
    on the disk of a previous run for [a]: the entry of [b] stays. *)
Lemma update_witness :
  ∃ data',
    @updateWithCurrentPackageJsonData platform_ws collaborators_ab disk_after_a_run
      [snapshot_entry_a; entry_b] [capsule_a] = Ok data' ∧
    data' !! 1%nat = Some entry_b.
Proof.
  assert (∃ data',
            @updateWithCurrentPackageJsonData platform_ws collaborators_ab disk_after_a_run
              [snapshot_entry_a; entry_b] [capsule_a] = Ok data') as [data' Hupd].
  { eexists. vm_compute. reflexivity. }
  exists data'. split; [exact Hupd|].
  destruct (@update_sets_current_manifests_only platform_ws collaborators_ab
              disk_after_a_run [snapshot_entry_a; entry_b] data' [capsule_a] Hupd)
    as [Hall Hother].
  destruct (data' !! 1%nat) as [entry'|] eqn:Hentry.
  - f_equal. apply (Hother 1%nat entry_b entry' eq_refl Hentry).
    refine (bool_decide_unpack _ _). vm_compute. exact I.
  - apply Forall2_length in Hall. apply lookup_ge_None in Hentry.
    simpl in Hall. rewrite <- Hall in Hentry. exfalso. lia.
Defined.

(** X12, witness: on an empty disk the capsule of [a] has no manifest to
    load, and that is the failure of the update. *)
Lemma update_failure_witness :
  ∃ data0 e c,
    @getCapsulesPreviousPackageJson platform_ws empty_disk [capsule_a] = Ok data0 ∧
    @updateWithCurrentPackageJsonData platform_ws collaborators_ab empty_disk data0
      [capsule_a] = Err e ∧
    c ∈ [capsule_a] ∧
    @getCurrentPackageJson platform_ws collaborators_ab empty_disk c = Err e.
Proof.
  assert (∃ data0 e,
            @getCapsulesPreviousPackageJson platform_ws empty_disk [capsule_a] = Ok data0 ∧
            @updateWithCurrentPackageJsonData platform_ws collaborators_ab empty_disk data0
              [capsule_a] = Err e) as (data0 & e & Hsnap & Hupd).
  { eexists _, _. split; vm_compute; reflexivity. }
  destruct (@update_of_own_snapshot_fails_on_load_only platform_ws collaborators_ab
              empty_disk empty_disk [capsule_a] data0 e Hsnap Hupd) as (c & Hin & Hfail).
  exists data0, e, c. repeat split; assumption.
Defined.

(** X14, witness: the current manifest of the capsule of [a] on the disk of
    a previous run for [a]. *)
Lemma current_manifest_witness :
  ∃ current props,
    @getCurrentPackageJson platform_ws collaborators_ab disk_after_a_run capsule_a
      = Ok current ∧
    current = JObj props ∧
    assoc "version" props = Some (JStr "1.0.0") ∧
    assoc "name" props = Some (JStr "@bit/a").
Proof.
  assert (∃ current,
            @getCurrentPackageJson platform_ws collaborators_ab disk_after_a_run capsule_a
            = Ok current) as [current Hcur].
  { eexists. vm_compute. reflexivity. }
  destruct (@current_manifest_of_capsule platform_ws collaborators_ab
              disk_after_a_run capsule_a current Hcur)
    as (loaded & props & Hload & Hprops & Hversion & _ & _ & Hrest).
  exists current, props. split; [exact Hcur|]. split; [exact Hprops|].
  split; [exact Hversion|].
  rewrite Hrest by discriminate.
  vm_compute in Hload. injection Hload as <-. reflexivity.
Defined.

(** X15, witness: a run for the seeder [a] only; [b], which [a] depends on,
    gets no capsule. *)
Lemma seedersOnly_witness :
  ∃ n w',
    @isolateComponents platform_ws collaborators_ab [id_a] options_seedersOnly None
      empty_world = Ok (n, w') ∧
    @host_getMany collaborators_ab [id_a] = Ok (map component (network_capsules n)) ∧
    network_seeders n = [id_a].
Proof.
  destruct (succeeds_returned
              (@isolateComponents platform_ws collaborators_ab [id_a] options_seedersOnly
                 None empty_world) empty_world) as [n Hrun]; [vm_compute; reflexivity|].
  eexists n, _. split; [exact Hrun|].
  destruct (proj1 (@seedersOnly_isolates_the_seeders platform_ws collaborators_ab
                     [id_a] options_seedersOnly None eq_refl) empty_world _ n Hrun)
    as (Hhost & Hseeders & _).
  split; assumption.
Defined.

(** X16, witness: the options without a base directory, for the host at
    [/ws]. *)
Lemma empty_baseDir_witness :
  @isolateComponents platform_ws collaborators_ab [id_a] example_options None empty_world =
  @isolateComponents platform_ws collaborators_ab [id_a]
    (@with_baseDir example_options "/ws") None empty_world.
Proof.
  apply (@empty_baseDir_is_the_host_path platform_ws collaborators_ab
           [id_a] example_options None empty_world).
  left. reflexivity.
Defined.

(** X17, witness: the component [a], given as a string, isolated in the
    environment at [/env]. *)
Lemma isolateComponent_witness :
  ∃ result d',
    @Env.isolateComponent example_environment example_writeAll example_created_environment
      (inr "a") example_isolate_options empty_disk = Ok (result, d') ∧
    result = Some {| id_name := "a"; id_version := None |} ∧
    isEnvironmentInstalled "/env" d' = true.
Proof.
  assert (∃ d',
            @Env.isolateComponent example_environment example_writeAll
              example_created_environment (inr "a") example_isolate_options empty_disk
            = Ok (Some {| id_name := "a"; id_version := None |}, d')) as [d' Hrun].
  { eexists. apply (returned_Some _ _ empty_disk). vm_compute. reflexivity. }
  eexists _, d'. split; [exact Hrun|]. split; [reflexivity|].
  destruct (@isolateComponent_marks_the_written_directory example_environment
              example_writeAll example_created_environment (inr "a")
              example_isolate_options empty_disk d' _ Hrun)
    as (c & parsed & imported & d1 & props & d2 & _ & _ & _ & _ & _ & _ & _ & _ & _ & _ & _
        & Hinstalled).
  exact Hinstalled.
Defined.

(** X21, witness: an environment of the scope [/scope], no directory
    given. *)
Lemma create_witness :
  ∃ env' d',
    @Env.create example_environment
      (@Env.new_Environment example_environment "/scope" Null "uuid") empty_disk
    = Ok (env', d') ∧
    @Env.getPath example_environment env' = "/scope/components/.isolated/uuid" ∧
    @Env.consumer example_environment env' = Some "/scope/components/.isolated/uuid".
Proof.
  destruct (succeeds_returned
              (@Env.create example_environment
                 (@Env.new_Environment example_environment "/scope" Null "uuid") empty_disk)
              empty_disk) as [env' Hcreate]; [vm_compute; reflexivity|].
  eexists env', _. split; [exact Hcreate|].
  destruct (@create_gives_the_consumer example_environment "/scope" Null "uuid"
              empty_disk _ env' Hcreate) as (Hpath & _ & c & Hconsumer & Hmade).
  split; [exact Hpath|].
  rewrite Hconsumer. apply (f_equal returned) in Hmade.
  vm_compute in Hmade. injection Hmade as <-. reflexivity.
Defined.
